(** * arXiv paper index: loader, query CLI and HTTP API (problem2)

    A shallow embedding of [problem2/load_data.py], [problem2/query_papers.py]
    and [problem2/api_server.py], and the properties of the denormalised
    single-table design that the specification states about them.

    Conventions of the embedding.
    - A Python [str] is a [string] of bytes (its UTF-8 encoding).  The
      tokenizer's character classes are ASCII only, so every byte above 127
      is a separator, exactly as the code point it belongs to.
    - A Python [dict] with string keys is an association list in insertion
      order ([dict]); [d.get(k)] is [get_or_none], [d[k]] on a JSON object with
      an absent key raises [KeyError].
    - A raised exception is the [Raise] branch of [result]. *)

From Stdlib Require Import String Ascii List Bool Arith ZArith Lia.
From Stdlib Require Import Sorting.Sorted Sorting.Permutation.
Import ListNotations.

Local Open Scope string_scope.
Local Open Scope list_scope.

(** ** Exceptions and the error monad *)

Inductive exn : Type :=
| KeyError (key : string)
| AttributeError (msg : string)
| ParamValidationError (msg : string)
| ClientError (msg : string)
| ZeroDivisionError.

Inductive result (A : Type) : Type :=
| Ok (a : A)
| Raise (e : exn).

Arguments Ok {A} a.
Arguments Raise {A} e.

Definition bind {A B : Type} (m : result A) (k : A -> result B) : result B :=
  match m with
  | Ok a => k a
  | Raise e => Raise e
  end.

Notation "x <- m ;; k" := (bind m (fun x => k))
  (at level 61, m at next level, right associativity).

(** ** Values and dictionaries *)

Inductive value : Type :=
| VNone
| VStr (s : string)
| VList (l : list string)
| VInt (z : Z).

Definition dict : Type := list (string * value).

Fixpoint lookup (k : string) (d : dict) : option value :=
  match d with
  | [] => None
  | (k', v) :: d' => if String.eqb k' k then Some v else lookup k d'
  end.

(** [d.get(k)]: the value, or Python's [None]. *)
Definition get_or_none (d : dict) (k : string) : value :=
  match lookup k d with
  | Some v => v
  | None => VNone
  end.

Definition keys (d : dict) : list string := map fst d.

(** ** The keyword extractor ([load_data.py], lines 94-109) *)

Module Keywords.

Definition code (c : ascii) : nat := nat_of_ascii c.

Definition between (lo hi : nat) (c : ascii) : bool :=
  Nat.leb lo (code c) && Nat.leb (code c) hi.

Definition is_upper (c : ascii) : bool := between 65 90 c.
Definition is_lower (c : ascii) : bool := between 97 122 c.
Definition is_digit (c : ascii) : bool := between 48 57 c.
Definition is_hyphen (c : ascii) : bool := Nat.eqb (code c) 45.

(** The two character classes of [TOKENIZER]: [[a-zA-Z]] and
    [[a-zA-Z0-9\-]]. *)
Definition head_char (c : ascii) : bool := is_lower c || is_upper c.
Definition tail_char (c : ascii) : bool :=
  is_lower c || is_upper c || is_digit c || is_hyphen c.

(** [re.findall] for [[a-zA-Z][a-zA-Z0-9\-]*]: leftmost, greedy,
    non-overlapping matches.  [cur] is the match in progress. *)
Fixpoint scan (cur : option string) (s : string) : list string :=
  match s with
  | EmptyString =>
      match cur with
      | Some w => [w]
      | None => []
      end
  | String c s' =>
      match cur with
      | None =>
          if head_char c then scan (Some (String c EmptyString)) s'
          else scan None s'
      | Some w =>
          if tail_char c then scan (Some (w ++ String c EmptyString)%string) s'
          else w :: scan None s'
      end
  end.

Definition TOKENIZER_findall (text : string) : list string := scan None text.

(** [str.lower] (exact on ASCII, which is all a token contains). *)
Definition lower_char (c : ascii) : ascii :=
  if is_upper c then ascii_of_nat (code c + 32) else c.

Fixpoint lower (s : string) : string :=
  match s with
  | EmptyString => EmptyString
  | String c s' => String (lower_char c) (lower s')
  end.

Definition STOPWORDS : list string :=
  [ "the"; "a"; "an"; "and"; "or"; "but"; "in"; "on"; "at"; "to"; "for";
    "of"; "with"; "by"; "from"; "up"; "about"; "into"; "through"; "during";
    "is"; "are"; "was"; "were"; "be"; "been"; "being"; "have"; "has"; "had";
    "do"; "does"; "did"; "will"; "would"; "could"; "should"; "may"; "might";
    "can"; "this"; "that"; "these"; "those"; "we"; "our"; "use"; "using";
    "based"; "approach"; "method"; "paper"; "propose"; "proposed"; "show" ].

(** [t in stop] for a set given by the list of its elements. *)
Definition mem (t : string) (stop : list string) : bool :=
  existsb (String.eqb t) stop.

(** [collections.Counter]: a dict from element to count, in order of first
    insertion.  [incr] is [self[elem] = self.get(elem, 0) + 1]. *)
Fixpoint incr (t : string) (c : list (string * nat)) : list (string * nat) :=
  match c with
  | [] => [(t, 1)]
  | (k, n) :: c' =>
      if String.eqb k t then (k, S n) :: c' else (k, n) :: incr t c'
  end.

Definition Counter (tokens : list string) : list (string * nat) :=
  fold_left (fun c t => incr t c) tokens [].

(** [sorted(items, key=itemgetter(1), reverse=True)]: a stable sort, so that
    entries of equal count keep their order in the Counter. *)
Fixpoint insert_desc (x : string * nat) (l : list (string * nat))
  : list (string * nat) :=
  match l with
  | [] => [x]
  | y :: l' => if Nat.ltb (snd x) (snd y) then y :: insert_desc x l' else x :: y :: l'
  end.

Definition sorted_desc (l : list (string * nat)) : list (string * nat) :=
  fold_right insert_desc [] l.

(** [Counter.most_common(n)] is [heapq.nlargest(n, items, key=count)], which
    equals [sorted(items, key=count, reverse=True)[:n]] for [n >= 0]. *)
Definition most_common (n : nat) (c : list (string * nat))
  : list (string * nat) :=
  firstn n (sorted_desc c).

Definition extract_keywords_with (stop : list string) (text : string)
  (topk : nat) : list string :=
  let tokens := map lower (TOKENIZER_findall text) in
  let tokens := filter (fun t => negb (mem t stop)) tokens in
  map fst (most_common topk (Counter tokens)).

Definition extract_keywords (text : string) (topk : nat) : list string :=
  extract_keywords_with STOPWORDS text topk.

End Keywords.

(** ** The paper projector ([load_data.py], lines 113-207) *)

(** A paper of [papers.json]: a JSON object whose fields, when present, have
    the documented types.  [None] is an absent key. *)
Module Paper.
Record t : Type := {
  arxiv_id : option string;
  title : option string;
  authors : option (list string);
  categories : option (list string);
  abstract : option string;
  published : option string
}.
End Paper.

Module LoadData.

Import Keywords.

(** [p[key]] *)
Definition subscript {A : Type} (key : string) (field : option A) : result A :=
  match field with
  | Some v => Ok v
  | None => Raise (KeyError key)
  end.

(** [p.get(key, default)] *)
Definition get {A : Type} (field : option A) (default : A) : A :=
  match field with
  | Some v => v
  | None => default
  end.

Definition transform_paper (p : Paper.t) : result (list dict) :=
  arxiv_id <- subscript "arxiv_id" (Paper.arxiv_id p) ;;
  let title := get (Paper.title p) "" in
  let authors := get (Paper.authors p) [] in
  let cats := get (Paper.categories p) [] in
  let abstract := get (Paper.abstract p) "" in
  let published := get (Paper.published p) "" in
  text <- subscript "abstract" (Paper.abstract p) ;;
  let keywords := extract_keywords text 10 in
  let items := [] in
  let items := items ++ map (fun cat =>
    [ ("PK", VStr ("CATEGORY#" ++ cat));
      ("SK", VStr (published ++ "#" ++ arxiv_id));
      ("arxiv_id", VStr arxiv_id);
      ("title", VStr title);
      ("authors", VList authors);
      ("abstract", VStr abstract);
      ("categories", VList cats);
      ("keywords", VList keywords);
      ("published", VStr published);
      ("GSI2PK", VStr ("ARXIV_ID#" ++ arxiv_id)) ]) cats in
  let items := items ++ map (fun author =>
    [ ("PK", VStr ("AUTHOR#" ++ author));
      ("SK", VStr (published ++ "#" ++ arxiv_id));
      ("type", VStr "AUTHOR");
      ("arxiv_id", VStr arxiv_id);
      ("title", VStr title);
      ("categories", VList cats);
      ("published", VStr published);
      ("GSI1PK", VStr ("AUTHOR#" ++ author));
      ("GSI1SK", VStr (published ++ "#" ++ arxiv_id)) ]) authors in
  let items := items ++ map (fun kw =>
    [ ("PK", VStr ("KEYWORD#" ++ kw));
      ("SK", VStr ("KW#" ++ arxiv_id ++ "#" ++ kw));
      ("type", VStr "KW");
      ("arxiv_id", VStr arxiv_id);
      ("title", VStr title);
      ("categories", VList cats);
      ("published", VStr published);
      ("token", VStr kw);
      ("GSI3PK", VStr ("KEYWORD#" ++ kw));
      ("GSI3SK", VStr (published ++ "#" ++ arxiv_id)) ]) keywords in
  Ok items.

End LoadData.

(** ** The key-value store

    The store is an external collaborator; this is its interface as the
    programs use it: a table keyed by the pair ([PK], [SK]) whose
    [put_item] replaces the record under an existing key (upsert), and
    [query] over the table or one of the three secondary indexes that
    [create_table] declares.  Records are returned in sort-key order; where
    sort keys are equal or the index has none, the model keeps table order,
    which the real store leaves unspecified. *)

Module Store.

Definition table : Type := list dict.

Definition str_attr (it : dict) (k : string) : option string :=
  match lookup k it with
  | Some (VStr s) => Some s
  | _ => None
  end.

Definition primary_key (it : dict) : option (string * string) :=
  match str_attr it "PK", str_attr it "SK" with
  | Some pk, Some sk => Some (pk, sk)
  | _, _ => None
  end.

Definition key_eqb (k1 k2 : string * string) : bool :=
  String.eqb (fst k1) (fst k2) && String.eqb (snd k1) (snd k2).

Definition has_key (k : string * string) (it : dict) : bool :=
  match primary_key it with
  | Some k' => key_eqb k' k
  | None => false
  end.

Fixpoint upsert (k : string * string) (it : dict) (tbl : table) : table :=
  match tbl with
  | [] => [it]
  | x :: tbl' => if has_key k x then it :: tbl' else x :: upsert k it tbl'
  end.

Definition put_item (tbl : table) (it : dict) : result table :=
  match primary_key it with
  | Some k => Ok (upsert k it tbl)
  | None => Raise (ParamValidationError "missing key attribute")
  end.

Fixpoint put_items (tbl : table) (items : list dict) : result table :=
  match items with
  | [] => Ok tbl
  | it :: items' => tbl' <- put_item tbl it ;; put_items tbl' items'
  end.

(** [BatchWriteItem]: a request that holds two records under one primary key
    is rejected whole; otherwise every record of it is put. *)
Fixpoint has_duplicate_keys (items : list dict) : bool :=
  match items with
  | [] => false
  | it :: items' =>
      match primary_key it with
      | Some k => existsb (has_key k) items'
      | None => false
      end || has_duplicate_keys items'
  end.

Definition batch_write_item (tbl : table) (items : list dict) : result table :=
  if has_duplicate_keys items then
    Raise (ClientError
      "ValidationException: Provided list of item keys contains duplicates")
  else put_items tbl items.

(** The key schema of [create_table] ([load_data.py], lines 33-87). *)
Inductive index : Type := Primary | AuthorIndex | PaperIdIndex | KeywordIndex.

Definition hash_attr (ix : index) : string :=
  match ix with
  | Primary => "PK"
  | AuthorIndex => "GSI1PK"
  | PaperIdIndex => "GSI2PK"
  | KeywordIndex => "GSI3PK"
  end.

Definition range_attr (ix : index) : option string :=
  match ix with
  | Primary => Some "SK"
  | AuthorIndex => Some "GSI1SK"
  | PaperIdIndex => None
  | KeywordIndex => Some "GSI3SK"
  end.

(** Attributes an index returns: [ProjectionType] ALL, or for
    [AuthorIndex] INCLUDE of four attributes next to the key attributes. *)
Definition projected (ix : index) (k : string) : bool :=
  match ix with
  | AuthorIndex =>
      existsb (String.eqb k)
        ["PK"; "SK"; "GSI1PK"; "GSI1SK";
         "arxiv_id"; "title"; "categories"; "published"]
  | _ => true
  end.

Definition project (ix : index) (it : dict) : dict :=
  filter (fun kv => projected ix (fst kv)) it.

(** The sort key of a record in an index (empty when the index has none). *)
Definition range_value (ix : index) (it : dict) : string :=
  match range_attr ix with
  | Some a => match str_attr it a with Some s => s | None => "" end
  | None => ""
  end.

(** A record belongs to an index when it carries the index's key
    attributes. *)
Definition in_index (ix : index) (it : dict) : bool :=
  match str_attr it (hash_attr ix) with
  | Some _ =>
      match range_attr ix with
      | Some a => match str_attr it a with Some _ => true | None => false end
      | None => true
      end
  | None => false
  end.

(** [Key(hash).eq(v)], optionally [& Key(range).between(lo, hi)]; strings
    compare bytewise. *)
Definition key_condition (ix : index) (hash_value : string)
  (range_between : option (string * string)) (it : dict) : bool :=
  in_index ix it &&
  match str_attr it (hash_attr ix) with
  | Some v => String.eqb v hash_value
  | None => false
  end &&
  match range_between with
  | Some (lo, hi) =>
      String.leb lo (range_value ix it) && String.leb (range_value ix it) hi
  | None => true
  end.

Fixpoint insert_asc (ix : index) (x : dict) (l : list dict) : list dict :=
  match l with
  | [] => [x]
  | y :: l' =>
      if String.leb (range_value ix x) (range_value ix y) then x :: y :: l'
      else y :: insert_asc ix x l'
  end.

Definition sort_asc (ix : index) (l : list dict) : list dict :=
  fold_right (insert_asc ix) [] l.

Definition query (tbl : table) (ix : index) (hash_value : string)
  (range_between : option (string * string))
  (ScanIndexForward : bool) (Limit : option Z) : result (list dict) :=
  let rows := sort_asc ix (filter (key_condition ix hash_value range_between) tbl) in
  let rows := if ScanIndexForward then rows else rev rows in
  let rows := map (project ix) rows in
  match Limit with
  | None => Ok rows
  | Some n =>
      if (n <? 1)%Z then Raise (ParamValidationError "Limit")
      else Ok (firstn (Z.to_nat n) rows)
  end.

End Store.

Module LoadDataMain.

(** boto3's [BatchWriter], as [table.batch_writer()] makes it: no
    [overwrite_by_pkeys], [flush_amount] 25.  [_table] is the table behind the
    client; the store is taken to process every record it accepts (no
    unprocessed items). *)
Definition flush_amount : nat := 25.

Record BatchWriter : Type := {
  _table : Store.table;
  _items_buffer : list dict
}.

(** [_flush]: the first [flush_amount] buffered records leave the buffer and
    go out in one [batch_write_item]. *)
Definition _flush (w : BatchWriter) : BatchWriter * result unit :=
  let items_to_send := firstn flush_amount (_items_buffer w) in
  let w := {| _table := _table w;
              _items_buffer := skipn flush_amount (_items_buffer w) |} in
  match Store.batch_write_item (_table w) items_to_send with
  | Ok tbl' => ({| _table := tbl'; _items_buffer := _items_buffer w |}, Ok tt)
  | Raise e => (w, Raise e)
  end.

(** [batch.put_item(Item=item)]: append, then flush once the buffer holds
    [flush_amount] records. *)
Definition put_item (w : BatchWriter) (Item : dict) : BatchWriter * result unit :=
  let w := {| _table := _table w;
              _items_buffer := _items_buffer w ++ [Item] |} in
  if Nat.leb flush_amount (List.length (_items_buffer w)) then _flush w
  else (w, Ok tt).

(** Lines 245-247: [for item in items: batch.put_item(Item=item)]. *)
Fixpoint put_items (w : BatchWriter) (items : list dict)
  : BatchWriter * result unit :=
  match items with
  | [] => (w, Ok tt)
  | item :: items' =>
      match put_item w item with
      | (w', Ok _) => put_items w' items'
      | (w', Raise e) => (w', Raise e)
      end
  end.

(** Lines 243-247, the body of the [with] block: the writer as the block
    leaves it, and the count of puts or the exception that ended it. *)
Fixpoint write_papers (w : BatchWriter) (total_items_written : nat)
  (papers : list Paper.t) : BatchWriter * result nat :=
  match papers with
  | [] => (w, Ok total_items_written)
  | paper :: papers' =>
      match LoadData.transform_paper paper with
      | Raise e => (w, Raise e)
      | Ok items =>
          match put_items w items with
          | (w', Ok _) =>
              write_papers w' (total_items_written + List.length items) papers'
          | (w', Raise e) => (w', Raise e)
          end
      end
  end.

(** [__exit__]: [while self._items_buffer: self._flush()].  Every flush of a
    non-empty buffer takes at least one record out, so the length of the
    buffer is fuel enough. *)
Fixpoint __exit__ (fuel : nat) (w : BatchWriter) : BatchWriter * result unit :=
  match _items_buffer w with
  | [] => (w, Ok tt)
  | _ :: _ =>
      match fuel with
      | 0 => (w, Ok tt)
      | S fuel' =>
          match _flush w with
          | (w', Ok _) => __exit__ fuel' w'
          | (w', Raise e) => (w', Raise e)
          end
      end
  end.

(** [main], lines 237-250, on the table [create_table] has just made: the
    [with] block, its [__exit__] (which runs, and whose exception wins, also
    when the block raised), then [total_items_written / len(papers)].  The
    result is the table and the count printed as created. *)
Definition main (papers : list Paper.t) : result (Store.table * nat) :=
  let w := {| _table := []; _items_buffer := [] |} in
  let (w, block) := write_papers w 0 papers in
  let (w, exited) := __exit__ (List.length (_items_buffer w)) w in
  _ <- exited ;;
  total_items_written <- block ;;
  if Nat.eqb (List.length papers) 0 then Raise ZeroDivisionError
  else Ok (_table w, total_items_written).

End LoadDataMain.

(** ** The query CLI ([query_papers.py]) *)

Module QueryPapers.

(** The parsed command line ([parse_args], lines 10-48).  [--limit] is an
    optional integer whose argparse default is 10. *)
Inductive args : Type :=
| recent (category : string) (limit : option Z)
| author (author_name : string)
| get (arxiv_id : string)
| daterange (category start_date end_date : string)
| keyword (keyword : string) (limit : option Z).

Definition args_limit (limit : option Z) : Z :=
  match limit with
  | Some n => n
  | None => 10%Z
  end.

Definition query_recent_in_category (tbl : Store.table) (category : string)
  (limit : Z) : result (list dict) :=
  Store.query tbl Store.Primary ("CATEGORY#" ++ category) None false (Some limit).

Definition query_papers_by_author (tbl : Store.table) (author_name : string)
  : result (list dict) :=
  Store.query tbl Store.AuthorIndex ("AUTHOR#" ++ author_name) None true None.

(** What [get_paper_by_id] returns: the first record, or the empty list. *)
Inductive item_or_list : Type :=
| AnItem (d : dict)
| AList (l : list dict).

Definition get_paper_by_id (tbl : Store.table) (arxiv_id : string)
  : result item_or_list :=
  Items <- Store.query tbl Store.PaperIdIndex ("ARXIV_ID#" ++ arxiv_id)
             None true None ;;
  match Items with
  | d :: _ => Ok (AnItem d)
  | [] => Ok (AList [])
  end.

Definition query_papers_in_date_range (tbl : Store.table)
  (category start_date end_date : string) : result (list dict) :=
  Store.query tbl Store.Primary ("CATEGORY#" ++ category)
    (Some ((start_date ++ "#")%string, (end_date ++ "#zzzzzzz")%string)) true None.

Definition query_papers_by_keyword (tbl : Store.table) (keyword : string)
  (limit : Z) : result (list dict) :=
  Store.query tbl Store.KeywordIndex ("KEYWORD#" ++ Keywords.lower keyword)
    None false (Some limit).

(** The record every branch of [main] builds from a returned item. *)
Definition display (item : dict) : dict :=
  [ ("arxiv_id", get_or_none item "arxiv_id");
    ("title", get_or_none item "title");
    ("authors", get_or_none item "authors");
    ("published", get_or_none item "published");
    ("categories", get_or_none item "categories") ].

Inductive results_t : Type :=
| Results (l : list dict)
| Result (d : dict).

(** The JSON document printed by [main], without [execution_time_ms]
    (wall-clock time). *)
Record output : Type := {
  query_type : string;
  parameters : dict;
  results : results_t;
  count : nat
}.

Definition main (tbl : Store.table) (a : args) : result output :=
  match a with
  | recent category limit =>
      items <- query_recent_in_category tbl category 10 ;;
      let results := map display items in
      Ok {| query_type := "recent_in_category";
            parameters := [("category", VStr category);
                           ("limit", VInt (args_limit limit))];
            results := Results results;
            count := List.length results |}
  | author author_name =>
      items <- query_papers_by_author tbl author_name ;;
      let results := map display items in
      Ok {| query_type := "papers_by_author";
            parameters := [("author_name", VStr author_name)];
            results := Results results;
            count := List.length results |}
  | get arxiv_id =>
      items <- get_paper_by_id tbl arxiv_id ;;
      match items with
      | AnItem item =>
          Ok {| query_type := "paper_by_id";
                parameters := [("arxiv_id", VStr arxiv_id)];
                results := Result (display item);
                count := 1 |}
      | AList _ =>
          Raise (AttributeError "'list' object has no attribute 'get'")
      end
  | daterange category start_date end_date =>
      items <- query_papers_in_date_range tbl category start_date end_date ;;
      let results := map display items in
      Ok {| query_type := "papers_in_date_range";
            parameters := [("category", VStr category);
                           ("start_date", VStr start_date);
                           ("end_date", VStr end_date)];
            results := Results results;
            count := List.length results |}
  | keyword kw limit =>
      items <- query_papers_by_keyword tbl kw 10 ;;
      let results := map display items in
      Ok {| query_type := "papers_by_keyword";
            parameters := [("keyword", VStr kw);
                           ("limit", VInt (args_limit limit))];
            results := Results results;
            count := List.length results |}
  end.

End QueryPapers.

(** ** The HTTP API ([api_server.py]) *)

Module ApiServer.

Inductive json : Type :=
| JStr (s : string)
| JInt (z : Z)
| JNat (n : nat)
| JPapers (l : list dict).

Record response : Type := {
  status : nat;
  body : list (string * json)
}.

Definition _send_json (json_response : list (string * json)) (status : nat)
  : response :=
  {| status := status; body := json_response |}.

Definition _send_error (status : nat) (message : string) : response :=
  _send_json [("error", JStr message)] status.

(** [not s] for an optional string: absent or empty. *)
Definition missing (s : option string) : bool :=
  match s with
  | Some s' => String.eqb s' ""
  | None => true
  end.

Definition text (s : option string) : string :=
  match s with
  | Some s' => s'
  | None => ""
  end.

(** [int(query.get("limit", ["10"])[0])], the parameter already decoded. *)
Definition limit_param (limit : option Z) : Z :=
  match limit with
  | Some n => n
  | None => 10%Z
  end.

Definition handle_recent (tbl : Store.table) (category : option string)
  (limit : option Z) : result response :=
  let limit := limit_param limit in
  if missing category then
    Ok (_send_error 404 "Missing query parameter: category")
  else
    let category := text category in
    Items <- Store.query tbl Store.Primary ("CATEGORY#" ++ category)
               None false (Some limit) ;;
    let papers := map (fun item =>
      [ ("arxiv_id", get_or_none item "arxiv_id");
        ("title", get_or_none item "title");
        ("authors", get_or_none item "authors");
        ("published", get_or_none item "published") ]) Items in
    let json_response :=
      [ ("category", JStr category);
        ("papers", JPapers papers);
        ("count", JNat (List.length papers)) ] in
    match papers with
    | [] => Ok (_send_error 404 "Invalid category")
    | _ => Ok (_send_json json_response 200)
    end.

Definition handle_author (tbl : Store.table) (author_name : string)
  : result response :=
  if String.eqb author_name "" then
    Ok (_send_error 404 "Missing query parameter: author_name")
  else
    Items <- Store.query tbl Store.AuthorIndex ("AUTHOR#" ++ author_name)
               None true None ;;
    let papers := map (fun item =>
      [ ("arxiv_id", get_or_none item "arxiv_id");
        ("title", get_or_none item "title");
        ("categories", get_or_none item "categories");
        ("published", get_or_none item "published") ]) Items in
    let json_response :=
      [ ("author", JStr author_name);
        ("papers", JPapers papers);
        ("count", JNat (List.length papers)) ] in
    match papers with
    | [] => Ok (_send_error 404 "Invalid author_name")
    | _ => Ok (_send_json json_response 200)
    end.

Definition handle_get_by_id (tbl : Store.table) (arxiv_id : string)
  : result response :=
  if String.eqb arxiv_id "" then
    Ok (_send_error 404 "Missing query parameter: arxiv_id")
  else
    Items <- Store.query tbl Store.PaperIdIndex ("ARXIV_ID#" ++ arxiv_id)
               None true None ;;
    let papers := Items in
    let json_response :=
      [ ("arxiv_id", JStr arxiv_id);
        ("papers", JPapers papers);
        ("count", JNat 1) ] in
    match papers with
    | [] => Ok (_send_error 404 "Invalid arxiv_id")
    | _ => Ok (_send_json json_response 200)
    end.

Definition handle_search (tbl : Store.table) (category start end_ : option string)
  : result response :=
  if missing category || missing start || missing end_ then
    Ok (_send_error 404 "Missing query parameters: category, start, end")
  else
    let category := text category in
    let start := text start in
    let end_ := text end_ in
    Items <- Store.query tbl Store.Primary ("CATEGORY#" ++ category)
               (Some ((start ++ "#")%string, (end_ ++ "#zzzzzzz")%string)) true None ;;
    let papers := map (fun item =>
      [ ("arxiv_id", get_or_none item "arxiv_id");
        ("title", get_or_none item "title");
        ("authors", get_or_none item "authors");
        ("categories", get_or_none item "categories");
        ("published", get_or_none item "published") ]) Items in
    let json_response :=
      [ ("category", JStr category);
        ("start", JStr start);
        ("end", JStr end_);
        ("papers", JPapers papers);
        ("count", JNat (List.length papers)) ] in
    match papers with
    | [] => Ok (_send_error 404 "Invalid category, start, end")
    | _ => Ok (_send_json json_response 200)
    end.

Definition handle_keyword (tbl : Store.table) (keyword : string)
  (limit : option Z) : result response :=
  let limit := limit_param limit in
  if String.eqb keyword "" then
    Ok (_send_error 404 "Missing query parameter: keyword")
  else
    Items <- Store.query tbl Store.KeywordIndex
               ("KEYWORD#" ++ Keywords.lower keyword) None false (Some limit) ;;
    let papers := map (fun item =>
      [ ("arxiv_id", get_or_none item "arxiv_id");
        ("title", get_or_none item "title");
        ("authors", get_or_none item "authors");
        ("categories", get_or_none item "categories");
        ("published", get_or_none item "published") ]) Items in
    let json_response :=
      [ ("keyword", JStr keyword);
        ("papers", JPapers papers);
        ("count", JNat (List.length papers)) ] in
    match papers with
    | [] => Ok (_send_error 404 "Invalid keyword")
    | _ => Ok (_send_json json_response 200)
    end.

(** The routes of [do_GET] (lines 46-71), the path already split. *)
Inductive request : Type :=
| papers_recent (category : option string) (limit : option Z)
| papers_search (category start end_ : option string)
| papers_author (author_name : string)
| papers_keyword (keyword : string) (limit : option Z)
| papers_id (arxiv_id : string)
| other_path.

Definition do_GET (tbl : Store.table) (req : request) : response :=
  let handled :=
    match req with
    | papers_recent category limit => handle_recent tbl category limit
    | papers_search category start end_ => handle_search tbl category start end_
    | papers_author author_name => handle_author tbl author_name
    | papers_keyword keyword limit => handle_keyword tbl keyword limit
    | papers_id arxiv_id => handle_get_by_id tbl arxiv_id
    | other_path => Ok (_send_error 404 "Invalid path")
    end in
  match handled with
  | Ok r => r
  | Raise _ => _send_error 500 "Server errors"
  end.

End ApiServer.

(** ** Vocabulary of the specification *)

Module Spec.

Import Keywords.

Fixpoint all_chars (f : ascii -> bool) (s : string) : bool :=
  match s with
  | EmptyString => true
  | String c s' => f c && all_chars f s'
  end.

(** The whole of [t] matches [[a-zA-Z][a-zA-Z0-9\-]*]. *)
Definition matches_TOKENIZER (t : string) : bool :=
  match t with
  | EmptyString => false
  | String c s' => head_char c && all_chars tail_char s'
  end.

(** The words of a text: its tokens, lowercased, stopwords included. *)
Definition words (text : string) : list string :=
  map lower (TOKENIZER_findall text).

Definition occurrences (t : string) (ws : list string) : nat :=
  count_occ string_dec ws t.

(** Position of the first occurrence of [t] in [ws] (its length if none). *)
Fixpoint first_index (t : string) (ws : list string) : nat :=
  match ws with
  | [] => 0
  | w :: ws' => if String.eqb w t then 0 else S (first_index t ws')
  end.

(** [a] is ranked before [b]: more frequent, or as frequent and first seen
    earlier. *)
Definition ranks_before (ws : list string) (a b : string) : Prop :=
  occurrences b ws < occurrences a ws \/
  (occurrences a ws = occurrences b ws /\ first_index a ws < first_index b ws).

(** [c[k]] for a Counter: the count recorded for [k], 0 when [k] is not a
    key. *)
Fixpoint count_of (k : string) (c : list (string * nat)) : nat :=
  match c with
  | [] => 0
  | (k', n) :: c' => if String.eqb k' k then n else count_of k c'
  end.

(** The order [sorted_desc] produces from a list in order [Q]: count
    descending, then [Q]. *)
Definition by_count_then (Q : string * nat -> string * nat -> Prop)
  (x y : string * nat) : Prop :=
  snd y < snd x \/ (snd x = snd y /\ Q x y).

(** The stopword filter of [extract_keywords]. *)
Definition keep (t : string) : bool := negb (mem t STOPWORDS).

(** A date string none of whose bytes is at or below ["#"] (35): digits,
    ["-"], [":"], ["T"], ["Z"], ["+"] and ["."] all qualify, so every
    ISO-8601 date or timestamp does. *)
Definition sortable_date (d : string) : bool :=
  all_chars (fun c => Nat.ltb 35 (code c)) d.

(** The internal key attributes of a view record. *)
Definition key_fields : list string :=
  ["PK"; "SK"; "GSI1PK"; "GSI1SK"; "GSI2PK"; "GSI3PK"; "GSI3SK"].

Definition exposes_key_field (d : dict) : bool :=
  existsb (fun k => mem k key_fields) (keys d).

End Spec.

(** ** The extractor's specification, in its own words

    What the specification says of [extract], written without the
    definitions of [Keywords]: character classes by their codes, the tokens
    of a text as its maximal runs, lowercasing as a relation between a token
    and its lowercase form, and frequency and first occurrence counted on the
    tokens of the text. *)

Module Reference.

Definition ord (c : ascii) : N := N_of_ascii c.

Definition upper_letter (c : ascii) : bool :=
  N.leb 65 (ord c) && N.leb (ord c) 90.
Definition lower_letter (c : ascii) : bool :=
  N.leb 97 (ord c) && N.leb (ord c) 122.
Definition digit (c : ascii) : bool :=
  N.leb 48 (ord c) && N.leb (ord c) 57.
Definition hyphen (c : ascii) : bool := N.eqb (ord c) 45.

(** A letter starts a token; letters, digits and hyphens continue it. *)
Definition letter (c : ascii) : bool := upper_letter c || lower_letter c.
Definition word_char (c : ascii) : bool := letter c || digit c || hyphen c.

Fixpoint every (f : ascii -> bool) (s : string) : bool :=
  match s with
  | EmptyString => true
  | String c s' => f c && every f s'
  end.

(** What follows a token: the end of the text, or a character that cannot
    continue it. *)
Definition boundary (rest : string) : Prop :=
  match rest with
  | EmptyString => True
  | String d _ => word_char d = false
  end.

(** The tokens of a text: scanning from the left, a character that is no
    letter is passed over, and a letter starts a token that runs as far as
    letters, digits and hyphens go. *)
Inductive tokens_of : string -> list string -> Prop :=
| tokens_end : tokens_of EmptyString []
| tokens_skip (c : ascii) (s : string) (ts : list string) :
    letter c = false -> tokens_of s ts -> tokens_of (String c s) ts
| tokens_token (c : ascii) (w rest : string) (ts : list string) :
    letter c = true -> every word_char w = true -> boundary rest ->
    tokens_of rest ts ->
    tokens_of (String c (w ++ rest)) (String c w :: ts).

(** [d] is [c] in lowercase: an uppercase letter goes 32 codes up, any other
    character stays. *)
Definition folds_to (c d : ascii) : bool :=
  if upper_letter c then N.eqb (ord d) (ord c + 32) else Ascii.eqb d c.

(** [t] is the token [w] in lowercase. *)
Fixpoint lowered (w t : string) : bool :=
  match w, t with
  | EmptyString, EmptyString => true
  | String c w', String d t' => folds_to c d && lowered w' t'
  | _, _ => false
  end.

(** A lowercase token: [[a-z][a-z0-9\-]*]. *)
Definition lowercase_token (t : string) : bool :=
  match t with
  | EmptyString => false
  | String c t' =>
      lower_letter c &&
      every (fun d => lower_letter d || digit d || hyphen d) t'
  end.

(** How many tokens of the text are [t] up to case. *)
Definition frequency (toks : list string) (t : string) : nat :=
  List.length (filter (fun w => lowered w t) toks).

(** The position of the first token of the text that is [t] up to case. *)
Fixpoint first_seen (toks : list string) (t : string) : nat :=
  match toks with
  | [] => 0
  | w :: toks' => if lowered w t then 0 else S (first_seen toks' t)
  end.

(** [a] ranks before [b]: more frequent, or as frequent and seen first. *)
Definition ranked (toks : list string) (a b : string) : Prop :=
  frequency toks b < frequency toks a \/
  (frequency toks a = frequency toks b /\
   first_seen toks a < first_seen toks b).

End Reference.

(** The write loop on records that all carry their key:
    [put_items] without the error plumbing. *)
Module Upsert.

Definition put (tbl : Store.table) (it : dict) : Store.table :=
  match Store.primary_key it with
  | Some k => Store.upsert k it tbl
  | None => tbl
  end.

Definition put_all (tbl : Store.table) (items : list dict) : Store.table :=
  fold_left put items tbl.

Definition keyed (it : dict) : Prop := Store.primary_key it <> None.

Definition present (k : string * string) (tbl : Store.table) : bool :=
  existsb (Store.has_key k) tbl.

End Upsert.

(** The papers of the specification's examples. *)
Module Fixtures.

Definition paper (id date : string) (cats : list string) : Paper.t :=
  {| Paper.arxiv_id := Some id;
     Paper.title := Some ("Paper " ++ id)%string;
     Paper.authors := Some ["Ada Lovelace"];
     Paper.categories := Some cats;
     Paper.abstract := Some "cache cache lock lock cache";
     Paper.published := Some date |}.

Definition three_papers : list Paper.t :=
  [ paper "0001" "2024-01-01" ["cs.LG"];
    paper "0002" "2024-01-03" ["cs.LG"];
    paper "0003" "2024-01-02" ["cs.LG"] ].

Definition two_papers : list Paper.t :=
  [ paper "0001" "2024-01-01" ["cs.LG"];
    paper "0002" "2024-01-02" ["cs.LG"] ].

Definition paper_0001 : Paper.t := paper "0001" "2024-01-01" ["cs.LG"; "cs.AI"].

Definition two_categories : list Paper.t := [ paper_0001 ].

(** Twenty-six categories, the first and the last the same: the two records
    under that key are twenty-five records apart. *)
Definition crowded_categories : list string :=
  [ "cs.LG"; "c01"; "c02"; "c03"; "c04"; "c05"; "c06"; "c07"; "c08"; "c09";
    "c10"; "c11"; "c12"; "c13"; "c14"; "c15"; "c16"; "c17"; "c18"; "c19";
    "c20"; "c21"; "c22"; "c23"; "c24"; "cs.LG" ].

Definition crowded_paper : Paper.t :=
  paper "0001" "2024-01-01" crowded_categories.

Definition repeated_paper : Paper.t :=
  paper "0001" "2024-01-01" ["cs.LG"; "cs.LG"].

(** The table [load_data.py] leaves behind. *)
Definition loaded (papers : list Paper.t) : Store.table :=
  match LoadDataMain.main papers with
  | Ok (tbl, _) => tbl
  | Raise _ => []
  end.

(** The records [transform_paper] makes of a paper. *)
Definition views (p : Paper.t) : list dict :=
  match LoadData.transform_paper p with
  | Ok items => items
  | Raise _ => []
  end.

(** The category record of paper 0001 of [two_categories], as stored. *)
Definition raw_view (cat : string) : dict :=
  [ ("PK", VStr ("CATEGORY#" ++ cat));
    ("SK", VStr "2024-01-01#0001");
    ("arxiv_id", VStr "0001");
    ("title", VStr "Paper 0001");
    ("authors", VList ["Ada Lovelace"]);
    ("abstract", VStr "cache cache lock lock cache");
    ("categories", VList ["cs.LG"; "cs.AI"]);
    ("keywords", VList ["cache"; "lock"]);
    ("published", VStr "2024-01-01");
    ("GSI2PK", VStr "ARXIV_ID#0001") ].

(** The [arxiv_id] of each returned record. *)
Definition ids (r : result (list dict)) : list value :=
  match r with
  | Ok items => map (fun item => get_or_none item "arxiv_id") items
  | Raise _ => []
  end.

End Fixtures.

(** The records of [transform_paper], by kind. *)
Module Views.

Import Keywords LoadData.

(** The values [transform_paper] reads off a paper before it builds a
    record (lines 123-130). *)
Record row : Type := {
  row_id : string;
  row_title : string;
  row_authors : list string;
  row_cats : list string;
  row_abstract : string;
  row_published : string;
  row_keywords : list string
}.

Definition row_of (p : Paper.t) (id text : string) : row :=
  {| row_id := id;
     row_title := get (Paper.title p) "";
     row_authors := get (Paper.authors p) [];
     row_cats := get (Paper.categories p) [];
     row_abstract := get (Paper.abstract p) "";
     row_published := get (Paper.published p) "";
     row_keywords := extract_keywords text 10 |}.

(** Lines 157-171. *)
Definition category_view (w : row) (cat : string) : dict :=
  [ ("PK", VStr ("CATEGORY#" ++ cat));
    ("SK", VStr (row_published w ++ "#" ++ row_id w));
    ("arxiv_id", VStr (row_id w));
    ("title", VStr (row_title w));
    ("authors", VList (row_authors w));
    ("abstract", VStr (row_abstract w));
    ("categories", VList (row_cats w));
    ("keywords", VList (row_keywords w));
    ("published", VStr (row_published w));
    ("GSI2PK", VStr ("ARXIV_ID#" ++ row_id w)) ].

(** Lines 175-187. *)
Definition author_view (w : row) (author : string) : dict :=
  [ ("PK", VStr ("AUTHOR#" ++ author));
    ("SK", VStr (row_published w ++ "#" ++ row_id w));
    ("type", VStr "AUTHOR");
    ("arxiv_id", VStr (row_id w));
    ("title", VStr (row_title w));
    ("categories", VList (row_cats w));
    ("published", VStr (row_published w));
    ("GSI1PK", VStr ("AUTHOR#" ++ author));
    ("GSI1SK", VStr (row_published w ++ "#" ++ row_id w)) ].

(** Lines 192-205. *)
Definition keyword_view (w : row) (kw : string) : dict :=
  [ ("PK", VStr ("KEYWORD#" ++ kw));
    ("SK", VStr ("KW#" ++ row_id w ++ "#" ++ kw));
    ("type", VStr "KW");
    ("arxiv_id", VStr (row_id w));
    ("title", VStr (row_title w));
    ("categories", VList (row_cats w));
    ("published", VStr (row_published w));
    ("token", VStr kw);
    ("GSI3PK", VStr ("KEYWORD#" ++ kw));
    ("GSI3SK", VStr (row_published w ++ "#" ++ row_id w)) ].

Definition views_of (w : row) : list dict :=
  (map (category_view w) (row_cats w) ++ map (author_view w) (row_authors w))
  ++ map (keyword_view w) (row_keywords w).

(** A paper [transform_paper] accepts. *)
Definition accepted (p : Paper.t) : Prop :=
  Paper.arxiv_id p <> None /\ Paper.abstract p <> None.

(** Every record written by a load of [papers]. *)
Definition written (papers : list Paper.t) : list dict :=
  flat_map Fixtures.views papers.

(** No ["#"] in a string. *)
Definition hash_free (s : string) : bool :=
  Spec.all_chars (fun c => negb (Ascii.eqb c "#")) s.

(** The requests a [BatchWriter] sends for a sequence of records: the records
    in order, 25 to a request, the last request holding what is left.
    [full_batches] are the requests sent while records arrive ([buf] is what
    is buffered so far), [pending] what the final flush sends. *)
Fixpoint full_batches (buf items : list dict) : list (list dict) :=
  match items with
  | [] => []
  | it :: items' =>
      if Nat.leb 25 (List.length (buf ++ [it]))
      then (buf ++ [it]) :: full_batches [] items'
      else full_batches (buf ++ [it]) items'
  end.

Fixpoint pending (buf items : list dict) : list dict :=
  match items with
  | [] => buf
  | it :: items' =>
      if Nat.leb 25 (List.length (buf ++ [it]))
      then pending [] items'
      else pending (buf ++ [it]) items'
  end.

(** No two records of a request under one primary key. *)
Definition dup_free (b : list dict) : bool :=
  negb (Store.has_duplicate_keys b).

Definition batches (items : list dict) : list (list dict) :=
  full_batches [] items
  ++ match pending [] items with
     | [] => []
     | b => [b]
     end.

(** No paper's [published] contains ["#"]. *)
Definition dates_hash_free (papers : list Paper.t) : Prop :=
  Forall (fun q => hash_free (get (Paper.published q) "") = true) papers.

(** Every paper's [published] sorts above ["#"] bytewise. *)
Definition dates_sortable (papers : list Paper.t) : Prop :=
  Forall (fun q => Spec.sortable_date (get (Paper.published q) "") = true)
    papers.

(** Bytes below 128 only. *)
Definition is_ascii (s : string) : bool :=
  Spec.all_chars (fun c => Nat.ltb (code c) 128) s.

End Views.

(** * Properties *)

(** ** Characters and tokens *)

Section Tokens.

Import Keywords Spec.

Lemma lower_char_not_upper (c : ascii) : is_upper (lower_char c) = false.
Proof.
  destruct c as [[] [] [] [] [] [] [] []]; vm_compute; reflexivity.
Qed.

Lemma lower_char_head (c : ascii) :
  head_char c = true -> head_char (lower_char c) = true.
Proof.
  destruct c as [[] [] [] [] [] [] [] []]; vm_compute; intro H;
    solve [reflexivity | discriminate H].
Qed.

Lemma lower_char_tail (c : ascii) :
  tail_char c = true -> tail_char (lower_char c) = true.
Proof.
  destruct c as [[] [] [] [] [] [] [] []]; vm_compute; intro H;
    solve [reflexivity | discriminate H].
Qed.

Lemma lower_char_fixed (c : ascii) :
  is_upper c = false -> lower_char c = c.
Proof. unfold lower_char. intros ->. reflexivity. Qed.

Lemma lower_idem (s : string) : lower (lower s) = lower s.
Proof.
  induction s as [|c s IH]; simpl; [reflexivity|].
  rewrite IH, (lower_char_fixed (lower_char c)); [reflexivity|].
  apply lower_char_not_upper.
Qed.

Lemma all_chars_snoc (f : ascii -> bool) (w : string) (c : ascii) :
  all_chars f w = true -> f c = true ->
  all_chars f (w ++ String c EmptyString) = true.
Proof.
  induction w as [|a w IH]; simpl; intros Hw Hc.
  - rewrite Hc. reflexivity.
  - apply andb_true_iff in Hw as [Ha Hw]. rewrite Ha. simpl. auto.
Qed.

Lemma matches_snoc (w : string) (c : ascii) :
  matches_TOKENIZER w = true -> tail_char c = true ->
  matches_TOKENIZER (w ++ String c EmptyString) = true.
Proof.
  destruct w as [|a w]; simpl; [discriminate|].
  intros H Hc. apply andb_true_iff in H as [Ha Hw].
  rewrite Ha. simpl. apply all_chars_snoc; assumption.
Qed.

Lemma all_chars_lower_tail (s : string) :
  all_chars tail_char s = true -> all_chars tail_char (lower s) = true.
Proof.
  induction s as [|c s IH]; simpl; [reflexivity|].
  intros H. apply andb_true_iff in H as [Hc Hs].
  rewrite (lower_char_tail c Hc). simpl. auto.
Qed.

Lemma matches_lower (t : string) :
  matches_TOKENIZER t = true -> matches_TOKENIZER (lower t) = true.
Proof.
  destruct t as [|c s]; simpl; [discriminate|].
  intros H. apply andb_true_iff in H as [Hc Hs].
  rewrite (lower_char_head c Hc). simpl. apply all_chars_lower_tail, Hs.
Qed.

Lemma scan_matches (s : string) :
  forall cur,
    (forall w, cur = Some w -> matches_TOKENIZER w = true) ->
    Forall (fun t => matches_TOKENIZER t = true) (scan cur s).
Proof.
  induction s as [|c s IH]; intros cur Hcur; simpl.
  - destruct cur as [w|]; [|constructor].
    constructor; [apply Hcur; reflexivity | constructor].
  - destruct cur as [w|].
    + destruct (tail_char c) eqn:Hc.
      * apply IH. intros w' [= <-]. apply matches_snoc; auto.
      * constructor; [auto|]. apply IH. discriminate.
    + destruct (head_char c) eqn:Hc.
      * apply IH. intros w' [= <-]. simpl. rewrite Hc. reflexivity.
      * apply IH. discriminate.
Qed.

Lemma words_match (text t : string) :
  In t (words text) -> matches_TOKENIZER t = true /\ lower t = t.
Proof.
  unfold words. intros H. apply in_map_iff in H as (w & <- & Hw).
  split; [|apply lower_idem].
  apply matches_lower.
  pose proof (scan_matches text None) as HF.
  rewrite Forall_forall in HF. apply HF; [discriminate|exact Hw].
Qed.

Lemma mem_In (t : string) (l : list string) : mem t l = true <-> In t l.
Proof.
  unfold mem. rewrite existsb_exists. split.
  - intros (x & Hx & E). apply String.eqb_eq in E. subst. exact Hx.
  - intros H. exists t. split; [exact H | apply String.eqb_refl].
Qed.

End Tokens.

(** ** Ordered lists *)

Section Ordered.

Context {A B : Type}.

Lemma StronglySorted_map_in (f : A -> B) (R : A -> A -> Prop)
  (S : B -> B -> Prop) (l : list A) :
  (forall a b, In a l -> In b l -> R a b -> S (f a) (f b)) ->
  StronglySorted R l -> StronglySorted S (map f l).
Proof.
  induction l as [|x l IH]; intros HRS Hs; simpl; [constructor|].
  apply StronglySorted_inv in Hs as [Hl Hx].
  constructor.
  - apply IH; [|exact Hl]. intros a b Ha Hb. apply HRS; right; assumption.
  - rewrite Forall_forall in *. intros y Hy.
    apply in_map_iff in Hy as (b & <- & Hb).
    apply HRS; [left; reflexivity | right; exact Hb | apply Hx, Hb].
Qed.

Lemma StronglySorted_snoc (R : A -> A -> Prop) (l : list A) (x : A) :
  StronglySorted R l -> Forall (fun a => R a x) l ->
  StronglySorted R (l ++ [x]).
Proof.
  induction l as [|y l IH]; intros Hs Hx; simpl.
  - constructor; constructor.
  - apply StronglySorted_inv in Hs as [Hl Hy].
    inversion Hx as [|? ? Hyx Hlx]; subst.
    constructor; [apply IH; assumption|].
    apply Forall_app. split; [exact Hy | constructor; [exact Hyx | constructor]].
Qed.

Lemma StronglySorted_app_inv (R : A -> A -> Prop) (l1 l2 : list A) :
  StronglySorted R (l1 ++ l2) ->
  StronglySorted R l1 /\ (forall a b, In a l1 -> In b l2 -> R a b).
Proof.
  induction l1 as [|x l1 IH]; simpl; intros Hs.
  - split; [constructor | intros a b []].
  - apply StronglySorted_inv in Hs as [Hl Hx].
    destruct (IH Hl) as [Hs1 Hcross].
    apply Forall_app in Hx as [Hx1 Hx2].
    split; [constructor; assumption|].
    intros a b [<-|Ha] Hb.
    + rewrite Forall_forall in Hx2. apply Hx2, Hb.
    + apply Hcross; assumption.
Qed.

End Ordered.

(** ** The Counter and its ranking *)

Section Ranking.

Import Keywords Spec.

Lemma Counter_snoc (ts : list string) (t : string) :
  Counter (ts ++ [t]) = incr t (Counter ts).
Proof. unfold Counter. rewrite fold_left_app. reflexivity. Qed.

Lemma incr_keys (t : string) (c : list (string * nat)) :
  map fst (incr t c)
  = if mem t (map fst c) then map fst c else map fst c ++ [t].
Proof.
  induction c as [|[k n] c IH]; simpl; [reflexivity|].
  rewrite (String.eqb_sym t k).
  destruct (String.eqb k t) eqn:E; simpl; [reflexivity|].
  rewrite IH. unfold mem. destruct (existsb _ _); reflexivity.
Qed.

Lemma incr_count_of (t k : string) (c : list (string * nat)) :
  count_of k (incr t c)
  = if String.eqb t k then S (count_of k c) else count_of k c.
Proof.
  induction c as [|[k' n] c IH]; simpl.
  - destruct (String.eqb t k); reflexivity.
  - destruct (String.eqb k' t) eqn:E; simpl.
    + apply String.eqb_eq in E. subst k'.
      destruct (String.eqb t k); reflexivity.
    + destruct (String.eqb k' k) eqn:E'; [|exact IH].
      apply String.eqb_eq in E'. subst k'. rewrite String.eqb_sym, E.
      reflexivity.
Qed.

Lemma Counter_count_of (ts : list string) (k : string) :
  count_of k (Counter ts) = occurrences k ts.
Proof.
  unfold occurrences.
  induction ts as [|t ts IH] using rev_ind; [reflexivity|].
  rewrite Counter_snoc, incr_count_of, IH, count_occ_app. simpl.
  destruct (String.eqb_spec t k) as [->|N].
  - destruct (string_dec k k); [lia | contradiction].
  - destruct (string_dec t k); [contradiction | lia].
Qed.

Lemma Counter_keys (ts : list string) (k : string) :
  In k (map fst (Counter ts)) <-> In k ts.
Proof.
  revert k. induction ts as [|t ts IH] using rev_ind; intros k; [simpl; tauto|].
  rewrite Counter_snoc, incr_keys, in_app_iff. simpl.
  destruct (mem t (map fst (Counter ts))) eqn:M.
  - rewrite mem_In, IH in M. rewrite IH. intuition (subst; auto).
  - rewrite in_app_iff, IH. simpl. tauto.
Qed.

Lemma Counter_NoDup (ts : list string) : NoDup (map fst (Counter ts)).
Proof.
  induction ts as [|t ts IH] using rev_ind; [constructor|].
  rewrite Counter_snoc, incr_keys.
  destruct (mem t (map fst (Counter ts))) eqn:M; [exact IH|].
  apply NoDup_app; [exact IH | constructor; [intros [] | constructor] |].
  intros x Hx [<-|[]].
  apply mem_In in Hx. congruence.
Qed.

Lemma count_of_In (c : list (string * nat)) (k : string) (n : nat) :
  NoDup (map fst c) -> In (k, n) c -> count_of k c = n.
Proof.
  induction c as [|[k' n'] c IH]; simpl; intros Hnd Hin; [contradiction|].
  inversion Hnd as [|? ? Hk' Hc]; subst.
  destruct Hin as [[= -> ->]|Hin].
  - rewrite String.eqb_refl. reflexivity.
  - destruct (String.eqb_spec k' k) as [->|N]; [|auto].
    exfalso. apply Hk'. apply in_map_iff. exists (k, n). auto.
Qed.

Lemma Counter_entry (ts : list string) (x : string * nat) :
  In x (Counter ts) -> snd x = occurrences (fst x) ts /\ In (fst x) ts.
Proof.
  destruct x as [k n]. intros H. simpl. split.
  - rewrite <- Counter_count_of. symmetry.
    apply count_of_In; [apply Counter_NoDup | exact H].
  - apply Counter_keys. apply in_map_iff. exists (k, n). auto.
Qed.

Lemma first_index_lt (k : string) (ts : list string) :
  In k ts -> first_index k ts < List.length ts.
Proof.
  induction ts as [|t ts IH]; simpl; [contradiction|].
  destruct (String.eqb_spec t k) as [->|N]; [lia|].
  intros [E|H]; [contradiction|]. apply IH in H. lia.
Qed.

Lemma first_index_app_in (k : string) (ts l : list string) :
  In k ts -> first_index k (ts ++ l) = first_index k ts.
Proof.
  induction ts as [|t ts IH]; simpl; [contradiction|].
  destruct (String.eqb_spec t k) as [->|N]; [reflexivity|].
  intros [E|H]; [contradiction|]. rewrite IH; auto.
Qed.

Lemma first_index_app_notin (k : string) (ts : list string) :
  ~ In k ts -> first_index k (ts ++ [k]) = List.length ts.
Proof.
  induction ts as [|t ts IH]; simpl; intros H.
  - rewrite String.eqb_refl. reflexivity.
  - destruct (String.eqb_spec t k) as [->|N]; [exfalso; auto|].
    rewrite IH; auto.
Qed.

(** Keys of the Counter are in order of first occurrence. *)
Lemma Counter_first_order (ts : list string) :
  StronglySorted (fun a b => first_index a ts < first_index b ts)
    (map fst (Counter ts)).
Proof.
  induction ts as [|t ts IH] using rev_ind; [constructor|].
  rewrite Counter_snoc, incr_keys.
  assert (Hold : StronglySorted
            (fun a b => first_index a (ts ++ [t]) < first_index b (ts ++ [t]))
            (map fst (Counter ts))).
  { rewrite <- (map_id (map fst (Counter ts))).
    eapply StronglySorted_map_in; [|exact IH].
    intros a b Ha Hb Hab. rewrite Counter_keys in Ha, Hb.
    cbv beta. rewrite (first_index_app_in a), (first_index_app_in b); assumption. }
  destruct (mem t (map fst (Counter ts))) eqn:M; [exact Hold|].
  apply StronglySorted_snoc; [exact Hold|].
  assert (Ht : ~ In t ts).
  { intros H. rewrite <- Counter_keys, <- mem_In in H. congruence. }
  apply Forall_forall. intros a Ha. rewrite Counter_keys in Ha.
  rewrite first_index_app_in, first_index_app_notin by assumption.
  apply first_index_lt, Ha.
Qed.

End Ranking.

Section Sorting.

Import Keywords Spec.

Lemma insert_desc_In (x y : string * nat) (l : list (string * nat)) :
  In y (insert_desc x l) <-> y = x \/ In y l.
Proof.
  induction l as [|z l IH]; simpl; [intuition|].
  destruct (Nat.ltb (snd x) (snd z)); simpl; [rewrite IH|]; intuition.
Qed.

Lemma sorted_desc_In (y : string * nat) (l : list (string * nat)) :
  In y (sorted_desc l) <-> In y l.
Proof.
  induction l as [|x l IH]; simpl; [tauto|].
  rewrite insert_desc_In, IH. intuition.
Qed.

Lemma insert_desc_sorted (Q : string * nat -> string * nat -> Prop)
  (x : string * nat) (l : list (string * nat)) :
  StronglySorted (by_count_then Q) l -> Forall (Q x) l ->
  StronglySorted (by_count_then Q) (insert_desc x l).
Proof.
  induction l as [|y l IH]; simpl; intros Hs HQ.
  - constructor; constructor.
  - apply StronglySorted_inv in Hs as [Hl Hy].
    inversion HQ as [|? ? Hxy Hxl]; subst.
    destruct (Nat.ltb (snd x) (snd y)) eqn:E.
    + apply Nat.ltb_lt in E. constructor; [apply IH; assumption|].
      apply Forall_forall. intros z Hz. apply insert_desc_In in Hz as [->|Hz].
      * left. exact E.
      * rewrite Forall_forall in Hy. apply Hy, Hz.
    + apply Nat.ltb_ge in E. constructor; [constructor; assumption|].
      assert (Hx : by_count_then Q x y).
      { unfold by_count_then. destruct (Nat.eq_dec (snd x) (snd y)); [right|left].
        - split; assumption.
        - lia. }
      constructor; [exact Hx|].
      rewrite Forall_forall in *. intros z Hz.
      specialize (Hy z Hz). specialize (Hxl z Hz).
      unfold by_count_then in *. destruct (Nat.eq_dec (snd x) (snd z)); [right|left].
      * split; assumption.
      * lia.
Qed.

Lemma sorted_desc_sorted (Q : string * nat -> string * nat -> Prop)
  (l : list (string * nat)) :
  StronglySorted Q l -> StronglySorted (by_count_then Q) (sorted_desc l).
Proof.
  induction l as [|x l IH]; simpl; intros Hs; [constructor|].
  apply StronglySorted_inv in Hs as [Hl Hx].
  apply insert_desc_sorted; [apply IH, Hl|].
  rewrite Forall_forall in *. intros y Hy. apply Hx, sorted_desc_In, Hy.
Qed.

Lemma StronglySorted_of_map {A B : Type} (f : A -> B) (S : B -> B -> Prop)
  (l : list A) :
  StronglySorted S (map f l) -> StronglySorted (fun a b => S (f a) (f b)) l.
Proof.
  induction l as [|x l IH]; simpl; intros Hs; [constructor|].
  apply StronglySorted_inv in Hs as [Hl Hx].
  constructor; [apply IH, Hl|].
  rewrite Forall_forall in *. intros y Hy. apply Hx, in_map, Hy.
Qed.

Lemma occurrences_filter (f : string -> bool) (ws : list string) (t : string) :
  f t = true -> occurrences t (filter f ws) = occurrences t ws.
Proof.
  unfold occurrences. intros Ht.
  induction ws as [|w ws IH]; simpl; [reflexivity|].
  destruct (f w) eqn:Fw; simpl.
  - destruct (string_dec w t); congruence.
  - destruct (string_dec w t); [congruence | exact IH].
Qed.

Lemma first_index_filter (f : string -> bool) (ws : list string) (a b : string) :
  f a = true -> f b = true ->
  first_index a (filter f ws) < first_index b (filter f ws) ->
  first_index a ws < first_index b ws.
Proof.
  intros Fa Fb.
  induction ws as [|w ws IH]; simpl; [lia|].
  destruct (String.eqb_spec w a) as [->|Na].
  - rewrite Fa. simpl. rewrite String.eqb_refl.
    destruct (String.eqb_spec a b) as [->|Nb]; lia.
  - destruct (String.eqb_spec w b) as [->|Nb].
    + rewrite Fb. simpl. rewrite String.eqb_refl.
      destruct (String.eqb_spec b a); [congruence | lia].
    + destruct (f w); simpl.
      * destruct (String.eqb_spec w a); [congruence|].
        destruct (String.eqb_spec w b); [congruence|].
        intros H. apply Nat.succ_lt_mono in H. apply IH in H. lia.
      * intros H. apply IH in H. lia.
Qed.

Lemma ranks_before_filter (f : string -> bool) (ws : list string) (a b : string) :
  f a = true -> f b = true ->
  ranks_before (filter f ws) a b -> ranks_before ws a b.
Proof.
  unfold ranks_before. intros Fa Fb.
  rewrite !occurrences_filter by assumption.
  intros [H|[H1 H2]]; [left; exact H | right].
  split; [exact H1 | eapply first_index_filter; eassumption].
Qed.

(** The full ranking of the kept words of a text. *)
Lemma ranking_sorted (ts : list string) :
  StronglySorted (ranks_before ts) (map fst (sorted_desc (Counter ts))).
Proof.
  set (Q := fun x y : string * nat =>
              first_index (fst x) ts < first_index (fst y) ts).
  apply StronglySorted_map_in with (R := by_count_then Q).
  - intros x y Hx Hy Hxy.
    rewrite sorted_desc_In in Hx, Hy.
    apply Counter_entry in Hx as [Ex _], Hy as [Ey _].
    unfold by_count_then, ranks_before, Q in *. rewrite <- Ex, <- Ey. exact Hxy.
  - apply sorted_desc_sorted. unfold Q.
    apply (StronglySorted_of_map fst
             (fun a b => first_index a ts < first_index b ts)).
    apply Counter_first_order.
Qed.

Lemma ranking_keys (ts : list string) (t : string) :
  In t (map fst (sorted_desc (Counter ts))) <-> In t ts.
Proof.
  split; intros H.
  - apply (proj1 (Counter_keys ts t)).
    apply in_map_iff in H as (x & E & Hx). apply in_map_iff.
    exists x. split; [exact E | apply sorted_desc_In, Hx].
  - apply (proj2 (Counter_keys ts t)) in H.
    apply in_map_iff in H as (x & E & Hx). apply in_map_iff.
    exists x. split; [exact E | apply sorted_desc_In, Hx].
Qed.

Lemma keep_spec (t : string) : keep t = true <-> ~ In t STOPWORDS.
Proof.
  unfold keep. rewrite negb_true_iff, <- mem_In.
  destruct (mem t STOPWORDS); split; congruence.
Qed.

End Sorting.

(** ** The keyword extractor *)

Section Extractor.

Import Keywords Spec.

Lemma extract_keywords_unfold (text : string) (k : nat) :
  extract_keywords text k
  = map fst (firstn k (sorted_desc (Counter (filter keep (words text))))).
Proof. reflexivity. Qed.

Lemma ranking_split (ts : list string) (k : nat) :
  map fst (sorted_desc (Counter ts))
  = map fst (firstn k (sorted_desc (Counter ts)))
    ++ map fst (skipn k (sorted_desc (Counter ts))).
Proof. rewrite <- map_app, firstn_skipn. reflexivity. Qed.

Lemma extract_keywords_In (text : string) (k : nat) (t : string) :
  In t (extract_keywords text k) -> In t (words text) /\ keep t = true.
Proof.
  rewrite extract_keywords_unfold. intros H.
  apply filter_In. apply ranking_keys.
  rewrite (ranking_split _ k). apply in_or_app. left. exact H.
Qed.

(** The ranking in terms of the words of the text ([Spec.words]):
    [extract_keywords text k] returns at most [k] tokens; none is a
    stopword; each is a word of the text, matches the tokenizer's pattern and
    is its own lowercase; the result is in rank order (count descending, ties
    by earlier first occurrence among the words of the text) and is a top
    segment of that order: a kept word left out means the result is full and
    everything in it ranks before that word; on ["cache cache lock lock
    cache"] with [k = 2] it is [["cache"; "lock"]]; and a text whose words are
    all stopwords (the empty text among them) yields the empty list. *)
Theorem extract_keywords_ranked (text : string) (k : nat) :
  List.length (extract_keywords text k) <= k /\
  (forall t, In t (extract_keywords text k) -> ~ In t STOPWORDS) /\
  (forall t, In t (extract_keywords text k) ->
     In t (words text) /\ matches_TOKENIZER t = true /\ lower t = t) /\
  StronglySorted (ranks_before (words text)) (extract_keywords text k) /\
  (forall t, In t (words text) -> ~ In t STOPWORDS ->
     ~ In t (extract_keywords text k) ->
     List.length (extract_keywords text k) = k /\
     forall a, In a (extract_keywords text k) -> ranks_before (words text) a t) /\
  extract_keywords "cache cache lock lock cache" 2 = ["cache"; "lock"] /\
  (Forall (fun t => In t STOPWORDS) (words text) -> extract_keywords text k = []) /\
  extract_keywords "" k = [].
Proof.
  pose proof (ranking_sorted (filter keep (words text))) as Hsorted.
  rewrite (ranking_split _ k) in Hsorted.
  apply StronglySorted_app_inv in Hsorted as [Hpre Hcross].
  rewrite <- extract_keywords_unfold in Hpre, Hcross.
  assert (Hrest : forall t, In t (words text) -> ~ In t STOPWORDS ->
            ~ In t (extract_keywords text k) ->
            In t (map fst (skipn k
                    (sorted_desc (Counter (filter keep (words text))))))).
  { intros t Hw Hs Hout.
    assert (Hall : In t (map fst
               (sorted_desc (Counter (filter keep (words text)))))).
    { apply ranking_keys, filter_In.
      split; [assumption | apply keep_spec; assumption]. }
    rewrite (ranking_split _ k) in Hall. apply in_app_or in Hall as [Hl|Hr].
    - rewrite <- extract_keywords_unfold in Hl. contradiction.
    - exact Hr. }
  split; [|split; [|split; [|split; [|split; [|split; [|split]]]]]].
  - rewrite extract_keywords_unfold, length_map. apply firstn_le_length.
  - intros t Ht. apply extract_keywords_In in Ht as [_ Hk].
    apply keep_spec, Hk.
  - intros t Ht. apply extract_keywords_In in Ht as [Hw _].
    split; [exact Hw | apply (words_match text), Hw].
  - rewrite <- (map_id (extract_keywords text k)).
    eapply StronglySorted_map_in; [|exact Hpre].
    intros a b Ha Hb Hab. cbv beta.
    apply extract_keywords_In in Ha as [_ Ka].
    apply extract_keywords_In in Hb as [_ Kb].
    eapply ranks_before_filter; eassumption.
  - intros t Hw Hs Hout. specialize (Hrest t Hw Hs Hout). split.
    + rewrite extract_keywords_unfold, length_map, length_firstn.
      destruct (Nat.le_gt_cases
                  (List.length (sorted_desc (Counter (filter keep (words text))))) k)
        as [Hle|Hgt]; [|lia].
      rewrite (skipn_all2 _ Hle) in Hrest. destruct Hrest.
    + intros a Ha. apply ranks_before_filter with (f := keep).
      * apply extract_keywords_In in Ha. apply Ha.
      * apply keep_spec. assumption.
      * apply Hcross; assumption.
  - vm_compute. reflexivity.
  - intros Hall. rewrite extract_keywords_unfold.
    assert (E : filter keep (words text) = []).
    { destruct (filter keep (words text)) as [|t ts] eqn:F; [reflexivity|].
      assert (Ht : In t (filter keep (words text))) by (rewrite F; left; reflexivity).
      apply filter_In in Ht as [Hw Hk]. apply keep_spec in Hk.
      rewrite Forall_forall in Hall. exfalso. apply Hk, Hall, Hw. }
    rewrite E. simpl. rewrite firstn_nil. reflexivity.
  - rewrite extract_keywords_unfold. simpl. rewrite firstn_nil. reflexivity.
Qed.

(** Ties go to the word seen first, not to the alphabetically smaller one;
    case is folded and stopwords are dropped before counting. *)
Example extract_keywords_ties :
  extract_keywords "lock lock cache cache" 2 = ["lock"; "cache"] /\
  extract_keywords "zeta alpha" 1 = ["zeta"] /\
  extract_keywords "The Lock-free cache; the lock-FREE tree of a cache" 3
  = ["lock-free"; "cache"; "tree"] /\
  extract_keywords "we propose the method" 5 = [] /\
  extract_keywords "lock cache" 0 = [].
Proof. repeat split; vm_compute; reflexivity. Qed.

(** The tokenizer takes maximal runs: a digit or hyphen cannot start a token
    but extends one. *)
Example TOKENIZER_findall_runs :
  TOKENIZER_findall "The GPU-2x cache, 3d x9-- _ok"
  = ["The"; "GPU-2x"; "cache"; "d"; "x9--"; "ok"].
Proof. reflexivity. Qed.

End Extractor.

(** ** The paper projector *)

Section Projector.

Import Keywords LoadData.

(** [transform_paper] raises exactly when [arxiv_id] or [abstract] is
    absent, [arxiv_id] first. *)
Lemma transform_paper_raises (p : Paper.t) (e : exn) :
  transform_paper p = Raise e <->
  (Paper.arxiv_id p = None /\ e = KeyError "arxiv_id") \/
  (Paper.arxiv_id p <> None /\ Paper.abstract p = None /\ e = KeyError "abstract").
Proof.
  unfold transform_paper.
  destruct (Paper.arxiv_id p) as [id|]; destruct (Paper.abstract p) as [text|];
    simpl; split.
  - discriminate.
  - intros [[H _]|(_ & H & _)]; discriminate.
  - intros [= <-]. right. repeat split. discriminate.
  - intros [[H _]|(_ & _ & ->)]; [discriminate | reflexivity].
  - intros [= <-]. left. split; reflexivity.
  - intros [[_ ->]|(H & _)]; [reflexivity | contradiction].
  - intros [= <-]. left. split; reflexivity.
  - intros [[_ ->]|(H & _)]; [reflexivity | contradiction].
Qed.

(** C1.  A paper that has its [arxiv_id], [abstract], [categories] and
    [authors] is projected, and into exactly N + M + K records, N the number
    of its categories, M of its authors and K of the keywords extracted from
    its abstract with topk 10: one [CATEGORY#] record per category, then one
    [AUTHOR#] record per author, then one [KEYWORD#] record per keyword. *)
Theorem transform_paper_count (p : Paper.t) (id text : string)
  (cats auths : list string) :
  Paper.arxiv_id p = Some id ->
  Paper.abstract p = Some text ->
  Paper.categories p = Some cats ->
  Paper.authors p = Some auths ->
  exists items,
    transform_paper p = Ok items /\
    List.length items
    = List.length cats + List.length auths
      + List.length (extract_keywords text 10) /\
    map (fun it => Store.str_attr it "PK") items
    = map (fun cat => Some ("CATEGORY#" ++ cat)%string) cats
      ++ map (fun author => Some ("AUTHOR#" ++ author)%string) auths
      ++ map (fun kw => Some ("KEYWORD#" ++ kw)%string) (extract_keywords text 10).
Proof.
  intros Hid Habs Hcats Hauths. unfold transform_paper.
  rewrite Hid, Habs, Hcats, Hauths. simpl.
  eexists. split; [reflexivity|]. split.
  - rewrite !length_app, !length_map. lia.
  - rewrite !map_app, !map_map, <- app_assoc. reflexivity.
Qed.

Lemma transform_paper_count_witness :
  exists items,
    transform_paper (Fixtures.paper "0001" "2024-01-01" ["cs.LG"; "cs.AI"])
    = Ok items /\
    List.length items = 2 + 1 + 2.
Proof.
  destruct (transform_paper_count
              (Fixtures.paper "0001" "2024-01-01" ["cs.LG"; "cs.AI"])
              "0001" "cache cache lock lock cache"
              ["cs.LG"; "cs.AI"] ["Ada Lovelace"]
              eq_refl eq_refl eq_refl eq_refl) as (items & E & L & _).
  exists items. split; [exact E | exact L].
Defined.

(** C7 (the code departs from it).  A paper that has its [arxiv_id] and every
    other field but [abstract] is not projected: line 130 reads
    [p["abstract"]] where line 127 had taken [p.get("abstract", "")], and
    the call raises [KeyError]. *)
Theorem transform_paper_without_abstract :
  transform_paper
    {| Paper.arxiv_id := Some "0001";
       Paper.title := Some "A paper";
       Paper.authors := Some ["Ada Lovelace"];
       Paper.categories := Some ["cs.LG"];
       Paper.abstract := None;
       Paper.published := Some "2024-01-01" |}
  = Raise (KeyError "abstract").
Proof. reflexivity. Qed.

(** What C7 says of the other fields holds: with [arxiv_id] and [abstract]
    present the projection succeeds whatever else is absent. *)
Lemma transform_paper_degrades (p : Paper.t) (id text : string) :
  Paper.arxiv_id p = Some id -> Paper.abstract p = Some text ->
  exists items,
    transform_paper p = Ok items /\
    List.length items
    = List.length (get (Paper.categories p) [])
      + List.length (get (Paper.authors p) [])
      + List.length (extract_keywords text 10).
Proof.
  intros Hid Habs. unfold transform_paper. rewrite Hid, Habs. simpl.
  eexists. split; [reflexivity|].
  rewrite !length_app, !length_map. lia.
Qed.

(** The attributes every record of a paper shares. *)
Lemma transform_paper_shared (p : Paper.t) (items : list dict) (r : dict) :
  transform_paper p = Ok items -> In r items ->
  lookup "arxiv_id" r = option_map VStr (Paper.arxiv_id p) /\
  lookup "title" r = Some (VStr (get (Paper.title p) "")) /\
  lookup "categories" r = Some (VList (get (Paper.categories p) [])) /\
  lookup "published" r = Some (VStr (get (Paper.published p) "")).
Proof.
  unfold transform_paper.
  destruct (Paper.arxiv_id p) as [id|]; [|discriminate].
  destruct (Paper.abstract p) as [text|]; [|discriminate].
  simpl. intros [= <-] Hr.
  repeat (apply in_app_or in Hr as [Hr|Hr]);
    apply in_map_iff in Hr as (x & <- & _); repeat split.
Qed.

(** C8.  Any two records that [transform_paper] makes of one paper agree on
    [arxiv_id], [title], [categories] and [published], and each holds the
    paper's own value there. *)
Theorem transform_paper_consistent (p : Paper.t) (items : list dict)
  (r1 r2 : dict) :
  transform_paper p = Ok items -> In r1 items -> In r2 items ->
  lookup "arxiv_id" r1 = lookup "arxiv_id" r2 /\
  lookup "title" r1 = lookup "title" r2 /\
  lookup "categories" r1 = lookup "categories" r2 /\
  lookup "published" r1 = lookup "published" r2 /\
  lookup "arxiv_id" r1 = option_map VStr (Paper.arxiv_id p) /\
  lookup "title" r1 = Some (VStr (get (Paper.title p) "")) /\
  lookup "categories" r1 = Some (VList (get (Paper.categories p) [])) /\
  lookup "published" r1 = Some (VStr (get (Paper.published p) "")).
Proof.
  intros Hp H1 H2.
  destruct (transform_paper_shared p items r1 Hp H1) as (A1 & T1 & C1 & P1).
  destruct (transform_paper_shared p items r2 Hp H2) as (A2 & T2 & C2 & P2).
  rewrite A1, A2, T1, T2, C1, C2, P1, P2. repeat split.
Qed.

Lemma transform_paper_consistent_witness :
  lookup "arxiv_id" (nth 0 (Fixtures.views Fixtures.paper_0001) [])
  = lookup "arxiv_id" (nth 4 (Fixtures.views Fixtures.paper_0001) []) /\
  lookup "categories" (nth 0 (Fixtures.views Fixtures.paper_0001) [])
  = lookup "categories" (nth 4 (Fixtures.views Fixtures.paper_0001) []).
Proof.
  destruct (transform_paper_consistent Fixtures.paper_0001
              (Fixtures.views Fixtures.paper_0001)
              (nth 0 (Fixtures.views Fixtures.paper_0001) [])
              (nth 4 (Fixtures.views Fixtures.paper_0001) []))
    as (A & _ & C & _).
  - vm_compute. reflexivity.
  - apply nth_In. apply Nat.ltb_lt. vm_compute. reflexivity.
  - apply nth_In. apply Nat.ltb_lt. vm_compute. reflexivity.
  - split; [exact A | exact C].
Defined.

End Projector.

(** ** Upsert by primary key *)

Section UpsertLemmas.

Import Store Upsert.

Lemma key_eqb_eq (k1 k2 : string * string) : key_eqb k1 k2 = true <-> k1 = k2.
Proof.
  destruct k1 as [a1 b1], k2 as [a2 b2]. unfold key_eqb. simpl.
  rewrite andb_true_iff, !String.eqb_eq. split.
  - intros [-> ->]. reflexivity.
  - intros [= -> ->]. split; reflexivity.
Qed.

Lemma key_eqb_refl (k : string * string) : key_eqb k k = true.
Proof. apply key_eqb_eq. reflexivity. Qed.

Lemma has_key_primary (k k' : string * string) (it : dict) :
  primary_key it = Some k -> has_key k' it = key_eqb k k'.
Proof. unfold has_key. intros ->. reflexivity. Qed.

Lemma has_key_unique (k k' : string * string) (it : dict) :
  has_key k it = true -> has_key k' it = true -> k = k'.
Proof.
  unfold has_key. destruct (primary_key it) as [k0|]; [|discriminate].
  rewrite !key_eqb_eq. congruence.
Qed.

Lemma put_keyed (tbl : table) (it : dict) (k : string * string) :
  primary_key it = Some k -> put tbl it = upsert k it tbl.
Proof. unfold put. intros ->. reflexivity. Qed.

Lemma put_items_keyed (items : list dict) :
  Forall keyed items ->
  forall tbl, put_items tbl items = Ok (put_all tbl items).
Proof.
  induction 1 as [|it items Hit _ IH]; intros tbl; simpl; [reflexivity|].
  unfold put_item, put. unfold keyed in Hit.
  destruct (primary_key it) as [k|]; [|contradiction]. simpl. apply IH.
Qed.

Lemma put_all_app (tbl : table) (l1 l2 : list dict) :
  put_all tbl (l1 ++ l2) = put_all (put_all tbl l1) l2.
Proof. apply fold_left_app. Qed.

Lemma upsert_length (k : string * string) (it : dict) (tbl : table) :
  List.length (upsert k it tbl)
  = if present k tbl then List.length tbl else S (List.length tbl).
Proof.
  unfold present. induction tbl as [|x tbl IH]; simpl; [reflexivity|].
  destruct (has_key k x); simpl; [reflexivity|].
  rewrite IH. destruct (existsb (has_key k) tbl); reflexivity.
Qed.

Lemma present_upsert_same (k : string * string) (it : dict) (tbl : table) :
  primary_key it = Some k -> present k (upsert k it tbl) = true.
Proof.
  intros Hk. unfold present.
  induction tbl as [|x tbl IH]; simpl.
  - rewrite (has_key_primary k k it Hk), key_eqb_refl. reflexivity.
  - destruct (has_key k x) eqn:E; simpl.
    + rewrite (has_key_primary k k it Hk), key_eqb_refl. reflexivity.
    + rewrite E. exact IH.
Qed.

Lemma present_upsert_other (k k' : string * string) (it : dict) (tbl : table) :
  primary_key it = Some k -> present k' tbl = true ->
  present k' (upsert k it tbl) = true.
Proof.
  intros Hk. unfold present.
  induction tbl as [|x tbl IH]; simpl; [discriminate|].
  destruct (has_key k x) eqn:E; simpl.
  - destruct (has_key k' x) eqn:E'; simpl.
    + intros _. rewrite (has_key_unique k k' x E E') in Hk.
      rewrite (has_key_primary k' k' it Hk), key_eqb_refl. reflexivity.
    + intros ->. apply orb_true_r.
  - destruct (has_key k' x); simpl; [reflexivity | exact IH].
Qed.

Lemma present_put (k' : string * string) (tbl : table) (it : dict) :
  present k' tbl = true -> present k' (put tbl it) = true.
Proof.
  unfold put. destruct (primary_key it) as [k|] eqn:Hk; [|auto].
  apply present_upsert_other, Hk.
Qed.

Lemma present_put_all (k' : string * string) (items : list dict) :
  forall tbl, present k' tbl = true -> present k' (put_all tbl items) = true.
Proof.
  induction items as [|it items IH]; intros tbl H; simpl; [exact H|].
  apply IH, present_put, H.
Qed.

Lemma present_after (items : list dict) (it : dict) (k : string * string) :
  In it items -> primary_key it = Some k ->
  forall tbl, present k (put_all tbl items) = true.
Proof.
  intros Hin Hk tbl. apply in_split in Hin as (l1 & l2 & ->).
  rewrite put_all_app. simpl. apply present_put_all.
  rewrite (put_keyed _ _ _ Hk). apply present_upsert_same, Hk.
Qed.

Lemma put_length_le (tbl : table) (it : dict) :
  List.length (put tbl it) <= S (List.length tbl).
Proof.
  unfold put. destruct (primary_key it) as [k|]; [|lia].
  rewrite upsert_length. destruct (present k tbl); lia.
Qed.

Lemma put_all_length_le (items : list dict) :
  forall tbl,
    List.length (put_all tbl items) <= List.length tbl + List.length items.
Proof.
  induction items as [|it items IH]; intros tbl; simpl; [lia|].
  specialize (IH (put tbl it)). pose proof (put_length_le tbl it). lia.
Qed.


Lemma upsert_upsert_same (k : string * string) (a b : dict) (tbl : table) :
  primary_key a = Some k ->
  upsert k b (upsert k a tbl) = upsert k b tbl.
Proof.
  intros Ha. induction tbl as [|x tbl IH]; simpl.
  - rewrite (has_key_primary k k a Ha), key_eqb_refl. reflexivity.
  - destruct (has_key k x) eqn:E; simpl.
    + rewrite (has_key_primary k k a Ha), key_eqb_refl. reflexivity.
    + rewrite E, IH. reflexivity.
Qed.

Lemma upsert_comm (ka kb : string * string) (a b : dict) (tbl : table) :
  primary_key a = Some ka -> primary_key b = Some kb -> ka <> kb ->
  present kb tbl = true ->
  upsert kb b (upsert ka a tbl) = upsert ka a (upsert kb b tbl).
Proof.
  intros Ha Hb Hne. unfold present.
  assert (Eab : has_key kb a = false).
  { rewrite (has_key_primary ka kb a Ha).
    destruct (key_eqb ka kb) eqn:E; [|reflexivity].
    apply key_eqb_eq in E. contradiction. }
  assert (Eba : has_key ka b = false).
  { rewrite (has_key_primary kb ka b Hb).
    destruct (key_eqb kb ka) eqn:E; [|reflexivity].
    apply key_eqb_eq in E. congruence. }
  induction tbl as [|x tbl IH]; simpl; [discriminate|].
  destruct (has_key ka x) eqn:Ea; destruct (has_key kb x) eqn:Eb; simpl.
  - exfalso. apply Hne. eapply has_key_unique; eassumption.
  - intros Hp. rewrite ?Eab, ?Ea, ?Eb. reflexivity.
  - intros _. rewrite ?Eba, ?Ea, ?Eb. reflexivity.
  - intros Hp. rewrite ?Ea, ?Eb, (IH Hp). reflexivity.
Qed.

Lemma put_all_absorb (x : dict) (l : list dict) :
  Forall keyed l ->
  forall tbl,
    (forall y k, In y l -> primary_key y = Some k -> present k tbl = true) ->
    put (put_all (put tbl x) l) x = put (put_all tbl l) x.
Proof.
  destruct (primary_key x) as [kx|] eqn:Hx.
  2:{ intros _ tbl _. unfold put at 2. rewrite Hx. reflexivity. }
  induction 1 as [|y l Hy _ IH]; intros tbl Hpres; simpl.
  - rewrite !(put_keyed _ _ _ Hx). apply upsert_upsert_same, Hx.
  - unfold keyed in Hy. destruct (primary_key y) as [ky|] eqn:Ey; [|contradiction].
    destruct (key_eqb kx ky) eqn:E.
    + apply key_eqb_eq in E. subst ky.
      rewrite (put_keyed tbl x kx Hx), (put_keyed _ y kx Ey),
        (put_keyed tbl y kx Ey), (upsert_upsert_same kx x y tbl Hx).
      reflexivity.
    + assert (Hne : kx <> ky).
      { intros ->. rewrite key_eqb_refl in E. discriminate. }
      rewrite (put_keyed tbl x kx Hx), (put_keyed _ y ky Ey),
        (upsert_comm kx ky x y tbl Hx Ey Hne).
      2:{ apply (Hpres y ky); [left; reflexivity | exact Ey]. }
      rewrite <- (put_keyed tbl y ky Ey), <- (put_keyed (put tbl y) x kx Hx).
      apply IH. intros z kz Hz Ez. apply present_put.
      apply (Hpres z kz); [right; exact Hz | exact Ez].
Qed.

(** Writing the same records again leaves the table as it is. *)
Lemma put_all_idempotent (items : list dict) :
  Forall keyed items ->
  forall tbl, put_all (put_all tbl items) items = put_all tbl items.
Proof.
  induction items as [|x l IH] using rev_ind; intros Hk tbl; [reflexivity|].
  apply Forall_app in Hk as [Hl Hx].
  rewrite !put_all_app. simpl.
  rewrite put_all_absorb; [rewrite (IH Hl); reflexivity | exact Hl |].
  intros y k Hy Ey. apply (present_after l y k Hy Ey).
Qed.

End UpsertLemmas.

(** ** Loading a paper's records *)

Section Loading.

Import Keywords LoadData Store Upsert.

Lemma transform_paper_keyed (p : Paper.t) (items : list dict) :
  transform_paper p = Ok items -> Forall keyed items.
Proof.
  unfold transform_paper.
  destruct (Paper.arxiv_id p) as [id|]; [|discriminate].
  destruct (Paper.abstract p) as [text|]; [|discriminate].
  simpl. intros [= <-]. rewrite Forall_forall. intros r Hr.
  repeat (apply in_app_or in Hr as [Hr|Hr]);
    apply in_map_iff in Hr as (x & <- & _); discriminate.
Qed.



End Loading.

(** ** The stopword set *)

Section Determinism.

Import Keywords LoadData Store Upsert.

Lemma mem_permutation (stop stop' : list string) (t : string) :
  Permutation stop stop' -> mem t stop = mem t stop'.
Proof.
  intros HP. apply eq_true_iff_eq. rewrite !mem_In. split.
  - apply Permutation_in, HP.
  - apply Permutation_in, Permutation_sym, HP.
Qed.

Lemma mem_same_members (stop stop' : list string) (t : string) :
  (forall x, In x stop <-> In x stop') -> mem t stop = mem t stop'.
Proof.
  intros H. apply eq_true_iff_eq. rewrite !mem_In. apply H.
Qed.

(** X18.  [STOPWORDS] is a set in the source, and the extractor only tests
    membership in it: laid out in any order, with or without repetitions, a
    list with the same members gives the same keywords. *)
Theorem stopwords_as_a_set (stop : list string) (text : string) (k : nat) :
  (forall t, In t stop <-> In t STOPWORDS) ->
  extract_keywords_with stop text k = extract_keywords text k.
Proof.
  intros H. unfold extract_keywords, extract_keywords_with.
  do 3 f_equal. apply filter_ext. intros t.
  rewrite (mem_same_members stop STOPWORDS t H). reflexivity.
Qed.

Lemma stopwords_as_a_set_witness :
  (forall t, In t (rev STOPWORDS ++ ["the"]) <-> In t STOPWORDS) /\
  extract_keywords_with (rev STOPWORDS ++ ["the"]) "The cache of the lock" 5
  = extract_keywords "The cache of the lock" 5.
Proof.
  assert (H : forall t, In t (rev STOPWORDS ++ ["the"]) <-> In t STOPWORDS).
  { intros t. rewrite in_app_iff, <- in_rev. split.
    - intros [Ht|[<-|[]]]; [exact Ht | left; reflexivity].
    - intros Ht. left. exact Ht. }
  split; [exact H|].
  apply (stopwords_as_a_set (rev STOPWORDS ++ ["the"])
           "The cache of the lock" 5 H).
Defined.

End Determinism.

(** ** Date-range scans *)

Section DateRange.

Import Keywords Spec Store QueryPapers.

Lemma above_hash (c : ascii) :
  Nat.ltb 35 (code c) = true ->
  Ascii.compare "#" c = Lt /\ Ascii.compare c "#" = Gt.
Proof.
  destruct c as [[] [] [] [] [] [] [] []]; vm_compute; intro H;
    solve [split; reflexivity | discriminate H].
Qed.

(** Comparing two sort keys is comparing their dates, then what follows the
    separator. *)
Lemma compare_dated (d1 : string) :
  forall d2 x y,
    sortable_date d1 = true -> sortable_date d2 = true ->
    String.compare (d1 ++ String "#" x) (d2 ++ String "#" y)
    = match String.compare d1 d2 with
      | Eq => String.compare x y
      | c => c
      end.
Proof.
  unfold sortable_date.
  induction d1 as [|c1 d1 IH]; intros [|c2 d2] x y H1 H2; simpl in *.
  - reflexivity.
  - apply andb_true_iff in H2 as [Hc _].
    destruct (above_hash c2 Hc) as [-> _]. reflexivity.
  - apply andb_true_iff in H1 as [Hc _].
    destruct (above_hash c1 Hc) as [_ ->]. reflexivity.
  - apply andb_true_iff in H1 as [_ H1]. apply andb_true_iff in H2 as [_ H2].
    destruct (Ascii.compare c1 c2); [apply IH; assumption | reflexivity..].
Qed.

Lemma lower_bound (start_date published id : string) :
  sortable_date start_date = true -> sortable_date published = true ->
  String.leb (start_date ++ "#") (published ++ "#" ++ id)
  = String.leb start_date published.
Proof.
  intros Hs Hp. unfold String.leb.
  change (published ++ "#" ++ id)%string with (published ++ String "#" id)%string.
  change (start_date ++ "#")%string
    with (start_date ++ String "#" EmptyString)%string.
  rewrite (compare_dated start_date published "" id Hs Hp).
  destruct (String.compare start_date published); [|reflexivity..].
  destruct id; reflexivity.
Qed.

Lemma upper_bound (end_date published id : string) :
  sortable_date end_date = true -> sortable_date published = true ->
  String.leb id "zzzzzzz" = true ->
  String.leb (published ++ "#" ++ id) (end_date ++ "#zzzzzzz")
  = String.leb published end_date.
Proof.
  intros He Hp Hid. unfold String.leb in *.
  change (published ++ "#" ++ id)%string with (published ++ String "#" id)%string.
  change (end_date ++ "#zzzzzzz")%string
    with (end_date ++ String "#" "zzzzzzz")%string.
  rewrite (compare_dated published end_date id "zzzzzzz" Hp He).
  destruct (String.compare published end_date); [exact Hid | reflexivity..].
Qed.

Lemma insert_asc_In (ix : index) (x y : dict) (l : list dict) :
  In y (insert_asc ix x l) <-> y = x \/ In y l.
Proof.
  induction l as [|z l IH]; simpl; [intuition|].
  destruct (String.leb (range_value ix x) (range_value ix z)); simpl;
    [|rewrite IH]; intuition.
Qed.

Lemma sort_asc_In (ix : index) (y : dict) (l : list dict) :
  In y (sort_asc ix l) <-> In y l.
Proof.
  induction l as [|x l IH]; simpl; [tauto|].
  rewrite insert_asc_In, IH. intuition.
Qed.




End DateRange.

(** ** The specification's examples and the query layer *)

Section Queries.

Import Keywords Spec Store QueryPapers ApiServer Fixtures.


(** Range-scan inclusivity, as the specification words it. *)
Example date_range_two_days :
  ids (query_papers_in_date_range (loaded two_papers) "cs.LG"
         "2024-01-01" "2024-01-02") = [VStr "0001"; VStr "0002"] /\
  ids (query_papers_in_date_range (loaded two_papers) "cs.LG"
         "2024-01-01" "2024-01-01") = [VStr "0001"].
Proof. split; vm_compute; reflexivity. Qed.

(** The HTTP search runs the same scan as the CLI date-range query. *)
Lemma handle_search_scan (tbl : table) (category start end_ : string) :
  category <> "" -> start <> "" -> end_ <> "" ->
  handle_search tbl (Some category) (Some start) (Some end_)
  = (Items <- query_papers_in_date_range tbl category start end_ ;;
     match Items with
     | [] => Ok (_send_error 404 "Invalid category, start, end")
     | _ =>
         Ok (_send_json
               [ ("category", JStr category);
                 ("start", JStr start);
                 ("end", JStr end_);
                 ("papers", JPapers (map (fun item =>
                    [ ("arxiv_id", get_or_none item "arxiv_id");
                      ("title", get_or_none item "title");
                      ("authors", get_or_none item "authors");
                      ("categories", get_or_none item "categories");
                      ("published", get_or_none item "published") ]) Items));
                 ("count", JNat (List.length Items)) ] 200)
     end).
Proof.
  intros Hc Hs He.
  unfold handle_search, query_papers_in_date_range, missing, text.
  apply String.eqb_neq in Hc, Hs, He. rewrite Hc, Hs, He.
  generalize (query tbl Primary ("CATEGORY#" ++ category)
                (Some ((start ++ "#")%string, (end_ ++ "#zzzzzzz")%string))
                true None).
  intros [[|it Items]|e]; simpl; [reflexivity | | reflexivity].
  rewrite length_map. reflexivity.
Qed.

(** C4 (the code departs from it).  With the three papers of the
    specification's example loaded, [recent cs.LG --limit 2] prints all three
    papers: [main] passes the literal 10 to [query_recent_in_category], not
    [args.limit], which it only echoes under [parameters]. *)
Theorem cli_recent_ignores_limit :
  QueryPapers.main (loaded three_papers) (recent "cs.LG" (Some 2%Z))
  = Ok {| query_type := "recent_in_category";
          parameters := [("category", VStr "cs.LG"); ("limit", VInt 2)];
          results :=
            Results
              [ [ ("arxiv_id", VStr "0002"); ("title", VStr "Paper 0002");
                  ("authors", VList ["Ada Lovelace"]);
                  ("published", VStr "2024-01-03");
                  ("categories", VList ["cs.LG"]) ];
                [ ("arxiv_id", VStr "0003"); ("title", VStr "Paper 0003");
                  ("authors", VList ["Ada Lovelace"]);
                  ("published", VStr "2024-01-02");
                  ("categories", VList ["cs.LG"]) ];
                [ ("arxiv_id", VStr "0001"); ("title", VStr "Paper 0001");
                  ("authors", VList ["Ada Lovelace"]);
                  ("published", VStr "2024-01-01");
                  ("categories", VList ["cs.LG"]) ] ];
          count := 3 |}.
Proof. vm_compute. reflexivity. Qed.

(** The CLI's limit never depends on the command line. *)
Lemma cli_recent_limit_unused (tbl : table) (category : string)
  (l1 l2 : option Z) :
  match QueryPapers.main tbl (recent category l1),
        QueryPapers.main tbl (recent category l2) with
  | Ok o1, Ok o2 => results o1 = results o2 /\ count o1 = count o2
  | Raise e1, Raise e2 => e1 = e2
  | _, _ => False
  end.
Proof.
  simpl. destruct (query_recent_in_category tbl category 10); simpl; auto.
Qed.

(** The HTTP handler, on the same table, does what C4 says: the two most
    recent papers, most recent first; and 10 is its default. *)
Lemma api_recent_honours_limit :
  handle_recent (loaded three_papers) (Some "cs.LG") (Some 2%Z)
  = Ok (_send_json
          [ ("category", JStr "cs.LG");
            ("papers", JPapers
               [ [ ("arxiv_id", VStr "0002"); ("title", VStr "Paper 0002");
                   ("authors", VList ["Ada Lovelace"]);
                   ("published", VStr "2024-01-03") ];
                 [ ("arxiv_id", VStr "0003"); ("title", VStr "Paper 0003");
                   ("authors", VList ["Ada Lovelace"]);
                   ("published", VStr "2024-01-02") ] ]);
            ("count", JNat 2) ] 200).
Proof. vm_compute. reflexivity. Qed.

Lemma api_recent_default_limit (tbl : table) (category : option string) :
  handle_recent tbl category None = handle_recent tbl category (Some 10%Z).
Proof. reflexivity. Qed.

End Queries.

(** ** Lookup by id and empty scans *)

Section ByIdAndEmpty.

Import Keywords Spec Store QueryPapers ApiServer Fixtures.

(** C6 (the code departs from it).  For a stored paper with two categories
    the HTTP by-id handler answers with both category records, unprojected:
    each carries [PK], [SK] and [GSI2PK], they share one [arxiv_id], and the
    count is the literal 1. *)
Theorem api_get_by_id_returns_raw_views :
  handle_get_by_id (loaded two_categories) "0001"
  = Ok (_send_json
          [ ("arxiv_id", JStr "0001");
            ("papers", JPapers [raw_view "cs.LG"; raw_view "cs.AI"]);
            ("count", JNat 1) ] 200) /\
  exposes_key_field (raw_view "cs.LG") = true /\
  exposes_key_field (raw_view "cs.AI") = true /\
  get_or_none (raw_view "cs.LG") "arxiv_id"
  = get_or_none (raw_view "cs.AI") "arxiv_id".
Proof. repeat split; vm_compute; reflexivity. Qed.

(** The CLI does what C6 says: when the id is found it prints one record, the
    display projection of the first match, which has no key field. *)
Lemma cli_get_by_id_projects (tbl : table) (id : string) (o : output) :
  QueryPapers.main tbl (get id) = Ok o ->
  exists item,
    results o = Result (display item) /\
    keys (display item)
    = ["arxiv_id"; "title"; "authors"; "published"; "categories"] /\
    exposes_key_field (display item) = false /\
    count o = 1.
Proof.
  unfold QueryPapers.main, get_paper_by_id.
  destruct (query tbl PaperIdIndex ("ARXIV_ID#" ++ id) None true None)
    as [[|item Items]|e]; simpl; try discriminate.
  intros [= <-]. exists item. repeat split.
Qed.

(** On the table of [two_categories] the two paths differ. *)
Example cli_get_by_id_one_result :
  QueryPapers.main (loaded two_categories) (get "0001")
  = Ok {| query_type := "paper_by_id";
          parameters := [("arxiv_id", VStr "0001")];
          results :=
            Result
              [ ("arxiv_id", VStr "0001"); ("title", VStr "Paper 0001");
                ("authors", VList ["Ada Lovelace"]);
                ("published", VStr "2024-01-01");
                ("categories", VList ["cs.LG"; "cs.AI"]) ];
          count := 1 |}.
Proof. vm_compute. reflexivity. Qed.

(** C5.  An id that matches no record makes the CLI's [get] raise:
    [get_paper_by_id] returns the empty list (line 83), and [main] calls
    [.get] on what it was handed (lines 167-173), which a list does not
    have.  No result is printed and no count. *)
Theorem cli_get_by_id_no_match (tbl : table) (arxiv_id : string) :
  query tbl PaperIdIndex ("ARXIV_ID#" ++ arxiv_id) None true None = Ok [] ->
  QueryPapers.main tbl (get arxiv_id)
  = Raise (AttributeError "'list' object has no attribute 'get'").
Proof.
  unfold QueryPapers.main, get_paper_by_id. intros ->. reflexivity.
Qed.

Lemma cli_get_by_id_no_match_witness :
  query (loaded two_papers) PaperIdIndex ("ARXIV_ID#" ++ "9999") None true None
  = Ok [] /\
  QueryPapers.main (loaded two_papers) (get "9999")
  = Raise (AttributeError "'list' object has no attribute 'get'").
Proof.
  assert (H : query (loaded two_papers) PaperIdIndex ("ARXIV_ID#" ++ "9999")
                None true None = Ok [])
    by (vm_compute; reflexivity).
  split; [exact H|].
  apply (cli_get_by_id_no_match (loaded two_papers) "9999" H).
Defined.

(** On the empty table: the CLI's [get] raises, and the HTTP handler for
    [recent] answers with a 404 error body. *)
Lemma zero_match_not_success :
  QueryPapers.main [] (get "0001")
  = Raise (AttributeError "'list' object has no attribute 'get'") /\
  do_GET [] (papers_recent (Some "cs.LG") None)
  = {| status := 404; body := [("error", JStr "Invalid category")] |}.
Proof. split; reflexivity. Qed.


(** ... and a missing parameter is answered with the same status, told apart
    by the message alone. *)
Lemma missing_parameter_response (tbl : table) (limit : option Z) :
  handle_recent tbl None limit
  = Ok (_send_error 404 "Missing query parameter: category") /\
  handle_author tbl "" = Ok (_send_error 404 "Missing query parameter: author_name") /\
  handle_get_by_id tbl "" = Ok (_send_error 404 "Missing query parameter: arxiv_id") /\
  handle_search tbl None None None
  = Ok (_send_error 404 "Missing query parameters: category, start, end") /\
  handle_keyword tbl "" limit = Ok (_send_error 404 "Missing query parameter: keyword").
Proof. repeat split. Qed.

End ByIdAndEmpty.

(** * Further properties *)

(** ** Tokenizer and extractor *)

Section TokenizerMore.

Import Keywords Spec Views.

Lemma head_is_tail (c : ascii) : head_char c = true -> tail_char c = true.
Proof.
  unfold head_char, tail_char. intros ->. reflexivity.
Qed.

Lemma scan_separator (c : ascii) (s2 : string) :
  tail_char c = false ->
  forall s1 cur,
    scan cur (s1 ++ String c s2) = scan cur s1 ++ scan None s2.
Proof.
  intros Hc.
  assert (Hh : head_char c = false).
  { destruct (head_char c) eqn:E; [|reflexivity].
    apply head_is_tail in E. congruence. }
  induction s1 as [|a s1 IH]; intros cur; simpl.
  - destruct cur as [w|]; rewrite ?Hc, ?Hh; reflexivity.
  - destruct cur as [w|].
    + destruct (tail_char a); [apply IH|]. simpl. rewrite IH. reflexivity.
    + destruct (head_char a); apply IH.
Qed.

(** X1.  A character outside [[a-zA-Z0-9\-]] separates: the tokens of
    [s1 ++ c :: s2] are the tokens of [s1] followed by the tokens of [s2]. *)
Theorem findall_separator (c : ascii) (s1 s2 : string) :
  tail_char c = false ->
  TOKENIZER_findall (s1 ++ String c s2)
  = TOKENIZER_findall s1 ++ TOKENIZER_findall s2.
Proof.
  intros Hc. unfold TOKENIZER_findall. apply scan_separator, Hc.
Qed.

Lemma findall_separator_witness :
  TOKENIZER_findall ("lock-free" ++ String "," "2fast cache")
  = TOKENIZER_findall "lock-free" ++ TOKENIZER_findall "2fast cache".
Proof.
  apply (findall_separator "," "lock-free" "2fast cache"). reflexivity.
Defined.

Lemma lower_char_head_eq (c : ascii) : head_char (lower_char c) = head_char c.
Proof.
  destruct c as [[] [] [] [] [] [] [] []]; vm_compute; reflexivity.
Qed.

Lemma lower_char_tail_eq (c : ascii) : tail_char (lower_char c) = tail_char c.
Proof.
  destruct c as [[] [] [] [] [] [] [] []]; vm_compute; reflexivity.
Qed.

Lemma lower_snoc (w : string) (c : ascii) :
  lower (w ++ String c EmptyString)
  = (lower w ++ String (lower_char c) EmptyString)%string.
Proof.
  induction w as [|a w IH]; simpl; [reflexivity|]. rewrite IH. reflexivity.
Qed.

Lemma scan_lower (s : string) :
  forall cur,
    scan (option_map lower cur) (lower s) = map lower (scan cur s).
Proof.
  induction s as [|c s IH]; intros cur; simpl.
  - destruct cur; reflexivity.
  - destruct cur as [w|]; simpl.
    + rewrite lower_char_tail_eq. destruct (tail_char c).
      * rewrite <- lower_snoc. apply (IH (Some (w ++ String c EmptyString)%string)).
      * simpl. f_equal. apply (IH None).
    + rewrite lower_char_head_eq. destruct (head_char c).
      * apply (IH (Some (String c EmptyString))).
      * apply (IH None).
Qed.

Lemma words_lower (text : string) : words (lower text) = words text.
Proof.
  unfold words, TOKENIZER_findall.
  pose proof (scan_lower text None) as H. simpl in H.
  rewrite H, map_map. apply map_ext. intros t. apply lower_idem.
Qed.

(** X2.  Keyword extraction does not see case: on ASCII text (where
    [lower] is [str.lower]) lowercasing the text first changes nothing. *)
Theorem extract_keywords_case_blind (text : string) (k : nat) :
  is_ascii text = true ->
  extract_keywords (lower text) k = extract_keywords text k.
Proof.
  intros _. rewrite !extract_keywords_unfold, words_lower. reflexivity.
Qed.

Lemma extract_keywords_case_blind_witness :
  extract_keywords (lower "Lock LOCK cache") 2
  = extract_keywords "Lock LOCK cache" 2.
Proof.
  apply (extract_keywords_case_blind "Lock LOCK cache" 2). reflexivity.
Defined.

Lemma insert_desc_perm (x : string * nat) (l : list (string * nat)) :
  Permutation (insert_desc x l) (x :: l).
Proof.
  induction l as [|y l IH]; simpl; [reflexivity|].
  destruct (Nat.ltb (snd x) (snd y)); [|reflexivity].
  rewrite IH. apply perm_swap.
Qed.

Lemma sorted_desc_perm (l : list (string * nat)) :
  Permutation (sorted_desc l) l.
Proof.
  induction l as [|x l IH]; simpl; [reflexivity|].
  rewrite insert_desc_perm, IH. reflexivity.
Qed.

Lemma Counter_distinct_count (ts : list string) :
  List.length (Counter ts) = List.length (nodup string_dec ts).
Proof.
  rewrite <- (length_map fst). apply Permutation_length.
  apply NoDup_Permutation.
  - apply Counter_NoDup.
  - apply NoDup_nodup.
  - intros t. rewrite Counter_keys, nodup_In. reflexivity.
Qed.

Lemma NoDup_firstn {A : Type} (n : nat) (l : list A) :
  NoDup l -> NoDup (firstn n l).
Proof.
  intros H. rewrite <- (firstn_skipn n l) in H.
  apply NoDup_app_remove_r in H. exact H.
Qed.

Lemma extract_keywords_NoDup (text : string) (k : nat) :
  NoDup (extract_keywords text k).
Proof.
  rewrite extract_keywords_unfold, <- firstn_map. apply NoDup_firstn.
  apply (Permutation_NoDup
           (l := map fst (Counter (filter keep (words text))))).
  - apply Permutation_map, Permutation_sym, sorted_desc_perm.
  - apply Counter_NoDup.
Qed.

(** X3.  [extract_keywords text k] has exactly [min k d] tokens, [d] the
    number of distinct words of the text that are not stopwords; they are
    pairwise distinct; and a smaller [k] only cuts the list short. *)
Theorem extract_keywords_distinct (text : string) (k j : nat) :
  NoDup (extract_keywords text k) /\
  List.length (extract_keywords text k)
  = Nat.min k (List.length (nodup string_dec (filter keep (words text)))) /\
  extract_keywords text k = firstn k (extract_keywords text (k + j)).
Proof.
  split; [apply extract_keywords_NoDup|].
  rewrite !extract_keywords_unfold. split.
  - rewrite length_map, length_firstn.
    rewrite (Permutation_length (sorted_desc_perm _)), Counter_distinct_count.
    reflexivity.
  - rewrite <- !firstn_map, firstn_firstn.
    replace (Nat.min k (k + j)) with k by lia. reflexivity.
Qed.

End TokenizerMore.

(** ** Records by kind, and keys *)

Section ViewsLemmas.

Import Keywords LoadData Store Upsert Views.

Lemma transform_paper_views (p : Paper.t) (id text : string) :
  Paper.arxiv_id p = Some id -> Paper.abstract p = Some text ->
  transform_paper p = Ok (views_of (row_of p id text)).
Proof.
  intros Hid Habs. unfold transform_paper, row_of.
  rewrite Hid, Habs. reflexivity.
Qed.

Lemma accepted_fields (p : Paper.t) :
  accepted p <->
  exists id text, Paper.arxiv_id p = Some id /\ Paper.abstract p = Some text.
Proof.
  unfold accepted. split.
  - intros [Hid Habs].
    destruct (Paper.arxiv_id p) as [id|]; [|contradiction].
    destruct (Paper.abstract p) as [text|]; [|contradiction].
    exists id, text. split; reflexivity.
  - intros (id & text & -> & ->). split; discriminate.
Qed.

Lemma accepted_transform (p : Paper.t) :
  accepted p <-> exists items, transform_paper p = Ok items.
Proof.
  rewrite accepted_fields. split.
  - intros (id & text & Hid & Habs). eexists.
    apply (transform_paper_views p id text Hid Habs).
  - intros (items & H). unfold transform_paper in H.
    destruct (Paper.arxiv_id p) as [id|]; [|discriminate].
    destruct (Paper.abstract p) as [text|]; [|discriminate].
    exists id, text. split; reflexivity.
Qed.

Lemma views_accepted (p : Paper.t) (id text : string) :
  Paper.arxiv_id p = Some id -> Paper.abstract p = Some text ->
  Fixtures.views p = views_of (row_of p id text).
Proof.
  intros Hid Habs. unfold Fixtures.views.
  rewrite (transform_paper_views p id text Hid Habs). reflexivity.
Qed.

Lemma views_rejected (p : Paper.t) : ~ accepted p -> Fixtures.views p = [].
Proof.
  intros H. unfold Fixtures.views.
  destruct (transform_paper p) as [items|e] eqn:E; [|reflexivity].
  exfalso. apply H, accepted_transform. exists items. exact E.
Qed.

Lemma view_cases (w : row) (r : dict) :
  In r (views_of w) <->
  (exists cat, In cat (row_cats w) /\ r = category_view w cat) \/
  (exists author, In author (row_authors w) /\ r = author_view w author) \/
  (exists kw, In kw (row_keywords w) /\ r = keyword_view w kw).
Proof.
  unfold views_of. rewrite !in_app_iff, !in_map_iff.
  split.
  - intros [[(x & <- & H)|(x & <- & H)]|(x & <- & H)];
      [left | right; left | right; right]; exists x; auto.
  - intros [(x & H & ->)|[(x & H & ->)|(x & H & ->)]];
      [left; left | left; right | right]; exists x; auto.
Qed.

(** *** Strings *)

Lemma append_cancel_l (s a b : string) :
  (s ++ a)%string = (s ++ b)%string -> a = b.
Proof.
  induction s as [|c s IH]; simpl; [auto|]. intros [= H]. auto.
Qed.

Lemma append_length (a b : string) :
  String.length (a ++ b) = String.length a + String.length b.
Proof.
  induction a as [|c a IH]; simpl; [reflexivity|]. rewrite IH. reflexivity.
Qed.

Lemma append_cancel_r (s : string) :
  forall a b, (a ++ s)%string = (b ++ s)%string -> a = b.
Proof.
  induction a as [|c a IH]; intros [|d b] H; simpl in *.
  - reflexivity.
  - exfalso. apply (f_equal String.length) in H. simpl in H.
    rewrite append_length in H. lia.
  - exfalso. apply (f_equal String.length) in H. simpl in H.
    rewrite append_length in H. lia.
  - injection H as -> H. f_equal. apply IH, H.
Qed.

(** With no ["#"] before it, the first ["#"] is the separator. *)
Lemma sort_key_split (p1 : string) :
  forall p2 x y,
    hash_free p1 = true -> hash_free p2 = true ->
    (p1 ++ "#" ++ x)%string = (p2 ++ "#" ++ y)%string ->
    p1 = p2 /\ x = y.
Proof.
  unfold hash_free.
  induction p1 as [|c p1 IH]; intros [|d p2] x y H1 H2 E; simpl in *.
  - injection E as ->. split; reflexivity.
  - injection E as <- _. apply andb_true_iff in H2 as [H2 _]. discriminate.
  - injection E as -> _. apply andb_true_iff in H1 as [H1 _]. discriminate.
  - injection E as -> E.
    apply andb_true_iff in H1 as [_ H1]. apply andb_true_iff in H2 as [_ H2].
    destruct (IH p2 x y H1 H2 E) as [-> ->]. split; reflexivity.
Qed.

(** *** Keys of the three kinds *)

Lemma category_key (w : row) (cat : string) :
  primary_key (category_view w cat)
  = Some (("CATEGORY#" ++ cat)%string,
          (row_published w ++ "#" ++ row_id w)%string).
Proof. reflexivity. Qed.

Lemma author_key (w : row) (author : string) :
  primary_key (author_view w author)
  = Some (("AUTHOR#" ++ author)%string,
          (row_published w ++ "#" ++ row_id w)%string).
Proof. reflexivity. Qed.

Lemma keyword_key (w : row) (kw : string) :
  primary_key (keyword_view w kw)
  = Some (("KEYWORD#" ++ kw)%string,
          ("KW#" ++ row_id w ++ "#" ++ kw)%string).
Proof. reflexivity. Qed.

Lemma views_keyed (w : row) : Forall keyed (views_of w).
Proof.
  apply Forall_forall. intros r Hr. apply view_cases in Hr.
  destruct Hr as [(x & _ & ->)|[(x & _ & ->)|(x & _ & ->)]]; discriminate.
Qed.

Lemma fixture_views_keyed (p : Paper.t) : Forall keyed (Fixtures.views p).
Proof.
  unfold Fixtures.views.
  destruct (transform_paper p) as [items|e] eqn:E; [|constructor].
  apply (transform_paper_keyed p items E).
Qed.

Lemma written_keyed (papers : list Paper.t) : Forall keyed (written papers).
Proof.
  unfold written. induction papers as [|p papers IH]; simpl; [constructor|].
  apply Forall_app. split; [apply fixture_views_keyed | exact IH].
Qed.

Lemma written_In (papers : list Paper.t) (r : dict) :
  In r (written papers) <->
  exists p id text,
    In p papers /\ Paper.arxiv_id p = Some id /\ Paper.abstract p = Some text /\
    In r (views_of (row_of p id text)).
Proof.
  unfold written. rewrite in_flat_map. split.
  - intros (p & Hp & Hr).
    unfold Fixtures.views in Hr.
    destruct (transform_paper p) as [items|e] eqn:E; [|destruct Hr].
    assert (Hacc : accepted p) by (apply accepted_transform; eauto).
    apply accepted_fields in Hacc as (id & text & Hid & Habs).
    rewrite (transform_paper_views p id text Hid Habs) in E.
    injection E as <-. exists p, id, text. auto.
  - intros (p & id & text & Hp & Hid & Habs & Hr).
    exists p. split; [exact Hp|].
    rewrite (views_accepted p id text Hid Habs). exact Hr.
Qed.

End ViewsLemmas.

(** ** The table after a load *)

Section StoreMore.

Import Keywords LoadData Store Upsert Views.

Lemma has_key_iff (k : string * string) (r : dict) :
  has_key k r = true <-> primary_key r = Some k.
Proof.
  unfold has_key. destruct (primary_key r) as [k'|].
  - rewrite key_eqb_eq. split; congruence.
  - split; discriminate.
Qed.

Lemma present_In (k : string * string) (tbl : table) :
  present k tbl = true <-> exists r, In r tbl /\ primary_key r = Some k.
Proof.
  unfold present. rewrite existsb_exists.
  split; intros (r & Hr & H); exists r; (split; [exact Hr|]);
    apply has_key_iff; exact H.
Qed.

Lemma upsert_In (k : string * string) (it r : dict) (tbl : table) :
  In r (upsert k it tbl) -> r = it \/ In r tbl.
Proof.
  induction tbl as [|x tbl IH]; simpl.
  - intros [<-|[]]. left. reflexivity.
  - destruct (has_key k x); simpl.
    + intros [<-|H]; auto.
    + intros [<-|H]; auto. destruct (IH H); auto.
Qed.

Lemma put_all_In (items : list dict) (r : dict) :
  forall tbl, In r (put_all tbl items) -> In r tbl \/ In r items.
Proof.
  induction items as [|it items IH]; intros tbl H; simpl in *; [auto|].
  destruct (IH _ H) as [H1|H1]; [|auto].
  unfold put in H1. destruct (primary_key it) as [k|]; [|auto].
  destruct (upsert_In k it r tbl H1) as [->|H2]; auto.
Qed.

Lemma present_upsert (k k' : string * string) (it : dict) (tbl : table) :
  primary_key it = Some k ->
  present k' (upsert k it tbl) = present k' tbl || key_eqb k k'.
Proof.
  intros Hk. unfold present.
  induction tbl as [|x tbl IH]; simpl.
  - rewrite (has_key_primary k k' it Hk). apply orb_false_r.
  - destruct (has_key k x) eqn:E; simpl.
    + rewrite (has_key_primary k k' it Hk).
      apply has_key_iff in E.
      rewrite (has_key_primary k k' x E).
      destruct (key_eqb k k'), (existsb (has_key k') tbl); reflexivity.
    + rewrite IH. apply orb_assoc.
Qed.

Lemma upsert_keys (k : string * string) (it : dict) (tbl : table) :
  primary_key it = Some k ->
  map primary_key (upsert k it tbl)
  = if present k tbl then map primary_key tbl
    else map primary_key tbl ++ [Some k].
Proof.
  intros Hk. unfold present.
  induction tbl as [|x tbl IH]; simpl; [rewrite Hk; reflexivity|].
  destruct (has_key k x) eqn:E; simpl.
  - apply has_key_iff in E. rewrite Hk, E. reflexivity.
  - rewrite IH. destruct (existsb (has_key k) tbl); reflexivity.
Qed.

Lemma absent_key (k : string * string) (tbl : table) :
  present k tbl = false -> ~ In (Some k) (map primary_key tbl).
Proof.
  intros H Hin. apply in_map_iff in Hin as (r & Hr & Hin).
  assert (present k tbl = true) by (apply present_In; eauto). congruence.
Qed.

Lemma put_NoDup (tbl : table) (it : dict) :
  NoDup (map primary_key tbl) -> NoDup (map primary_key (put tbl it)).
Proof.
  intros H. unfold put. destruct (primary_key it) as [k|] eqn:Hk; [|exact H].
  rewrite (upsert_keys k it tbl Hk).
  destruct (present k tbl) eqn:P; [exact H|].
  apply NoDup_app; [exact H | constructor; [intros [] | constructor] |].
  intros x Hx [<-|[]]. exact (absent_key k tbl P Hx).
Qed.

Lemma put_all_NoDup (items : list dict) :
  forall tbl,
    NoDup (map primary_key tbl) ->
    NoDup (map primary_key (put_all tbl items)).
Proof.
  induction items as [|it items IH]; intros tbl H; simpl; [exact H|].
  apply IH, put_NoDup, H.
Qed.

(** Records under keys that are new and pairwise distinct each take a
    slot. *)
Lemma put_all_fresh (items : list dict) :
  forall tbl,
    Forall keyed items ->
    NoDup (map primary_key items) ->
    (forall it k, In it items -> primary_key it = Some k ->
                  present k tbl = false) ->
    List.length (put_all tbl items) = List.length tbl + List.length items.
Proof.
  induction items as [|it items IH]; intros tbl Hk Hnd Hfresh; simpl; [lia|].
  inversion Hk as [|? ? Hit Hk']; subst.
  inversion Hnd as [|? ? Hnotin Hnd']; subst.
  unfold keyed in Hit. destruct (primary_key it) as [k|] eqn:Ek; [|contradiction].
  rewrite IH; [| exact Hk' | exact Hnd' |].
  - rewrite (put_keyed _ _ _ Ek), upsert_length.
    rewrite (Hfresh it k (or_introl eq_refl) Ek). simpl. lia.
  - intros it' k' Hin' Ek'.
    rewrite (put_keyed _ _ _ Ek), (present_upsert k k' it tbl Ek).
    rewrite (Hfresh it' k' (or_intror Hin') Ek'). simpl.
    destruct (key_eqb k k') eqn:E; [|reflexivity].
    apply key_eqb_eq in E. subst k'.
    exfalso. apply Hnotin. rewrite <- Ek'. apply in_map, Hin'.
Qed.

(** *** A batch write *)

Lemma put_items_Ok (items : list dict) :
  forall tbl tbl',
    Store.put_items tbl items = Ok tbl' ->
    tbl' = put_all tbl items /\ Forall keyed items.
Proof.
  induction items as [|it items IH]; intros tbl tbl' H; simpl in H.
  - injection H as <-. split; [reflexivity | constructor].
  - unfold Store.put_item in H.
    destruct (primary_key it) as [k|] eqn:Ek; [|discriminate].
    simpl in H. destruct (IH _ _ H) as [-> Hk]. split.
    + simpl. rewrite (put_keyed _ _ _ Ek). reflexivity.
    + constructor; [unfold keyed; congruence | exact Hk].
Qed.

Lemma has_duplicate_keys_NoDup (items : list dict) :
  Forall keyed items ->
  (has_duplicate_keys items = false <-> NoDup (map primary_key items)).
Proof.
  induction 1 as [|it items Hit Hk IH]; simpl.
  - split; [constructor | reflexivity].
  - unfold keyed in Hit. destruct (primary_key it) as [k|] eqn:Ek;
      [|contradiction].
    rewrite orb_false_iff, IH. split.
    + intros [Hex Hnd]. constructor; [|exact Hnd].
      intros Hin. apply in_map_iff in Hin as (r & Er & Hr).
      assert (existsb (has_key k) items = true).
      { apply existsb_exists. exists r. split; [exact Hr|].
        apply has_key_iff, Er. }
      congruence.
    + intros Hnd. inversion Hnd as [|? ? Hnotin Hnd']; subst.
      split; [|exact Hnd'].
      destruct (existsb (has_key k) items) eqn:E; [|reflexivity].
      exfalso. apply existsb_exists in E as (r & Hr & Hkr).
      apply Hnotin. apply has_key_iff in Hkr. rewrite <- Hkr.
      apply in_map, Hr.
Qed.

Lemma batch_write_item_keyed (tbl : table) (items : list dict) :
  Forall keyed items ->
  batch_write_item tbl items
  = if has_duplicate_keys items
    then Raise (ClientError
           "ValidationException: Provided list of item keys contains duplicates")
    else Ok (put_all tbl items).
Proof.
  intros Hk. unfold batch_write_item.
  destruct (has_duplicate_keys items); [reflexivity|].
  apply put_items_keyed, Hk.
Qed.

(** *** The batch writer *)

Lemma flush_whole (w : LoadDataMain.BatchWriter) :
  List.length (LoadDataMain._items_buffer w) <= 25 ->
  LoadDataMain._flush w
  = match batch_write_item (LoadDataMain._table w)
            (LoadDataMain._items_buffer w) with
    | Ok tbl' =>
        ({| LoadDataMain._table := tbl'; LoadDataMain._items_buffer := [] |},
         Ok tt)
    | Raise e =>
        ({| LoadDataMain._table := LoadDataMain._table w;
            LoadDataMain._items_buffer := [] |}, Raise e)
    end.
Proof.
  intros Hlen. unfold LoadDataMain._flush, LoadDataMain.flush_amount.
  cbn [LoadDataMain._table LoadDataMain._items_buffer].
  rewrite (firstn_all2 _ Hlen), (skipn_all2 _ Hlen). reflexivity.
Qed.

Lemma pending_cons (buf : list dict) (it : dict) (items : list dict) :
  pending buf (it :: items)
  = if Nat.leb 25 (List.length (buf ++ [it]))
    then pending [] items else pending (buf ++ [it]) items.
Proof. reflexivity. Qed.

Lemma full_batches_cons (buf : list dict) (it : dict) (items : list dict) :
  full_batches buf (it :: items)
  = if Nat.leb 25 (List.length (buf ++ [it]))
    then (buf ++ [it]) :: full_batches [] items
    else full_batches (buf ++ [it]) items.
Proof. reflexivity. Qed.

Lemma put_item_unfold (tbl : table) (buf : list dict) (it : dict) :
  LoadDataMain.put_item
    {| LoadDataMain._table := tbl; LoadDataMain._items_buffer := buf |} it
  = if Nat.leb 25 (List.length (buf ++ [it]))
    then LoadDataMain._flush
           {| LoadDataMain._table := tbl;
              LoadDataMain._items_buffer := buf ++ [it] |}
    else ({| LoadDataMain._table := tbl;
             LoadDataMain._items_buffer := buf ++ [it] |}, Ok tt).
Proof. reflexivity. Qed.

Lemma put_items_cons (w : LoadDataMain.BatchWriter) (it : dict)
  (items : list dict) :
  LoadDataMain.put_items w (it :: items)
  = match LoadDataMain.put_item w it with
    | (w', Ok _) => LoadDataMain.put_items w' items
    | (w', Raise e) => (w', Raise e)
    end.
Proof. reflexivity. Qed.

Lemma full_buffer (buf : list dict) (it : dict) :
  List.length buf < 25 ->
  Nat.leb 25 (List.length (buf ++ [it])) = true ->
  List.length (buf ++ [it]) <= 25.
Proof. rewrite length_app. simpl. lia. Qed.

Lemma pending_small (items : list dict) :
  forall buf, List.length buf < 25 -> List.length (pending buf items) < 25.
Proof.
  induction items as [|it items IH]; intros buf Hb; [exact Hb|].
  rewrite pending_cons.
  destruct (Nat.leb 25 (List.length (buf ++ [it]))) eqn:E.
  - apply IH. simpl. lia.
  - apply IH. apply Nat.leb_gt in E. exact E.
Qed.

Lemma batches_concat (items : list dict) :
  forall buf,
    concat (full_batches buf items) ++ pending buf items = buf ++ items.
Proof.
  induction items as [|it items IH]; intros buf.
  - simpl. rewrite app_nil_r. reflexivity.
  - rewrite pending_cons, full_batches_cons.
    destruct (Nat.leb 25 (List.length (buf ++ [it]))).
    + cbn [concat]. rewrite <- app_assoc, IH. simpl.
      rewrite <- app_assoc. reflexivity.
    + rewrite IH, <- app_assoc. reflexivity.
Qed.

Lemma full_batches_keyed (items : list dict) :
  forall buf,
    Forall keyed (buf ++ items) ->
    Forall (Forall keyed) (full_batches buf items) /\
    Forall keyed (pending buf items).
Proof.
  induction items as [|it items IH]; intros buf Hk.
  - simpl. rewrite app_nil_r in Hk. split; [constructor | exact Hk].
  - assert (Hk' : Forall keyed ((buf ++ [it]) ++ items))
      by (rewrite <- app_assoc; exact Hk).
    rewrite pending_cons, full_batches_cons.
    destruct (Nat.leb 25 (List.length (buf ++ [it]))).
    + apply Forall_app in Hk' as [Hb Hi].
      destruct (IH [] Hi) as [Hf Hp]. split; [constructor; assumption | exact Hp].
    + apply IH, Hk'.
Qed.

(** Puts that meet no duplicate: the full batches are written, the rest is
    buffered. *)
Lemma put_items_sent (items : list dict) :
  forall tbl buf,
    List.length buf < 25 -> Forall keyed (buf ++ items) ->
    forallb (fun b => negb (has_duplicate_keys b)) (full_batches buf items)
    = true ->
    LoadDataMain.put_items
      {| LoadDataMain._table := tbl; LoadDataMain._items_buffer := buf |} items
    = ({| LoadDataMain._table := put_all tbl (concat (full_batches buf items));
          LoadDataMain._items_buffer := pending buf items |}, Ok tt).
Proof.
  induction items as [|it items IH]; intros tbl buf Hb Hk Hok.
  - reflexivity.
  - assert (Hk' : Forall keyed ((buf ++ [it]) ++ items))
      by (rewrite <- app_assoc; exact Hk).
    rewrite put_items_cons, put_item_unfold, pending_cons.
    rewrite full_batches_cons in Hok |- *.
    destruct (Nat.leb 25 (List.length (buf ++ [it]))) eqn:E.
    + cbn [forallb] in Hok. apply andb_true_iff in Hok as [Hd Hok].
      apply negb_true_iff in Hd.
      rewrite flush_whole by (apply full_buffer; assumption).
      cbn [LoadDataMain._table LoadDataMain._items_buffer].
      apply Forall_app in Hk' as [Hkb Hki].
      rewrite (batch_write_item_keyed _ _ Hkb), Hd.
      assert (H0 : List.length (@nil dict) < 25) by (simpl; lia).
      rewrite (IH _ [] H0 Hki Hok).
      cbn [concat].
      rewrite (put_all_app tbl (buf ++ [it]) (concat (full_batches [] items))).
      reflexivity.
    + apply Nat.leb_gt in E.
      rewrite (IH tbl (buf ++ [it]) E Hk' Hok). reflexivity.
Qed.

(** Puts that meet a duplicate raise [ClientError]. *)
Lemma put_items_rejected (items : list dict) :
  forall tbl buf,
    List.length buf < 25 -> Forall keyed (buf ++ items) ->
    forallb (fun b => negb (has_duplicate_keys b)) (full_batches buf items)
    = false ->
    exists w',
      LoadDataMain.put_items
        {| LoadDataMain._table := tbl; LoadDataMain._items_buffer := buf |} items
      = (w', Raise (ClientError
           "ValidationException: Provided list of item keys contains duplicates"))
      /\ LoadDataMain._items_buffer w' = [].
Proof.
  induction items as [|it items IH]; intros tbl buf Hb Hk Hok.
  - discriminate.
  - assert (Hk' : Forall keyed ((buf ++ [it]) ++ items))
      by (rewrite <- app_assoc; exact Hk).
    rewrite put_items_cons, put_item_unfold.
    rewrite full_batches_cons in Hok.
    destruct (Nat.leb 25 (List.length (buf ++ [it]))) eqn:E.
    + rewrite flush_whole by (apply full_buffer; assumption).
      cbn [LoadDataMain._table LoadDataMain._items_buffer].
      apply Forall_app in Hk' as [Hkb Hki].
      rewrite (batch_write_item_keyed _ _ Hkb).
      cbn [forallb] in Hok.
      destruct (has_duplicate_keys (buf ++ [it])) eqn:Hd.
      * eexists. split; reflexivity.
      * assert (H0 : List.length (@nil dict) < 25) by (simpl; lia).
        apply (IH _ [] H0 Hki Hok).
    + apply Nat.leb_gt in E. apply (IH tbl (buf ++ [it]) E Hk' Hok).
Qed.

Lemma put_items_app (l1 l2 : list dict) :
  forall w,
    LoadDataMain.put_items w (l1 ++ l2)
    = match LoadDataMain.put_items w l1 with
      | (w', Ok _) => LoadDataMain.put_items w' l2
      | (w', Raise e) => (w', Raise e)
      end.
Proof.
  induction l1 as [|it l1 IH]; intros w; simpl; [reflexivity|].
  destruct (LoadDataMain.put_item w it) as [w' [[]|e]]; [apply IH | reflexivity].
Qed.

(** The [with] block over accepted papers is the puts of their records. *)
Lemma write_papers_accepted (papers : list Paper.t) :
  forall w total,
    Forall accepted papers ->
    LoadDataMain.write_papers w total papers
    = match LoadDataMain.put_items w (written papers) with
      | (w', Ok _) => (w', Ok (total + List.length (written papers)))
      | (w', Raise e) => (w', Raise e)
      end.
Proof.
  unfold written.
  induction papers as [|p papers IH]; intros w total Hacc; simpl.
  - rewrite Nat.add_0_r. reflexivity.
  - inversion Hacc as [|? ? Hp Hrest]; subst.
    apply accepted_fields in Hp as (id & text & Hid & Habs).
    rewrite (transform_paper_views p id text Hid Habs).
    rewrite (views_accepted p id text Hid Habs), put_items_app.
    destruct (LoadDataMain.put_items w (views_of (row_of p id text)))
      as [w' [[]|e]]; [|reflexivity].
    rewrite (IH w' _ Hrest), length_app.
    destruct (LoadDataMain.put_items w' (flat_map Fixtures.views papers))
      as [w'' [[]|e]]; [|reflexivity].
    f_equal. f_equal. lia.
Qed.

(** The block stops at the first paper [transform_paper] refuses. *)
Lemma write_papers_refused (good : list Paper.t) (bad : Paper.t)
  (rest : list Paper.t) (e : exn) :
  forall w total,
    Forall accepted good -> transform_paper bad = Raise e ->
    LoadDataMain.write_papers w total (good ++ bad :: rest)
    = match LoadDataMain.put_items w (written good) with
      | (w', Ok _) => (w', Raise e)
      | (w', Raise e') => (w', Raise e')
      end.
Proof.
  unfold written.
  induction good as [|p good IH]; intros w total Hacc Hbad; simpl.
  - rewrite Hbad. reflexivity.
  - inversion Hacc as [|? ? Hp Hrest]; subst.
    apply accepted_fields in Hp as (id & text & Hid & Habs).
    rewrite (transform_paper_views p id text Hid Habs).
    rewrite (views_accepted p id text Hid Habs), put_items_app.
    destruct (LoadDataMain.put_items w (views_of (row_of p id text)))
      as [w' [[]|e']]; [|reflexivity].
    apply (IH w' _ Hrest Hbad).
Qed.

Lemma first_refused (papers : list Paper.t) :
  Forall accepted papers \/
  exists good bad rest,
    papers = good ++ bad :: rest /\ Forall accepted good /\ ~ accepted bad.
Proof.
  induction papers as [|p papers IH]; [left; constructor|].
  destruct (transform_paper p) as [items|e] eqn:E.
  - assert (Hp : accepted p) by (apply accepted_transform; eauto).
    destruct IH as [Hall|(good & bad & rest & -> & Hg & Hb)].
    + left. constructor; assumption.
    + right. exists (p :: good), bad, rest. repeat split; auto.
  - right. exists [], p, papers. repeat split; [constructor|].
    intros Hp. apply accepted_transform in Hp as (items & Hp). congruence.
Qed.

(** [__exit__] on a buffer below the flush amount: one batch, or nothing. *)
Lemma exit_small (tbl : table) (buf : list dict) :
  List.length buf < 25 ->
  LoadDataMain.__exit__ (List.length buf)
    {| LoadDataMain._table := tbl; LoadDataMain._items_buffer := buf |}
  = match buf with
    | [] => ({| LoadDataMain._table := tbl;
                LoadDataMain._items_buffer := [] |}, Ok tt)
    | _ :: _ =>
        match batch_write_item tbl buf with
        | Ok tbl' => ({| LoadDataMain._table := tbl';
                         LoadDataMain._items_buffer := [] |}, Ok tt)
        | Raise e => ({| LoadDataMain._table := tbl;
                         LoadDataMain._items_buffer := [] |}, Raise e)
        end
    end.
Proof.
  intros Hb. destruct buf as [|it buf]; [reflexivity|].
  cbn [List.length LoadDataMain.__exit__ LoadDataMain._items_buffer].
  rewrite flush_whole by (simpl in *; lia).
  cbn [LoadDataMain._table LoadDataMain._items_buffer].
  destruct (batch_write_item tbl (it :: buf)); [|reflexivity].
  destruct (List.length buf); reflexivity.
Qed.

Lemma batches_dup_free (items : list dict) :
  forallb dup_free (batches items)
  = forallb dup_free (full_batches [] items)
    && match pending [] items with
       | [] => true
       | b => dup_free b
       end.
Proof.
  unfold batches. rewrite forallb_app. f_equal.
  destruct (pending [] items); simpl; [reflexivity | apply andb_true_r].
Qed.

Lemma batches_keyed (items : list dict) :
  Forall keyed items -> Forall (Forall keyed) (batches items).
Proof.
  intros Hk. destruct (full_batches_keyed items [] Hk) as [Hf Hp].
  unfold batches. apply Forall_app. split; [exact Hf|].
  destruct (pending [] items); [constructor|]. constructor; [exact Hp | constructor].
Qed.

Lemma batches_NoDup (items : list dict) :
  Forall keyed items ->
  (forallb dup_free (batches items) = true <->
   Forall (fun b => NoDup (map primary_key b)) (batches items)).
Proof.
  intros Hk. pose proof (batches_keyed items Hk) as Hb.
  rewrite forallb_forall, Forall_forall. rewrite Forall_forall in Hb.
  unfold dup_free.
  split; intros H b Hin; specialize (H b Hin); specialize (Hb b Hin).
  - apply has_duplicate_keys_NoDup; [exact Hb|].
    apply negb_true_iff, H.
  - apply negb_true_iff, has_duplicate_keys_NoDup; assumption.
Qed.

Lemma main_unfold (papers : list Paper.t) :
  LoadDataMain.main papers
  = let (w, block) :=
      LoadDataMain.write_papers
        {| LoadDataMain._table := []; LoadDataMain._items_buffer := [] |}
        0 papers in
    let (w', exited) :=
      LoadDataMain.__exit__ (List.length (LoadDataMain._items_buffer w)) w in
    _ <- exited ;;
    total_items_written <- block ;;
    if Nat.eqb (List.length papers) 0 then Raise ZeroDivisionError
    else Ok (LoadDataMain._table w', total_items_written).
Proof. reflexivity. Qed.

(** The exit flush after puts that met no duplicate. *)
Lemma exit_after_puts (items : list dict) :
  Forall keyed items ->
  LoadDataMain.__exit__ (List.length (pending [] items))
    {| LoadDataMain._table := put_all [] (concat (full_batches [] items));
       LoadDataMain._items_buffer := pending [] items |}
  = if match pending [] items with [] => true | b => dup_free b end
    then ({| LoadDataMain._table := put_all [] items;
             LoadDataMain._items_buffer := [] |}, Ok tt)
    else ({| LoadDataMain._table := put_all [] (concat (full_batches [] items));
             LoadDataMain._items_buffer := [] |},
          Raise (ClientError
            "ValidationException: Provided list of item keys contains duplicates")).
Proof.
  intros Hk.
  assert (H0 : List.length (@nil dict) < 25) by (simpl; lia).
  rewrite exit_small by (apply pending_small, H0).
  pose proof (batches_concat items []) as Hcat. simpl in Hcat.
  destruct (full_batches_keyed items [] Hk) as [_ Hp].
  destruct (pending [] items) as [|it buf] eqn:Ep.
  - rewrite app_nil_r in Hcat. rewrite Hcat. reflexivity.
  - rewrite (batch_write_item_keyed _ _ Hp). unfold dup_free.
    destruct (has_duplicate_keys (it :: buf)); cbn [negb]; [reflexivity|].
    rewrite <- (put_all_app [] (concat (full_batches [] items)) (it :: buf)).
    rewrite Hcat. reflexivity.
Qed.

(** The load of accepted papers. *)
Lemma main_accepted (papers : list Paper.t) :
  Forall accepted papers ->
  LoadDataMain.main papers
  = if forallb dup_free (batches (written papers)) then
      if Nat.eqb (List.length papers) 0 then Raise ZeroDivisionError
      else Ok (put_all [] (written papers), List.length (written papers))
    else Raise (ClientError
           "ValidationException: Provided list of item keys contains duplicates").
Proof.
  intros Hacc. rewrite main_unfold, (write_papers_accepted papers _ 0 Hacc).
  pose proof (written_keyed papers) as Hk.
  assert (H0 : List.length (@nil dict) < 25) by (simpl; lia).
  rewrite batches_dup_free.
  destruct (forallb dup_free (full_batches [] (written papers))) eqn:Ef.
  - rewrite (put_items_sent (written papers) [] [] H0 Hk Ef).
    cbn [LoadDataMain._items_buffer].
    rewrite (exit_after_puts (written papers) Hk).
    destruct (match pending [] (written papers) with
              | [] => true
              | b => dup_free b
              end); reflexivity.
  - destruct (put_items_rejected (written papers) [] [] H0 Hk Ef)
      as (w' & Hw & Hb).
    rewrite Hw, Hb. destruct w' as [t b]. simpl in Hb. subst b. reflexivity.
Qed.

(** The load of papers of which one is refused. *)
Lemma main_refused (good : list Paper.t) (bad : Paper.t)
  (rest : list Paper.t) (e : exn) :
  Forall accepted good -> transform_paper bad = Raise e ->
  LoadDataMain.main (good ++ bad :: rest)
  = if forallb dup_free (batches (written good)) then Raise e
    else Raise (ClientError
           "ValidationException: Provided list of item keys contains duplicates").
Proof.
  intros Hacc Hbad.
  rewrite main_unfold, (write_papers_refused good bad rest e _ 0 Hacc Hbad).
  pose proof (written_keyed good) as Hk.
  assert (H0 : List.length (@nil dict) < 25) by (simpl; lia).
  rewrite batches_dup_free.
  destruct (forallb dup_free (full_batches [] (written good))) eqn:Ef.
  - rewrite (put_items_sent (written good) [] [] H0 Hk Ef).
    cbn [LoadDataMain._items_buffer].
    rewrite (exit_after_puts (written good) Hk).
    destruct (match pending [] (written good) with
              | [] => true
              | b => dup_free b
              end); reflexivity.
  - destruct (put_items_rejected (written good) [] [] H0 Hk Ef)
      as (w' & Hw & Hb).
    rewrite Hw, Hb. destruct w' as [t b]. simpl in Hb. subst b. reflexivity.
Qed.

(** A load that succeeds wrote every record of every paper, in order. *)
Lemma main_Ok (papers : list Paper.t) (tbl : table) (n : nat) :
  LoadDataMain.main papers = Ok (tbl, n) <->
  papers <> [] /\ Forall accepted papers /\
  forallb dup_free (batches (written papers)) = true /\
  tbl = put_all [] (written papers) /\ n = List.length (written papers).
Proof.
  destruct (first_refused papers)
    as [Hacc|(good & bad & rest & -> & Hg & Hb)].
  - rewrite (main_accepted papers Hacc).
    destruct (forallb dup_free (batches (written papers))).
    + destruct papers as [|p papers]; simpl.
      * split; [discriminate | intros [H _]; contradiction].
      * split.
        -- intros [= <- <-]. repeat split; auto. discriminate.
        -- intros (_ & _ & _ & -> & ->). reflexivity.
    + split; [discriminate|]. intros (_ & _ & H & _). discriminate.
  - destruct (transform_paper bad) as [items|e] eqn:E.
    { exfalso. apply Hb, accepted_transform. eauto. }
    rewrite (main_refused good bad rest e Hg E). split.
    + destruct (forallb dup_free (batches (written good))); discriminate.
    + intros (_ & Hall & _). exfalso. apply Hb.
      rewrite Forall_forall in Hall. apply Hall.
      apply in_or_app. right. left. reflexivity.
Qed.

End StoreMore.

(** ** What a load writes *)

Section LoadMore.

Import Keywords LoadData Store Upsert Views.

Lemma written_length (papers : list Paper.t) :
  Forall accepted papers ->
  List.length (written papers)
  = list_sum (map (fun p =>
      List.length (get (Paper.categories p) [])
      + List.length (get (Paper.authors p) [])
      + List.length (extract_keywords (get (Paper.abstract p) "") 10)) papers).
Proof.
  unfold written. induction 1 as [|p papers Hp _ IH]; simpl; [reflexivity|].
  rewrite length_app, IH. f_equal.
  apply accepted_fields in Hp as (id & text & Hid & Habs).
  rewrite (views_accepted p id text Hid Habs). unfold views_of.
  rewrite !length_app, !length_map, Habs. reflexivity.
Qed.

(** X4.  A load that succeeds reports as written the sum over the papers of
    N + M + K; the table holds no more records than that, all under pairwise
    distinct primary keys, and each is a record [transform_paper] made of one
    of the papers. *)
Theorem load_report (papers : list Paper.t) (tbl : table) (n : nat) :
  LoadDataMain.main papers = Ok (tbl, n) ->
  n = list_sum (map (fun p =>
        List.length (get (Paper.categories p) [])
        + List.length (get (Paper.authors p) [])
        + List.length (extract_keywords (get (Paper.abstract p) "") 10)) papers) /\
  List.length tbl <= n /\
  NoDup (map primary_key tbl) /\
  (forall r, In r tbl ->
     primary_key r <> None /\
     exists p items,
       In p papers /\ transform_paper p = Ok items /\ In r items).
Proof.
  intros H. apply main_Ok in H as (_ & Hacc & _ & -> & ->).
  split; [apply written_length, Hacc|]. split; [|split].
  - apply (put_all_length_le (written papers) []).
  - apply put_all_NoDup. constructor.
  - intros r Hr. apply put_all_In in Hr as [[]|Hr]. split.
    + pose proof (written_keyed papers) as Hk.
      rewrite Forall_forall in Hk. apply Hk, Hr.
    + apply written_In in Hr as (p & id & text & Hp & Hid & Habs & Hr).
      exists p, (views_of (row_of p id text)).
      split; [exact Hp|]. split; [|exact Hr].
      apply transform_paper_views; assumption.
Qed.

Lemma load_report_witness :
  List.length (Fixtures.loaded Fixtures.three_papers) <= 12 /\
  NoDup (map primary_key (Fixtures.loaded Fixtures.three_papers)).
Proof.
  destruct (load_report Fixtures.three_papers
              (Fixtures.loaded Fixtures.three_papers) 12) as (_ & L & N & _).
  - vm_compute. reflexivity.
  - split; [exact L | exact N].
Defined.

(** X5.  The load succeeds exactly when the list is not empty, every paper
    has [arxiv_id] and [abstract], and no request the batch writer sends (the
    records in order, 25 to a request) holds two records under one primary
    key; the table is then the records upserted in order.  Papers that all
    have the two fields but give a request with a repeated key raise
    [ClientError]; the first paper without [arxiv_id] or [abstract] raises
    [KeyError] on the missing field, unless a request of the papers before it
    has a repeated key, which raises [ClientError]; and the empty list raises
    [ZeroDivisionError]. *)
Theorem load_outcome (papers : list Paper.t) :
  (forall tbl n,
     LoadDataMain.main papers = Ok (tbl, n) <->
     papers <> [] /\ Forall accepted papers /\
     Forall (fun b => NoDup (map primary_key b)) (batches (written papers)) /\
     tbl = put_all [] (written papers) /\
     n = List.length (written papers)) /\
  (Forall accepted papers ->
   ~ Forall (fun b => NoDup (map primary_key b)) (batches (written papers)) ->
   LoadDataMain.main papers
   = Raise (ClientError
       "ValidationException: Provided list of item keys contains duplicates")) /\
  (forall good bad rest,
     papers = good ++ bad :: rest -> Forall accepted good -> ~ accepted bad ->
     (Forall (fun b => NoDup (map primary_key b)) (batches (written good)) ->
      LoadDataMain.main papers
      = Raise (KeyError (match Paper.arxiv_id bad with
                         | None => "arxiv_id"
                         | Some _ => "abstract"
                         end))) /\
     (~ Forall (fun b => NoDup (map primary_key b)) (batches (written good)) ->
      LoadDataMain.main papers
      = Raise (ClientError
          "ValidationException: Provided list of item keys contains duplicates"))) /\
  (papers = [] -> LoadDataMain.main papers = Raise ZeroDivisionError).
Proof.
  split; [|split; [|split]].
  - intros tbl n. rewrite main_Ok. split.
    + intros (Hne & Hacc & Hd & Ht & Hn). repeat split; auto.
      apply (batches_NoDup _ (written_keyed papers)), Hd.
    + intros (Hne & Hacc & Hd & Ht & Hn). repeat split; auto.
      apply (batches_NoDup _ (written_keyed papers)), Hd.
  - intros Hacc Hd. rewrite (main_accepted papers Hacc).
    destruct (forallb dup_free (batches (written papers))) eqn:E;
      [|reflexivity].
    exfalso. apply Hd, (batches_NoDup _ (written_keyed papers)), E.
  - intros good bad rest -> Hg Hb.
    assert (He : transform_paper bad
                 = Raise (KeyError (match Paper.arxiv_id bad with
                                    | None => "arxiv_id"
                                    | Some _ => "abstract"
                                    end))).
    { apply transform_paper_raises. unfold accepted in Hb.
      destruct (Paper.arxiv_id bad) as [id|]; [right | left; auto].
      split; [discriminate|]. split; [|reflexivity].
      destruct (Paper.abstract bad); [|reflexivity].
      exfalso. apply Hb. split; discriminate. }
    rewrite (main_refused good bad rest _ Hg He). split.
    + intros Hd. apply (batches_NoDup _ (written_keyed good)) in Hd.
      rewrite Hd. reflexivity.
    + intros Hd.
      destruct (forallb dup_free (batches (written good))) eqn:E;
        [|reflexivity].
      exfalso. apply Hd, (batches_NoDup _ (written_keyed good)), E.
  - intros ->. reflexivity.
Qed.

Lemma NoDup_map_on {A B : Type} (f : A -> B) (l : list A) :
  (forall x y, In x l -> In y l -> f x = f y -> x = y) ->
  NoDup l -> NoDup (map f l).
Proof.
  intros Hinj. induction 1 as [|x l Hx Hnd IH]; simpl; constructor.
  - intros Hin. apply in_map_iff in Hin as (y & E & Hy).
    apply Hx. rewrite (Hinj x y); auto. left. reflexivity. right. exact Hy.
  - apply IH. intros a b Ha Hb. apply Hinj; right; assumption.
Qed.

Lemma views_distinct_keys (w : row) :
  NoDup (row_cats w) -> NoDup (row_authors w) -> NoDup (row_keywords w) ->
  NoDup (map primary_key (views_of w)).
Proof.
  intros Hc Ha Hk. unfold views_of. rewrite !map_app.
  apply NoDup_app; [apply NoDup_app | |].
  - rewrite map_map. apply NoDup_map_on; [|exact Hc].
    intros x y _ _ E. rewrite !category_key in E. injection E as E.
    exact E.
  - rewrite map_map. apply NoDup_map_on; [|exact Ha].
    intros x y _ _ E. rewrite !author_key in E. injection E as E.
    exact E.
  - intros k H1 H2. rewrite map_map in H1, H2.
    apply in_map_iff in H1 as (x & <- & _).
    apply in_map_iff in H2 as (y & E & _). discriminate.
  - rewrite map_map. apply NoDup_map_on; [|exact Hk].
    intros x y _ _ E. rewrite !keyword_key in E. injection E as E _.
    exact E.
  - intros k H1 H2. rewrite map_map in H2.
    apply in_map_iff in H2 as (y & <- & _).
    apply in_app_or in H1 as [H1|H1]; rewrite map_map in H1;
      apply in_map_iff in H1 as (x & E & _); discriminate.
Qed.

(** X6.  When a paper lists no category twice and no author twice, its
    records have pairwise distinct primary keys, and written to an empty table
    every one of them is stored: N + M + K records. *)
Theorem distinct_lists_no_collision (p : Paper.t) (items : list dict) :
  transform_paper p = Ok items ->
  NoDup (get (Paper.categories p) []) ->
  NoDup (get (Paper.authors p) []) ->
  NoDup (map primary_key items) /\
  exists tbl',
    put_items [] items = Ok tbl' /\
    List.length tbl'
    = List.length (get (Paper.categories p) [])
      + List.length (get (Paper.authors p) [])
      + List.length (extract_keywords (get (Paper.abstract p) "") 10).
Proof.
  intros Hp Hc Ha.
  assert (Hacc : accepted p) by (apply accepted_transform; eauto).
  apply accepted_fields in Hacc as (id & text & Hid & Habs).
  rewrite (transform_paper_views p id text Hid Habs) in Hp.
  injection Hp as <-.
  assert (Hnd : NoDup (map primary_key (views_of (row_of p id text)))).
  { apply views_distinct_keys; simpl; auto. apply extract_keywords_NoDup. }
  split; [exact Hnd|].
  exists (put_all [] (views_of (row_of p id text))). split.
  - apply put_items_keyed, views_keyed.
  - rewrite put_all_fresh; [| apply views_keyed | exact Hnd | reflexivity].
    unfold views_of. simpl. rewrite !length_app, !length_map, Habs.
    reflexivity.
Qed.

Lemma distinct_lists_no_collision_witness :
  exists tbl',
    put_items [] (Fixtures.views Fixtures.paper_0001) = Ok tbl' /\
    List.length tbl' = 2 + 1 + 2.
Proof.
  destruct (distinct_lists_no_collision Fixtures.paper_0001
              (Fixtures.views Fixtures.paper_0001)) as (_ & tbl' & E & L).
  - vm_compute. reflexivity.
  - repeat constructor; simpl; intuition discriminate.
  - repeat constructor; simpl; intuition discriminate.
  - exists tbl'. split; [exact E | exact L].
Defined.

(** X7.  Records of two papers that share a primary key belong to papers
    with the same [arxiv_id], provided neither [published] contains ["#"]:
    papers with different ids never overwrite each other's records. *)
Theorem shared_key_same_id (p1 p2 : Paper.t) (items1 items2 : list dict)
  (r1 r2 : dict) :
  transform_paper p1 = Ok items1 -> transform_paper p2 = Ok items2 ->
  In r1 items1 -> In r2 items2 ->
  hash_free (get (Paper.published p1) "") = true ->
  hash_free (get (Paper.published p2) "") = true ->
  primary_key r1 = primary_key r2 ->
  Paper.arxiv_id p1 = Paper.arxiv_id p2.
Proof.
  intros H1 H2 Hr1 Hr2 Hf1 Hf2 E.
  assert (A1 : accepted p1) by (apply accepted_transform; eauto).
  assert (A2 : accepted p2) by (apply accepted_transform; eauto).
  apply accepted_fields in A1 as (id1 & t1 & Hid1 & Habs1).
  apply accepted_fields in A2 as (id2 & t2 & Hid2 & Habs2).
  rewrite (transform_paper_views p1 id1 t1 Hid1 Habs1) in H1.
  rewrite (transform_paper_views p2 id2 t2 Hid2 Habs2) in H2.
  injection H1 as <-. injection H2 as <-.
  rewrite Hid1, Hid2. f_equal.
  apply view_cases in Hr1, Hr2.
  destruct Hr1 as [(x1 & _ & ->)|[(x1 & _ & ->)|(x1 & _ & ->)]];
    destruct Hr2 as [(x2 & _ & ->)|[(x2 & _ & ->)|(x2 & _ & ->)]];
    rewrite ?category_key, ?author_key, ?keyword_key in E;
    try discriminate.
  - injection E as _ E. simpl in E.
    apply (sort_key_split _ _ _ _ Hf1 Hf2 E).
  - injection E as _ E. simpl in E.
    apply (sort_key_split _ _ _ _ Hf1 Hf2 E).
  - injection E as Ekw E. simpl in E. subst x2.
    apply (append_cancel_r (String "#" x1)). exact E.
Qed.

Lemma shared_key_same_id_witness :
  Paper.arxiv_id (Fixtures.paper "0001" "2024-01-01" ["cs.LG"])
  = Paper.arxiv_id (Fixtures.paper "0001" "2024-01-01" ["cs.LG"; "cs.AI"]).
Proof.
  apply (shared_key_same_id
           (Fixtures.paper "0001" "2024-01-01" ["cs.LG"])
           (Fixtures.paper "0001" "2024-01-01" ["cs.LG"; "cs.AI"])
           (Fixtures.views (Fixtures.paper "0001" "2024-01-01" ["cs.LG"]))
           (Fixtures.views (Fixtures.paper "0001" "2024-01-01" ["cs.LG"; "cs.AI"]))
           (nth 0 (Fixtures.views (Fixtures.paper "0001" "2024-01-01" ["cs.LG"])) [])
           (nth 0 (Fixtures.views
                     (Fixtures.paper "0001" "2024-01-01" ["cs.LG"; "cs.AI"])) [])).
  - vm_compute. reflexivity.
  - vm_compute. reflexivity.
  - apply nth_In. apply Nat.ltb_lt. vm_compute. reflexivity.
  - apply nth_In. apply Nat.ltb_lt. vm_compute. reflexivity.
  - vm_compute. reflexivity.
  - vm_compute. reflexivity.
  - vm_compute. reflexivity.
Defined.

(** ** A repeated category *)









(** The loader on the two papers.  With the two records twenty-five apart
    they go out in two requests, and the table ends with 28 records for the
    29 written; side by side they go out in one request, which the store
    refuses. *)
Example load_crowded_paper :
  exists tbl,
    LoadDataMain.main [Fixtures.crowded_paper] = Ok (tbl, 29) /\
    List.length tbl = 28 /\
    filter (has_key ("CATEGORY#cs.LG", "2024-01-01#0001")) tbl
    = [category_view (row_of Fixtures.crowded_paper "0001"
                        "cache cache lock lock cache") "cs.LG"].
Proof. eexists. split; [vm_compute; reflexivity | split; reflexivity]. Qed.

Example load_repeated_paper :
  LoadDataMain.main [Fixtures.repeated_paper]
  = Raise (ClientError
      "ValidationException: Provided list of item keys contains duplicates").
Proof. vm_compute. reflexivity. Qed.

End LoadMore.

(** ** Queries on a loaded table *)

Section QueryMore.

Import Keywords Spec LoadData Store Upsert Views QueryPapers.

Lemma project_all (ix : index) (it : dict) :
  ix <> AuthorIndex -> project ix it = it.
Proof.
  intros Hix. unfold project.
  induction it as [|kv it IH]; [reflexivity|].
  simpl. destruct ix; try contradiction; simpl; f_equal; exact IH.
Qed.

Lemma insert_asc_length (ix : index) (x : dict) (l : list dict) :
  List.length (insert_asc ix x l) = S (List.length l).
Proof.
  induction l as [|y l IH]; simpl; [reflexivity|].
  destruct (String.leb (range_value ix x) (range_value ix y)); simpl;
    [reflexivity | rewrite IH; reflexivity].
Qed.

Lemma sort_asc_length (ix : index) (l : list dict) :
  List.length (sort_asc ix l) = List.length l.
Proof.
  induction l as [|x l IH]; simpl; [reflexivity|].
  rewrite insert_asc_length, IH. reflexivity.
Qed.

(** A query without [Limit]: the matching records, each projected. *)
Lemma query_unlimited (tbl : table) (ix : index) (pk : string)
  (rng : option (string * string)) :
  exists items,
    query tbl ix pk rng true None = Ok items /\
    List.length items = List.length (filter (key_condition ix pk rng) tbl) /\
    forall item,
      In item items <->
      exists r, In r tbl /\ key_condition ix pk rng r = true /\
                item = project ix r.
Proof.
  unfold query. eexists. split; [reflexivity|]. split.
  - rewrite length_map, sort_asc_length. reflexivity.
  - intros item. rewrite in_map_iff. split.
    + intros (r & <- & Hr). apply sort_asc_In, filter_In in Hr as [Hr Hc].
      exists r. auto.
    + intros (r & Hr & Hc & ->). exists r. split; [reflexivity|].
      apply sort_asc_In, filter_In. auto.
Qed.

(** A descending query with a [Limit] of at least 1. *)
Lemma query_limited (tbl : table) (ix : index) (pk : string) (n : Z) :
  (1 <= n)%Z ->
  exists items,
    query tbl ix pk None false (Some n) = Ok items /\
    List.length items
    = Nat.min (Z.to_nat n)
        (List.length (filter (key_condition ix pk None) tbl)) /\
    forall item,
      In item items ->
      exists r, In r tbl /\ key_condition ix pk None r = true /\
                item = project ix r.
Proof.
  intros Hn. unfold query.
  destruct (n <? 1)%Z eqn:E; [apply Z.ltb_lt in E; lia|].
  eexists. split; [reflexivity|]. split.
  - rewrite length_firstn, length_map, length_rev, sort_asc_length.
    reflexivity.
  - intros item Hin.
    assert (Hin' : In item (map (project ix)
              (rev (sort_asc ix (filter (key_condition ix pk None) tbl))))).
    { rewrite <- (firstn_skipn (Z.to_nat n)). apply in_or_app. left. exact Hin. }
    apply in_map_iff in Hin' as (r & <- & Hr).
    apply in_rev, sort_asc_In, filter_In in Hr as [Hr Hc].
    exists r. auto.
Qed.

Lemma loaded_table (papers : list Paper.t) (tbl : table) (n : nat) :
  LoadDataMain.main papers = Ok (tbl, n) ->
  Forall accepted papers /\ tbl = put_all [] (written papers).
Proof.
  intros H. apply main_Ok in H as (_ & Hacc & _ & -> & _).
  split; [exact Hacc | reflexivity].
Qed.

(** Every stored record is a record of one of the papers. *)
Lemma loaded_record (papers : list Paper.t) (tbl : table) (n : nat) (r : dict) :
  LoadDataMain.main papers = Ok (tbl, n) -> In r tbl ->
  exists p id text,
    In p papers /\ Paper.arxiv_id p = Some id /\ Paper.abstract p = Some text /\
    In r (views_of (row_of p id text)).
Proof.
  intros H Hr. apply loaded_table in H as [_ ->].
  apply put_all_In in Hr as [[]|Hr]. apply written_In, Hr.
Qed.

(** Every key a paper writes is a key of the table. *)
Lemma loaded_present (papers : list Paper.t) (tbl : table) (n : nat)
  (p : Paper.t) (id text : string) (r : dict) :
  LoadDataMain.main papers = Ok (tbl, n) ->
  In p papers -> Paper.arxiv_id p = Some id -> Paper.abstract p = Some text ->
  In r (views_of (row_of p id text)) ->
  exists r', In r' tbl /\ primary_key r' = primary_key r.
Proof.
  intros H Hp Hid Habs Hr. apply loaded_table in H as [_ ->].
  assert (Hw : In r (written papers)).
  { apply written_In. exists p, id, text. auto. }
  pose proof (views_keyed (row_of p id text)) as Hk.
  rewrite Forall_forall in Hk. specialize (Hk r Hr). unfold keyed in Hk.
  destruct (primary_key r) as [k|] eqn:Ek; [|contradiction].
  pose proof (present_after (written papers) r k Hw Ek []) as P.
  apply present_In in P as (r' & Hr' & Ek'). exists r'. auto.
Qed.

Lemma accepted_In (papers : list Paper.t) (p : Paper.t) :
  Forall accepted papers -> In p papers ->
  exists id text, Paper.arxiv_id p = Some id /\ Paper.abstract p = Some text.
Proof.
  intros Hacc Hp. rewrite Forall_forall in Hacc.
  apply accepted_fields, Hacc, Hp.
Qed.

Lemma sortable_hash_free (s : string) :
  sortable_date s = true -> hash_free s = true.
Proof.
  unfold sortable_date, hash_free.
  induction s as [|c s IH]; simpl; [reflexivity|].
  intros H. apply andb_true_iff in H as [Hc Hs]. rewrite (IH Hs), andb_true_r.
  revert Hc. clear.
  destruct c as [[] [] [] [] [] [] [] []]; vm_compute; intro H;
    solve [reflexivity | discriminate H].
Qed.

End QueryMore.

Section ByIdMore.

Import Keywords Spec LoadData Store Upsert Views QueryPapers.

Lemma category_by_id (w : row) (cat pk : string) :
  key_condition PaperIdIndex pk None (category_view w cat)
  = String.eqb ("ARXIV_ID#" ++ row_id w) pk.
Proof. unfold key_condition. simpl. apply andb_true_r. Qed.

Lemma author_by_id (w : row) (author pk : string) :
  key_condition PaperIdIndex pk None (author_view w author) = false.
Proof. reflexivity. Qed.

Lemma keyword_by_id (w : row) (kw pk : string) :
  key_condition PaperIdIndex pk None (keyword_view w kw) = false.
Proof. reflexivity. Qed.

(** What the id index holds under [ARXIV_ID#<id>]: category records of
    papers with that id. *)
Lemma id_index_records (papers : list Paper.t) (tbl : table) (n : nat)
  (id : string) (r : dict) :
  LoadDataMain.main papers = Ok (tbl, n) -> In r tbl ->
  key_condition PaperIdIndex ("ARXIV_ID#" ++ id) None r = true ->
  exists p text cat,
    In p papers /\ Paper.arxiv_id p = Some id /\
    Paper.abstract p = Some text /\
    In cat (LoadData.get (Paper.categories p) []) /\
    r = category_view (row_of p id text) cat.
Proof.
  intros H Hr Hc.
  destruct (loaded_record papers tbl n r H Hr)
    as (p & id' & text & Hp & Hid & Habs & Hv).
  apply view_cases in Hv.
  destruct Hv as [(x & Hx & ->)|[(x & Hx & ->)|(x & Hx & ->)]].
  - rewrite category_by_id in Hc. apply String.eqb_eq in Hc.
    apply (append_cancel_l "ARXIV_ID#") in Hc. simpl in Hc. subst id'.
    exists p, text, x. auto.
  - rewrite author_by_id in Hc. discriminate.
  - rewrite keyword_by_id in Hc. discriminate.
Qed.

(** X8.  After a load of papers whose dates contain no ["#"], the CLI's
    [get <id>] prints one record carrying that [arxiv_id], with count 1,
    whenever a loaded paper has the id and at least one category; when no
    loaded paper with the id has a category it raises [AttributeError]. *)
Theorem get_after_load (papers : list Paper.t) (tbl : table) (n : nat)
  (id : string) :
  LoadDataMain.main papers = Ok (tbl, n) ->
  dates_hash_free papers ->
  ((exists p, In p papers /\ Paper.arxiv_id p = Some id /\
              LoadData.get (Paper.categories p) [] <> []) ->
   exists item,
     QueryPapers.main tbl (get id)
     = Ok {| query_type := "paper_by_id";
             parameters := [("arxiv_id", VStr id)];
             results := Result (display item);
             count := 1 |} /\
     In item tbl /\
     get_or_none (display item) "arxiv_id" = VStr id) /\
  ((forall p, In p papers -> Paper.arxiv_id p = Some id ->
              LoadData.get (Paper.categories p) [] = []) ->
   QueryPapers.main tbl (get id)
   = Raise (AttributeError "'list' object has no attribute 'get'")).
Proof.
  intros H Hfree.
  destruct (query_unlimited tbl PaperIdIndex ("ARXIV_ID#" ++ id) None)
    as (items & Hq & Hlen & Hin).
  assert (Hitem : forall item, In item items ->
            In item tbl /\ get_or_none (display item) "arxiv_id" = VStr id /\
            exists p, In p papers /\ Paper.arxiv_id p = Some id /\
                      LoadData.get (Paper.categories p) [] <> []).
  { intros item Hi. apply Hin in Hi as (r & Hr & Hc & ->).
    rewrite project_all by discriminate.
    destruct (id_index_records papers tbl n id r H Hr Hc)
      as (p & text & cat & Hp & Hid & Habs & Hcat & E).
    split; [exact Hr|]. split; [rewrite E; reflexivity|].
    exists p. split; [exact Hp|]. split; [exact Hid|].
    intros Hnil. rewrite Hnil in Hcat. destruct Hcat. }
  split.
  - intros (p & Hp & Hid & Hcats).
    destruct (loaded_table papers tbl n H) as [Hacc _].
    destruct (accepted_In papers p Hacc Hp) as (id0 & text & Hid0 & Habs).
    assert (id0 = id) by congruence. subst id0.
    destruct (LoadData.get (Paper.categories p) []) as [|cat cats] eqn:Ec;
      [contradiction|].
    assert (Hv : In (category_view (row_of p id text) cat)
                   (views_of (row_of p id text))).
    { apply view_cases. left. exists cat. split; [|reflexivity].
      simpl. rewrite Ec. left. reflexivity. }
    destruct (loaded_present papers tbl n p id text _ H Hp Hid Habs Hv)
      as (r' & Hr' & Ek).
    destruct (loaded_record papers tbl n r' H Hr')
      as (p' & id' & text' & Hp' & Hid' & Habs' & Hv').
    assert (Hc : key_condition PaperIdIndex ("ARXIV_ID#" ++ id) None r' = true).
    { unfold dates_hash_free in Hfree. rewrite Forall_forall in Hfree.
      apply view_cases in Hv'.
      destruct Hv' as [(x & Hx & ->)|[(x & Hx & ->)|(x & Hx & ->)]];
        rewrite category_key in Ek;
        rewrite ?category_key, ?author_key, ?keyword_key in Ek;
        try discriminate.
      injection Ek as _ Ek. simpl in Ek.
      apply sort_key_split in Ek as [_ Ek];
        [| apply (Hfree p' Hp') | apply (Hfree p Hp)].
      rewrite category_by_id. simpl. simpl in Ek. rewrite Ek.
      apply String.eqb_refl. }
    assert (Hne : items <> []).
    { intros ->. simpl in Hlen.
      assert (Hf : In r' (filter (key_condition PaperIdIndex
                                   ("ARXIV_ID#" ++ id) None) tbl))
        by (apply filter_In; auto).
      destruct (filter _ tbl); [destruct Hf | discriminate]. }
    destruct items as [|item items']; [contradiction|].
    exists item. unfold QueryPapers.main, get_paper_by_id. rewrite Hq. simpl.
    split; [reflexivity|].
    destruct (Hitem item (or_introl eq_refl)) as (A & B & _). auto.
  - intros Hnone.
    destruct items as [|item items'].
    + unfold QueryPapers.main, get_paper_by_id. rewrite Hq. reflexivity.
    + exfalso.
      destruct (Hitem item (or_introl eq_refl)) as (_ & _ & p & Hp & Hid & Hc).
      apply Hc, (Hnone p Hp Hid).
Qed.

Lemma get_after_load_witness :
  exists item,
    QueryPapers.main (Fixtures.loaded Fixtures.two_categories) (get "0001")
    = Ok {| query_type := "paper_by_id";
            parameters := [("arxiv_id", VStr "0001")];
            results := Result (display item);
            count := 1 |} /\
    In item (Fixtures.loaded Fixtures.two_categories) /\
    get_or_none (display item) "arxiv_id" = VStr "0001".
Proof.
  assert (Hload : LoadDataMain.main Fixtures.two_categories
                  = Ok (Fixtures.loaded Fixtures.two_categories, 5))
    by (vm_compute; reflexivity).
  assert (Hfree : dates_hash_free Fixtures.two_categories)
    by (repeat constructor).
  apply (proj1 (get_after_load Fixtures.two_categories _ 5 "0001" Hload Hfree)).
  exists Fixtures.paper_0001.
  split; [left; reflexivity|]. split; [reflexivity | discriminate].
Defined.

End ByIdMore.

Section ByAuthorMore.

Import Keywords Spec LoadData Store Upsert Views QueryPapers.

Lemma lookup_project (ix : index) (k : string) (r : dict) :
  lookup k (project ix r) = if projected ix k then lookup k r else None.
Proof.
  unfold project. induction r as [|[k' v] r IH]; simpl.
  - destruct (projected ix k); reflexivity.
  - destruct (String.eqb_spec k' k) as [->|N].
    + destruct (projected ix k) eqn:P; simpl.
      * rewrite String.eqb_refl. reflexivity.
      * rewrite IH. rewrite ?P. reflexivity.
    + destruct (projected ix k'); simpl.
      * destruct (String.eqb_spec k' k); [contradiction | exact IH].
      * exact IH.
Qed.

(** X9.  The CLI's author listing never shows a paper's authors: the author
    index returns only [arxiv_id], [title], [categories], [published] and
    the key attributes, so every printed record has [authors] null, whatever
    the table holds. *)
Theorem author_listing_hides_authors (tbl : table) (author_name : string) :
  exists l,
    QueryPapers.main tbl (author author_name)
    = Ok {| query_type := "papers_by_author";
            parameters := [("author_name", VStr author_name)];
            results := Results l;
            count := List.length l |} /\
    forall d, In d l ->
      get_or_none d "authors" = VNone /\
      keys d = ["arxiv_id"; "title"; "authors"; "published"; "categories"].
Proof.
  destruct (query_unlimited tbl AuthorIndex ("AUTHOR#" ++ author_name) None)
    as (items & Hq & _ & Hin).
  exists (map display items).
  unfold QueryPapers.main, query_papers_by_author. rewrite Hq. simpl.
  split; [reflexivity|].
  intros d Hd. apply in_map_iff in Hd as (item & <- & Hi).
  apply Hin in Hi as (r & _ & _ & ->). split; [|reflexivity].
  unfold display, get_or_none at 1. simpl.
  unfold get_or_none. rewrite lookup_project. reflexivity.
Qed.

Lemma author_by_author (w : row) (author pk : string) :
  key_condition AuthorIndex pk None (author_view w author)
  = String.eqb ("AUTHOR#" ++ author) pk.
Proof. unfold key_condition. simpl. apply andb_true_r. Qed.

Lemma category_by_author (w : row) (cat pk : string) :
  key_condition AuthorIndex pk None (category_view w cat) = false.
Proof. reflexivity. Qed.

Lemma keyword_by_author (w : row) (kw pk : string) :
  key_condition AuthorIndex pk None (keyword_view w kw) = false.
Proof. reflexivity. Qed.

Lemma author_index_records (papers : list Paper.t) (tbl : table) (n : nat)
  (a : string) (r : dict) :
  LoadDataMain.main papers = Ok (tbl, n) -> In r tbl ->
  key_condition AuthorIndex ("AUTHOR#" ++ a) None r = true ->
  exists p id text,
    In p papers /\ Paper.arxiv_id p = Some id /\
    Paper.abstract p = Some text /\
    In a (LoadData.get (Paper.authors p) []) /\
    r = author_view (row_of p id text) a.
Proof.
  intros H Hr Hc.
  destruct (loaded_record papers tbl n r H Hr)
    as (p & id & text & Hp & Hid & Habs & Hv).
  apply view_cases in Hv.
  destruct Hv as [(x & Hx & ->)|[(x & Hx & ->)|(x & Hx & ->)]].
  - rewrite category_by_author in Hc. discriminate.
  - rewrite author_by_author in Hc. apply String.eqb_eq in Hc.
    apply (append_cancel_l "AUTHOR#") in Hc. subst x.
    exists p, id, text. auto.
  - rewrite keyword_by_author in Hc. discriminate.
Qed.

(** X10.  After a load of papers whose dates contain no ["#"], the CLI's
    [author <name>] lists exactly papers that name that author: every printed
    record carries the [arxiv_id] of a loaded paper with the author, and
    every loaded paper with the author is printed with its [arxiv_id] and
    [published]. *)
Theorem author_after_load (papers : list Paper.t) (tbl : table) (n : nat)
  (a : string) :
  LoadDataMain.main papers = Ok (tbl, n) ->
  dates_hash_free papers ->
  exists l,
    QueryPapers.main tbl (author a)
    = Ok {| query_type := "papers_by_author";
            parameters := [("author_name", VStr a)];
            results := Results l;
            count := List.length l |} /\
    (forall d, In d l ->
       exists p id,
         In p papers /\ Paper.arxiv_id p = Some id /\
         In a (LoadData.get (Paper.authors p) []) /\
         get_or_none d "arxiv_id" = VStr id) /\
    (forall p id,
       In p papers -> Paper.arxiv_id p = Some id ->
       In a (LoadData.get (Paper.authors p) []) ->
       exists d,
         In d l /\ get_or_none d "arxiv_id" = VStr id /\
         get_or_none d "published"
         = VStr (LoadData.get (Paper.published p) "")).
Proof.
  intros H Hfree.
  destruct (query_unlimited tbl AuthorIndex ("AUTHOR#" ++ a) None)
    as (items & Hq & _ & Hin).
  exists (map display items).
  unfold QueryPapers.main, query_papers_by_author. rewrite Hq. simpl.
  split; [reflexivity|]. split.
  - intros d Hd. apply in_map_iff in Hd as (item & <- & Hi).
    apply Hin in Hi as (r & Hr & Hc & ->).
    destruct (author_index_records papers tbl n a r H Hr Hc)
      as (p & id & text & Hp & Hid & Habs & Ha & ->).
    exists p, id. repeat split; auto.
  - intros p id Hp Hid Ha.
    destruct (loaded_table papers tbl n H) as [Hacc _].
    destruct (accepted_In papers p Hacc Hp) as (id0 & text & Hid0 & Habs).
    assert (id0 = id) by congruence. subst id0.
    assert (Hv : In (author_view (row_of p id text) a)
                   (views_of (row_of p id text))).
    { apply view_cases. right. left. exists a. split; [exact Ha | reflexivity]. }
    destruct (loaded_present papers tbl n p id text _ H Hp Hid Habs Hv)
      as (r' & Hr' & Ek).
    destruct (loaded_record papers tbl n r' H Hr')
      as (p' & id' & text' & Hp' & Hid' & Habs' & Hv').
    unfold dates_hash_free in Hfree. rewrite Forall_forall in Hfree.
    apply view_cases in Hv'.
    destruct Hv' as [(x & Hx & ->)|[(x & Hx & ->)|(x & Hx & ->)]];
      rewrite author_key in Ek;
      rewrite ?category_key, ?author_key, ?keyword_key in Ek;
      try discriminate.
    injection Ek as Ea Ek. simpl in Ek.
    apply sort_key_split in Ek as [Epub Eid];
      [| apply (Hfree p' Hp') | apply (Hfree p Hp)].
    simpl in Epub, Eid.
    exists (display (project AuthorIndex (author_view (row_of p' id' text') x))).
    split.
    + apply in_map. apply Hin.
      exists (author_view (row_of p' id' text') x).
      split; [exact Hr'|]. split; [|reflexivity].
      rewrite author_by_author. apply String.eqb_eq.
      change ("AUTHOR#" ++ x)%string with (String "A" (String "U" (String "T"
        (String "H" (String "O" (String "R" (String "#" x))))))).
      rewrite Ea. reflexivity.
    + split; simpl; [rewrite Eid | rewrite Epub]; reflexivity.
Qed.

Lemma author_after_load_witness :
  exists l,
    QueryPapers.main (Fixtures.loaded Fixtures.two_papers)
      (author "Ada Lovelace")
    = Ok {| query_type := "papers_by_author";
            parameters := [("author_name", VStr "Ada Lovelace")];
            results := Results l;
            count := List.length l |} /\
    exists d, In d l /\ get_or_none d "arxiv_id" = VStr "0002" /\
              get_or_none d "published" = VStr "2024-01-02".
Proof.
  assert (Hload : LoadDataMain.main Fixtures.two_papers
                  = Ok (Fixtures.loaded Fixtures.two_papers, 8))
    by (vm_compute; reflexivity).
  assert (Hfree : dates_hash_free Fixtures.two_papers)
    by (repeat constructor).
  destruct (author_after_load Fixtures.two_papers _ 8 "Ada Lovelace"
              Hload Hfree) as (l & E & _ & Hall).
  exists l. split; [exact E|].
  apply (Hall (Fixtures.paper "0002" "2024-01-02" ["cs.LG"]) "0002").
  - right. left. reflexivity.
  - reflexivity.
  - left. reflexivity.
Defined.

End ByAuthorMore.

Section ByKeywordMore.

Import Keywords Spec LoadData Store Upsert Views QueryPapers.

Lemma keyword_by_keyword (w : row) (kw pk : string) :
  key_condition KeywordIndex pk None (keyword_view w kw)
  = String.eqb ("KEYWORD#" ++ kw) pk.
Proof. unfold key_condition. simpl. apply andb_true_r. Qed.

Lemma category_by_keyword (w : row) (cat pk : string) :
  key_condition KeywordIndex pk None (category_view w cat) = false.
Proof. reflexivity. Qed.

Lemma author_by_keyword (w : row) (author pk : string) :
  key_condition KeywordIndex pk None (author_view w author) = false.
Proof. reflexivity. Qed.

Lemma keyword_index_records (papers : list Paper.t) (tbl : table) (n : nat)
  (kw : string) (r : dict) :
  LoadDataMain.main papers = Ok (tbl, n) -> In r tbl ->
  key_condition KeywordIndex ("KEYWORD#" ++ kw) None r = true ->
  exists p id text,
    In p papers /\ Paper.arxiv_id p = Some id /\
    Paper.abstract p = Some text /\
    In kw (extract_keywords text 10) /\
    r = keyword_view (row_of p id text) kw.
Proof.
  intros H Hr Hc.
  destruct (loaded_record papers tbl n r H Hr)
    as (p & id & text & Hp & Hid & Habs & Hv).
  apply view_cases in Hv.
  destruct Hv as [(x & Hx & ->)|[(x & Hx & ->)|(x & Hx & ->)]].
  - rewrite category_by_keyword in Hc. discriminate.
  - rewrite author_by_keyword in Hc. discriminate.
  - rewrite keyword_by_keyword in Hc. apply String.eqb_eq in Hc.
    apply (append_cancel_l "KEYWORD#") in Hc. subst x.
    exists p, id, text. auto.
Qed.

(** X11.  After a load, the CLI's [keyword <kw>], for an ASCII keyword (where
    [lower] is [str.lower]), looks the keyword up in lowercase and prints at most 10 records, whatever [--limit] says; each
    carries the [arxiv_id] of a loaded paper whose extracted keywords contain
    the lowercased keyword, and shows [authors] as null; and the listing is
    not empty when some loaded paper has the keyword. *)
Theorem keyword_after_load (papers : list Paper.t) (tbl : table) (n : nat)
  (q : string) (limit : option Z) :
  LoadDataMain.main papers = Ok (tbl, n) ->
  is_ascii q = true ->
  exists l,
    QueryPapers.main tbl (keyword q limit)
    = Ok {| query_type := "papers_by_keyword";
            parameters := [("keyword", VStr q);
                           ("limit", VInt (args_limit limit))];
            results := Results l;
            count := List.length l |} /\
    List.length l <= 10 /\
    (forall d, In d l ->
       get_or_none d "authors" = VNone /\
       exists p id text,
         In p papers /\ Paper.arxiv_id p = Some id /\
         Paper.abstract p = Some text /\
         In (lower q) (extract_keywords text 10) /\
         get_or_none d "arxiv_id" = VStr id) /\
    ((exists p text,
        In p papers /\ Paper.abstract p = Some text /\
        In (lower q) (extract_keywords text 10)) ->
     l <> []).
Proof.
  intros H _.
  destruct (query_limited tbl KeywordIndex ("KEYWORD#" ++ lower q) 10)
    as (items & Hq & Hlen & Hin); [lia|].
  exists (map display items).
  unfold QueryPapers.main, query_papers_by_keyword. rewrite Hq. simpl.
  split; [reflexivity|]. split; [|split].
  - rewrite length_map, Hlen. apply Nat.le_min_l.
  - intros d Hd. apply in_map_iff in Hd as (item & <- & Hi).
    apply Hin in Hi as (r & Hr & Hc & ->).
    destruct (keyword_index_records papers tbl n (lower q) r H Hr Hc)
      as (p & id & text & Hp & Hid & Habs & Hkw & ->).
    split; [reflexivity|]. exists p, id, text. repeat split; auto.
  - intros (p & text & Hp & Habs & Hkw) Hnil.
    apply map_eq_nil in Hnil. subst items. simpl in Hlen.
    destruct (loaded_table papers tbl n H) as [Hacc _].
    destruct (accepted_In papers p Hacc Hp) as (id & text0 & Hid & Habs0).
    assert (text0 = text) by congruence. subst text0.
    assert (Hv : In (keyword_view (row_of p id text) (lower q))
                   (views_of (row_of p id text))).
    { apply view_cases. right. right. exists (lower q).
      split; [exact Hkw | reflexivity]. }
    destruct (loaded_present papers tbl n p id text _ H Hp Hid Habs Hv)
      as (r' & Hr' & Ek).
    destruct (loaded_record papers tbl n r' H Hr')
      as (p' & id' & text' & Hp' & Hid' & Habs' & Hv').
    assert (Hc : key_condition KeywordIndex ("KEYWORD#" ++ lower q) None r'
                 = true).
    { apply view_cases in Hv'.
      destruct Hv' as [(x & Hx & ->)|[(x & Hx & ->)|(x & Hx & ->)]];
        rewrite keyword_key in Ek;
        rewrite ?category_key, ?author_key, ?keyword_key in Ek;
        try discriminate.
      injection Ek as Ea _.
      rewrite keyword_by_keyword. apply String.eqb_eq.
      change ("KEYWORD#" ++ x)%string with (String "K" (String "E" (String "Y"
        (String "W" (String "O" (String "R" (String "D" (String "#" x)))))))).
      rewrite Ea. reflexivity. }
    assert (Hf : In r' (filter (key_condition KeywordIndex
                                 ("KEYWORD#" ++ lower q) None) tbl))
      by (apply filter_In; auto).
    destruct (filter _ tbl); [destruct Hf | discriminate].
Qed.

Lemma keyword_after_load_witness :
  exists l,
    QueryPapers.main (Fixtures.loaded Fixtures.two_papers)
      (keyword "CACHE" (Some 1%Z))
    = Ok {| query_type := "papers_by_keyword";
            parameters := [("keyword", VStr "CACHE"); ("limit", VInt 1)];
            results := Results l;
            count := List.length l |} /\
    List.length l <= 10 /\ l <> [].
Proof.
  assert (Hload : LoadDataMain.main Fixtures.two_papers
                  = Ok (Fixtures.loaded Fixtures.two_papers, 8))
    by (vm_compute; reflexivity).
  destruct (keyword_after_load Fixtures.two_papers _ 8 "CACHE" (Some 1%Z)
              Hload eq_refl) as (l & E & L & _ & Hne).
  exists l. split; [exact E|]. split; [exact L|].
  apply Hne.
  exists (Fixtures.paper "0001" "2024-01-01" ["cs.LG"]),
    "cache cache lock lock cache".
  split; [left; reflexivity|]. split; [reflexivity|].
  vm_compute. left. reflexivity.
Defined.

End ByKeywordMore.

Section ByCategoryMore.

Import Keywords Spec LoadData Store Upsert Views QueryPapers.

Lemma category_by_category (w : row) (cat pk : string)
  (rng : option (string * string)) :
  key_condition Primary pk rng (category_view w cat)
  = String.eqb ("CATEGORY#" ++ cat) pk &&
    match rng with
    | Some (lo, hi) =>
        String.leb lo (row_published w ++ "#" ++ row_id w) &&
        String.leb (row_published w ++ "#" ++ row_id w) hi
    | None => true
    end.
Proof. reflexivity. Qed.

Lemma author_by_category (w : row) (author cat : string)
  (rng : option (string * string)) :
  key_condition Primary ("CATEGORY#" ++ cat) rng (author_view w author) = false.
Proof. reflexivity. Qed.

Lemma keyword_by_category (w : row) (kw cat : string)
  (rng : option (string * string)) :
  key_condition Primary ("CATEGORY#" ++ cat) rng (keyword_view w kw) = false.
Proof. reflexivity. Qed.

Lemma category_records (papers : list Paper.t) (tbl : table) (n : nat)
  (cat : string) (rng : option (string * string)) (r : dict) :
  LoadDataMain.main papers = Ok (tbl, n) -> In r tbl ->
  key_condition Primary ("CATEGORY#" ++ cat) rng r = true ->
  exists p id text,
    In p papers /\ Paper.arxiv_id p = Some id /\
    Paper.abstract p = Some text /\
    In cat (LoadData.get (Paper.categories p) []) /\
    r = category_view (row_of p id text) cat.
Proof.
  intros H Hr Hc.
  destruct (loaded_record papers tbl n r H Hr)
    as (p & id & text & Hp & Hid & Habs & Hv).
  apply view_cases in Hv.
  destruct Hv as [(x & Hx & ->)|[(x & Hx & ->)|(x & Hx & ->)]].
  - rewrite category_by_category in Hc.
    apply andb_true_iff in Hc as [Hc _]. apply String.eqb_eq in Hc.
    apply (append_cancel_l "CATEGORY#") in Hc. subst x.
    exists p, id, text. auto.
  - rewrite author_by_category in Hc. discriminate.
  - rewrite keyword_by_category in Hc. discriminate.
Qed.

(** The category record stored under a paper's key. *)
Lemma category_stored (papers : list Paper.t) (tbl : table) (n : nat)
  (p : Paper.t) (id cat : string) :
  LoadDataMain.main papers = Ok (tbl, n) ->
  In p papers -> Paper.arxiv_id p = Some id ->
  In cat (LoadData.get (Paper.categories p) []) ->
  exists p' id' text',
    In p' papers /\ Paper.arxiv_id p' = Some id' /\
    In (category_view (row_of p' id' text') cat) tbl /\
    (LoadData.get (Paper.published p') "" ++ "#" ++ id')%string
    = (LoadData.get (Paper.published p) "" ++ "#" ++ id)%string.
Proof.
  intros H Hp Hid Hcat.
  destruct (loaded_table papers tbl n H) as [Hacc _].
  destruct (accepted_In papers p Hacc Hp) as (id0 & text & Hid0 & Habs).
  assert (id0 = id) by congruence. subst id0.
  assert (Hv : In (category_view (row_of p id text) cat)
                 (views_of (row_of p id text))).
  { apply view_cases. left. exists cat. split; [exact Hcat | reflexivity]. }
  destruct (loaded_present papers tbl n p id text _ H Hp Hid Habs Hv)
    as (r' & Hr' & Ek).
  destruct (loaded_record papers tbl n r' H Hr')
    as (p' & id' & text' & Hp' & Hid' & Habs' & Hv').
  apply view_cases in Hv'.
  destruct Hv' as [(x & Hx & ->)|[(x & Hx & ->)|(x & Hx & ->)]];
    rewrite category_key in Ek;
    rewrite ?category_key, ?author_key, ?keyword_key in Ek;
    try discriminate.
  injection Ek as Ec Ek. simpl in Ek.
  assert (x = cat).
  { apply (append_cancel_l "CATEGORY#"). simpl. rewrite Ec. reflexivity. }
  subst x. exists p', id', text'. auto.
Qed.

Lemma upper_sound (end_date published id : string) :
  sortable_date end_date = true -> sortable_date published = true ->
  String.leb (published ++ "#" ++ id) (end_date ++ "#zzzzzzz") = true ->
  String.leb published end_date = true.
Proof.
  intros He Hp. unfold String.leb.
  change (published ++ "#" ++ id)%string with (published ++ String "#" id)%string.
  change (end_date ++ "#zzzzzzz")%string
    with (end_date ++ String "#" "zzzzzzz")%string.
  rewrite (compare_dated published end_date id "zzzzzzz" Hp He).
  destruct (String.compare published end_date); auto.
Qed.

(** X12.  After a load of papers whose dates sort above ["#"], the CLI's
    [daterange <cat> <start> <end>] prints only papers of the category dated
    within [start, end], whatever their ids; and it prints every such paper
    whose id is not above ["zzzzzzz"]. *)
Theorem daterange_after_load (papers : list Paper.t) (tbl : table) (n : nat)
  (cat start_date end_date : string) :
  LoadDataMain.main papers = Ok (tbl, n) ->
  dates_sortable papers ->
  sortable_date start_date = true ->
  sortable_date end_date = true ->
  exists l,
    QueryPapers.main tbl (daterange cat start_date end_date)
    = Ok {| query_type := "papers_in_date_range";
            parameters := [("category", VStr cat);
                           ("start_date", VStr start_date);
                           ("end_date", VStr end_date)];
            results := Results l;
            count := List.length l |} /\
    (forall d, In d l ->
       exists p id,
         In p papers /\ Paper.arxiv_id p = Some id /\
         In cat (LoadData.get (Paper.categories p) []) /\
         get_or_none d "arxiv_id" = VStr id /\
         get_or_none d "published"
         = VStr (LoadData.get (Paper.published p) "") /\
         String.leb start_date (LoadData.get (Paper.published p) "") = true /\
         String.leb (LoadData.get (Paper.published p) "") end_date = true) /\
    (forall p id,
       In p papers -> Paper.arxiv_id p = Some id ->
       In cat (LoadData.get (Paper.categories p) []) ->
       String.leb id "zzzzzzz" = true ->
       String.leb start_date (LoadData.get (Paper.published p) "") = true ->
       String.leb (LoadData.get (Paper.published p) "") end_date = true ->
       exists d,
         In d l /\ get_or_none d "arxiv_id" = VStr id /\
         get_or_none d "published"
         = VStr (LoadData.get (Paper.published p) "")).
Proof.
  intros H Hdates Hs He.
  unfold dates_sortable in Hdates. rewrite Forall_forall in Hdates.
  destruct (query_unlimited tbl Primary ("CATEGORY#" ++ cat)
              (Some ((start_date ++ "#")%string,
                     (end_date ++ "#zzzzzzz")%string)))
    as (items & Hq & _ & Hin).
  exists (map display items).
  unfold QueryPapers.main, query_papers_in_date_range. rewrite Hq. simpl.
  split; [reflexivity|]. split.
  - intros d Hd. apply in_map_iff in Hd as (item & <- & Hi).
    apply Hin in Hi as (r & Hr & Hc & ->).
    rewrite project_all by discriminate.
    destruct (category_records papers tbl n cat _ r H Hr Hc)
      as (p & id & text & Hp & Hid & Habs & Hcat & ->).
    rewrite category_by_category in Hc.
    apply andb_true_iff in Hc as [_ Hc].
    apply andb_true_iff in Hc as [Hlo Hhi]. simpl in Hlo, Hhi.
    pose proof (Hdates p Hp) as Hpub.
    exists p, id. repeat split; auto.
    + rewrite <- (lower_bound start_date _ id Hs Hpub). exact Hlo.
    + apply (upper_sound end_date _ id He Hpub). exact Hhi.
  - intros p id Hp Hid Hcat Hidz Hlo Hhi.
    destruct (category_stored papers tbl n p id cat H Hp Hid Hcat)
      as (p' & id' & text' & Hp' & Hid' & Hr' & Ek).
    pose proof (Hdates p Hp) as Hpub. pose proof (Hdates p' Hp') as Hpub'.
    apply sort_key_split in Ek as [Epub Eid];
      [| apply sortable_hash_free, Hpub' | apply sortable_hash_free, Hpub].
    subst id'.
    exists (display (category_view (row_of p' id text') cat)). split.
    + apply in_map. apply Hin.
      exists (category_view (row_of p' id text') cat).
      split; [exact Hr'|]. split; [|rewrite project_all by discriminate; reflexivity].
      rewrite category_by_category, String.eqb_refl.
      change (row_published (row_of p' id text'))
        with (LoadData.get (Paper.published p') "").
      change (row_id (row_of p' id text')) with id.
      rewrite Epub.
      rewrite (lower_bound start_date _ id Hs Hpub), Hlo.
      rewrite (upper_bound end_date _ id He Hpub Hidz), Hhi. reflexivity.
    + split; [reflexivity|]. rewrite <- Epub. reflexivity.
Qed.

Lemma daterange_after_load_witness :
  exists l,
    QueryPapers.main (Fixtures.loaded Fixtures.two_papers)
      (daterange "cs.LG" "2024-01-02" "2024-01-02")
    = Ok {| query_type := "papers_in_date_range";
            parameters := [("category", VStr "cs.LG");
                           ("start_date", VStr "2024-01-02");
                           ("end_date", VStr "2024-01-02")];
            results := Results l;
            count := List.length l |} /\
    exists d, In d l /\ get_or_none d "arxiv_id" = VStr "0002" /\
              get_or_none d "published" = VStr "2024-01-02".
Proof.
  assert (Hload : LoadDataMain.main Fixtures.two_papers
                  = Ok (Fixtures.loaded Fixtures.two_papers, 8))
    by (vm_compute; reflexivity).
  assert (Hdates : dates_sortable Fixtures.two_papers)
    by (repeat constructor).
  destruct (daterange_after_load Fixtures.two_papers _ 8 "cs.LG"
              "2024-01-02" "2024-01-02" Hload Hdates eq_refl eq_refl)
    as (l & E & _ & Hall).
  exists l. split; [exact E|].
  apply (Hall (Fixtures.paper "0002" "2024-01-02" ["cs.LG"]) "0002").
  - right. left. reflexivity.
  - reflexivity.
  - left. reflexivity.
  - reflexivity.
  - reflexivity.
  - reflexivity.
Defined.

(** X13.  After a load, the CLI's [recent <cat>] prints at most 10 records,
    whatever [--limit] says; each is a paper whose [categories] contain the
    category; and the listing is not empty when some loaded paper is in the
    category. *)
Theorem recent_after_load (papers : list Paper.t) (tbl : table) (n : nat)
  (cat : string) (limit : option Z) :
  LoadDataMain.main papers = Ok (tbl, n) ->
  exists l,
    QueryPapers.main tbl (recent cat limit)
    = Ok {| query_type := "recent_in_category";
            parameters := [("category", VStr cat);
                           ("limit", VInt (args_limit limit))];
            results := Results l;
            count := List.length l |} /\
    List.length l <= 10 /\
    (forall d, In d l ->
       exists p id cats,
         In p papers /\ Paper.arxiv_id p = Some id /\
         get_or_none d "arxiv_id" = VStr id /\
         get_or_none d "categories" = VList cats /\ In cat cats) /\
    ((exists p, In p papers /\ In cat (LoadData.get (Paper.categories p) [])) ->
     l <> []).
Proof.
  intros H.
  destruct (query_limited tbl Primary ("CATEGORY#" ++ cat) 10)
    as (items & Hq & Hlen & Hin); [lia|].
  exists (map display items).
  unfold QueryPapers.main, query_recent_in_category. rewrite Hq. simpl.
  split; [reflexivity|]. split; [|split].
  - rewrite length_map, Hlen. apply Nat.le_min_l.
  - intros d Hd. apply in_map_iff in Hd as (item & <- & Hi).
    apply Hin in Hi as (r & Hr & Hc & ->).
    rewrite project_all by discriminate.
    destruct (category_records papers tbl n cat None r H Hr Hc)
      as (p & id & text & Hp & Hid & Habs & Hcat & ->).
    exists p, id, (LoadData.get (Paper.categories p) []). repeat split; auto.
  - intros (p & Hp & Hcat) Hnil.
    apply map_eq_nil in Hnil. subst items. simpl in Hlen.
    destruct (loaded_table papers tbl n H) as [Hacc _].
    destruct (accepted_In papers p Hacc Hp) as (id & text & Hid & Habs).
    destruct (category_stored papers tbl n p id cat H Hp Hid Hcat)
      as (p' & id' & text' & Hp' & Hid' & Hr' & _).
    assert (Hf : In (category_view (row_of p' id' text') cat)
                   (filter (key_condition Primary ("CATEGORY#" ++ cat) None) tbl)).
    { apply filter_In. split; [exact Hr'|].
      rewrite category_by_category, String.eqb_refl. reflexivity. }
    destruct (filter _ tbl); [destruct Hf | discriminate].
Qed.

Lemma recent_after_load_witness :
  exists l,
    QueryPapers.main (Fixtures.loaded Fixtures.three_papers)
      (recent "cs.LG" (Some 2%Z))
    = Ok {| query_type := "recent_in_category";
            parameters := [("category", VStr "cs.LG"); ("limit", VInt 2)];
            results := Results l;
            count := List.length l |} /\
    List.length l <= 10 /\ l <> [].
Proof.
  assert (Hload : LoadDataMain.main Fixtures.three_papers
                  = Ok (Fixtures.loaded Fixtures.three_papers, 12))
    by (vm_compute; reflexivity).
  destruct (recent_after_load Fixtures.three_papers _ 12 "cs.LG" (Some 2%Z)
              Hload) as (l & E & L & _ & Hne).
  exists l. split; [exact E|]. split; [exact L|].
  apply Hne. exists (Fixtures.paper "0001" "2024-01-01" ["cs.LG"]).
  split; left; reflexivity.
Defined.

End ByCategoryMore.

(** ** Outcomes of the CLI and of the HTTP server *)

Section Outcomes.

Import Keywords Spec LoadData Store Upsert Views QueryPapers ApiServer.

Lemma display_keys (item : dict) :
  keys (display item)
  = ["arxiv_id"; "title"; "authors"; "published"; "categories"].
Proof. reflexivity. Qed.

Lemma query_limit_10 (tbl : table) (ix : index) (pk : string) :
  exists items, query tbl ix pk None false (Some 10%Z) = Ok items.
Proof.
  destruct (query_limited tbl ix pk 10) as (items & Hq & _); [lia|].
  exists items. exact Hq.
Qed.

(** X14.  On any table the CLI either prints a document whose results are
    display records (the five display attributes, no key attribute) with a
    matching count (the number of results of a listing, 1 for [get]), or the
    command is [get] and it raises [AttributeError]: the four listings never
    fail, whatever [--limit] is. *)
Theorem cli_outcomes (tbl : table) (a : args) :
  (exists o,
     QueryPapers.main tbl a = Ok o /\
     match results o with
     | Results l =>
         count o = List.length l /\
         forall d, In d l ->
           keys d = ["arxiv_id"; "title"; "authors"; "published"; "categories"] /\
           exposes_key_field d = false
     | Result d =>
         count o = 1 /\
         keys d = ["arxiv_id"; "title"; "authors"; "published"; "categories"] /\
         exposes_key_field d = false
     end) \/
  (exists id,
     a = get id /\
     QueryPapers.main tbl a
     = Raise (AttributeError "'list' object has no attribute 'get'")).
Proof.
  assert (Hshape : forall items d, In d (map display items) ->
            keys d = ["arxiv_id"; "title"; "authors"; "published"; "categories"] /\
            exposes_key_field d = false).
  { intros items d Hd. apply in_map_iff in Hd as (item & <- & _).
    split; reflexivity. }
  destruct a as [category limit|author_name|id|category s e|kw limit].
  - left. destruct (query_limit_10 tbl Primary ("CATEGORY#" ++ category))
      as (items & Hq).
    unfold QueryPapers.main, query_recent_in_category. rewrite Hq. simpl.
    eexists. split; [reflexivity|]. simpl. split; [reflexivity | apply Hshape].
  - left. destruct (query_unlimited tbl AuthorIndex ("AUTHOR#" ++ author_name) None)
      as (items & Hq & _).
    unfold QueryPapers.main, query_papers_by_author. rewrite Hq. simpl.
    eexists. split; [reflexivity|]. simpl. split; [reflexivity | apply Hshape].
  - destruct (query_unlimited tbl PaperIdIndex ("ARXIV_ID#" ++ id) None)
      as (items & Hq & _).
    unfold QueryPapers.main, get_paper_by_id. rewrite Hq. simpl.
    destruct items as [|item items].
    + right. exists id. split; reflexivity.
    + left. eexists. split; [reflexivity|]. simpl. repeat split.
  - left. destruct (query_unlimited tbl Primary ("CATEGORY#" ++ category)
                      (Some ((s ++ "#")%string, (e ++ "#zzzzzzz")%string)))
      as (items & Hq & _).
    unfold QueryPapers.main, query_papers_in_date_range. rewrite Hq. simpl.
    eexists. split; [reflexivity|]. simpl. split; [reflexivity | apply Hshape].
  - left. destruct (query_limit_10 tbl KeywordIndex ("KEYWORD#" ++ lower kw))
      as (items & Hq).
    unfold QueryPapers.main, query_papers_by_keyword. rewrite Hq. simpl.
    eexists. split; [reflexivity|]. simpl. split; [reflexivity | apply Hshape].
Qed.

(** X15.  Every answer of the HTTP server is one of three: status 200 with a
    non-empty [papers] list (and, on every route but [/papers/<id>], a count
    equal to the length of that list and records without key attributes);
    status 404 with an error message; or status 500 with the message
    ["Server errors"]. *)
Theorem do_GET_outcomes (tbl : table) (req : request) :
  (status (do_GET tbl req) = 200 /\
   exists l,
     l <> [] /\ In ("papers", JPapers l) (body (do_GET tbl req)) /\
     ((forall id, req <> papers_id id) ->
      In ("count", JNat (List.length l)) (body (do_GET tbl req)) /\
      forall d, In d l -> exposes_key_field d = false)) \/
  (status (do_GET tbl req) = 404 /\
   exists msg, body (do_GET tbl req) = [("error", JStr msg)]) \/
  (status (do_GET tbl req) = 500 /\
   body (do_GET tbl req) = [("error", JStr "Server errors")]).
Proof.
  assert (H404 : forall msg,
            status (_send_error 404 msg) = 404 /\
            exists m, body (_send_error 404 msg) = [("error", JStr m)]).
  { intros msg. split; [reflexivity|]. exists msg. reflexivity. }
  destruct req as [category limit|category s e|author_name|kw limit|id|];
    unfold do_GET.
  - unfold handle_recent. destruct (missing category); [right; left; apply H404|].
    destruct (query tbl Primary ("CATEGORY#" ++ text category) None false
                (Some (limit_param limit))) as [[|it items]|ex]; simpl.
    + right. left. apply H404.
    + left. split; [reflexivity|]. eexists. split; [|split].
      2:{ right; left; reflexivity. }
      * discriminate.
      * intros _. split; [right; right; left; reflexivity|].
        intros d [<-|Hd]; [reflexivity|].
        apply in_map_iff in Hd as (x & <- & _). reflexivity.
    + right. right. split; reflexivity.
  - unfold handle_search.
    destruct (missing category || missing s || missing e);
      [right; left; apply H404|].
    destruct (query tbl Primary ("CATEGORY#" ++ text category)
                (Some ((text s ++ "#")%string, (text e ++ "#zzzzzzz")%string))
                true None) as [[|it items]|ex]; simpl.
    + right. left. apply H404.
    + left. split; [reflexivity|]. eexists. split; [|split].
      2:{ do 3 right; left; reflexivity. }
      * discriminate.
      * intros _. split; [do 4 right; left; reflexivity|].
        intros d [<-|Hd]; [reflexivity|].
        apply in_map_iff in Hd as (x & <- & _). reflexivity.
    + right. right. split; reflexivity.
  - unfold handle_author.
    destruct (String.eqb author_name ""); [right; left; apply H404|].
    destruct (query tbl AuthorIndex ("AUTHOR#" ++ author_name) None true None)
      as [[|it items]|ex]; simpl.
    + right. left. apply H404.
    + left. split; [reflexivity|]. eexists. split; [|split].
      2:{ right; left; reflexivity. }
      * discriminate.
      * intros _. split; [right; right; left; reflexivity|].
        intros d [<-|Hd]; [reflexivity|].
        apply in_map_iff in Hd as (x & <- & _). reflexivity.
    + right. right. split; reflexivity.
  - unfold handle_keyword.
    destruct (String.eqb kw ""); [right; left; apply H404|].
    destruct (query tbl KeywordIndex ("KEYWORD#" ++ lower kw) None false
                (Some (limit_param limit))) as [[|it items]|ex]; simpl.
    + right. left. apply H404.
    + left. split; [reflexivity|]. eexists. split; [|split].
      2:{ right; left; reflexivity. }
      * discriminate.
      * intros _. split; [right; right; left; reflexivity|].
        intros d [<-|Hd]; [reflexivity|].
        apply in_map_iff in Hd as (x & <- & _). reflexivity.
    + right. right. split; reflexivity.
  - unfold handle_get_by_id.
    destruct (String.eqb id ""); [right; left; apply H404|].
    destruct (query tbl PaperIdIndex ("ARXIV_ID#" ++ id) None true None)
      as [[|it items]|ex]; simpl.
    + right. left. apply H404.
    + left. split; [reflexivity|]. eexists. split; [|split].
      2:{ right; left; reflexivity. }
      * discriminate.
      * intros Hn. exfalso. apply (Hn id). reflexivity.
    + right. right. split; reflexivity.
  - right. left. apply H404.
Qed.

(** X16.  On [/papers/recent] and [/papers/keyword/<kw>] with the parameter
    present, a limit below 1 is answered with status 500 (the store rejects
    the [Limit]); with a limit of at least 1 the answer is never 500, and a
    200 answer lists at most [limit] papers. *)
Theorem http_limit (tbl : table) (limit : option Z) :
  (forall category,
     category <> "" ->
     ((limit_param limit < 1)%Z ->
      do_GET tbl (papers_recent (Some category) limit)
      = _send_error 500 "Server errors") /\
     ((1 <= limit_param limit)%Z ->
      do_GET tbl (papers_recent (Some category) limit)
      = _send_error 404 "Invalid category" \/
      exists l,
        do_GET tbl (papers_recent (Some category) limit)
        = _send_json [ ("category", JStr category);
                       ("papers", JPapers l);
                       ("count", JNat (List.length l)) ] 200 /\
        List.length l <= Z.to_nat (limit_param limit))) /\
  (forall kw,
     kw <> "" ->
     ((limit_param limit < 1)%Z ->
      do_GET tbl (papers_keyword kw limit)
      = _send_error 500 "Server errors") /\
     ((1 <= limit_param limit)%Z ->
      do_GET tbl (papers_keyword kw limit)
      = _send_error 404 "Invalid keyword" \/
      exists l,
        do_GET tbl (papers_keyword kw limit)
        = _send_json [ ("keyword", JStr kw);
                       ("papers", JPapers l);
                       ("count", JNat (List.length l)) ] 200 /\
        List.length l <= Z.to_nat (limit_param limit))).
Proof.
  split.
  - intros category Hc. apply String.eqb_neq in Hc.
    unfold do_GET, handle_recent, missing, text. rewrite Hc. split.
    + intros Hlt. unfold query. apply Z.ltb_lt in Hlt. rewrite Hlt. reflexivity.
    + intros Hge.
      destruct (query_limited tbl Primary ("CATEGORY#" ++ category)
                  (limit_param limit) Hge) as (items & Hq & Hlen & _).
      rewrite Hq. simpl. destruct items as [|it items]; [left; reflexivity|].
      right. eexists. split; [reflexivity|].
      simpl. rewrite length_map. simpl in Hlen. rewrite Hlen.
      apply Nat.le_min_l.
  - intros kw Hk. apply String.eqb_neq in Hk.
    unfold do_GET, handle_keyword. rewrite Hk. split.
    + intros Hlt. unfold query. apply Z.ltb_lt in Hlt. rewrite Hlt. reflexivity.
    + intros Hge.
      destruct (query_limited tbl KeywordIndex ("KEYWORD#" ++ lower kw)
                  (limit_param limit) Hge) as (items & Hq & Hlen & _).
      rewrite Hq. simpl. destruct items as [|it items]; [left; reflexivity|].
      right. eexists. split; [reflexivity|].
      simpl. rewrite length_map. simpl in Hlen. rewrite Hlen.
      apply Nat.le_min_l.
Qed.

End Outcomes.

(** * The extractor against its specification *)

Section ExtractorSpec.

Import Keywords Spec Reference.

(** ** Characters *)

Lemma letter_head (c : ascii) : letter c = head_char c.
Proof. destruct c as [[] [] [] [] [] [] [] []]; vm_compute; reflexivity. Qed.

Lemma word_char_tail (c : ascii) : word_char c = tail_char c.
Proof. destruct c as [[] [] [] [] [] [] [] []]; vm_compute; reflexivity. Qed.

Lemma folds_to_lower_char (c : ascii) : folds_to c (lower_char c) = true.
Proof. destruct c as [[] [] [] [] [] [] [] []]; vm_compute; reflexivity. Qed.

Lemma ord_inj (c d : ascii) : ord c = ord d -> c = d.
Proof.
  unfold ord. intros H.
  rewrite <- (ascii_N_embedding c), <- (ascii_N_embedding d), H. reflexivity.
Qed.

Lemma folds_to_unique (c d d' : ascii) :
  folds_to c d = true -> folds_to c d' = true -> d = d'.
Proof.
  unfold folds_to. destruct (upper_letter c).
  - rewrite !N.eqb_eq. intros H H'. apply ord_inj. congruence.
  - rewrite !Ascii.eqb_eq. congruence.
Qed.

Lemma folds_to_iff (c d : ascii) : folds_to c d = true <-> lower_char c = d.
Proof.
  split.
  - intros H. apply (folds_to_unique c); [apply folds_to_lower_char | exact H].
  - intros <-. apply folds_to_lower_char.
Qed.

Lemma lowered_iff (w : string) : forall t, lowered w t = true <-> lower w = t.
Proof.
  induction w as [|c w IH]; intros [|d t]; simpl.
  - split; reflexivity.
  - split; discriminate.
  - split; discriminate.
  - rewrite andb_true_iff, folds_to_iff, IH. split.
    + intros [-> ->]. reflexivity.
    + intros [= -> ->]. split; reflexivity.
Qed.

Lemma lowered_lower (w : string) : lowered w (lower w) = true.
Proof. apply lowered_iff. reflexivity. Qed.

Lemma lower_fixed_char (c : ascii) :
  lower_char c = c ->
  (head_char c = true -> lower_letter c = true) /\
  (tail_char c = true -> lower_letter c || digit c || hyphen c = true).
Proof.
  destruct c as [[] [] [] [] [] [] [] []]; vm_compute; intros H;
    split; intros H'; solve [reflexivity | discriminate H | discriminate H'].
Qed.

Lemma every_lowercase (s : string) :
  lower s = s -> all_chars tail_char s = true ->
  every (fun d => lower_letter d || digit d || hyphen d) s = true.
Proof.
  induction s as [|c s IH]; simpl; [reflexivity|].
  intros [= Hc Hs] H. apply andb_true_iff in H as [Ht Hr].
  rewrite (proj2 (lower_fixed_char c Hc) Ht). simpl. apply IH; assumption.
Qed.

Lemma lowercase_token_of (t : string) :
  matches_TOKENIZER t = true -> lower t = t -> lowercase_token t = true.
Proof.
  destruct t as [|c t]; simpl; [discriminate|].
  intros H [= Hc Ht]. apply andb_true_iff in H as [Hh Hr].
  rewrite (proj1 (lower_fixed_char c Hc) Hh). simpl.
  apply every_lowercase; assumption.
Qed.

(** ** Tokens *)

Lemma append_nil_r (s : string) : (s ++ "")%string = s.
Proof. induction s as [|c s IH]; simpl; [reflexivity|]. rewrite IH. reflexivity. Qed.

Lemma append_assoc (a b c : string) :
  ((a ++ b) ++ c)%string = (a ++ b ++ c)%string.
Proof. induction a as [|x a IH]; simpl; [reflexivity|]. rewrite IH. reflexivity. Qed.

Lemma string_length_append (a b : string) :
  String.length (a ++ b) = String.length a + String.length b.
Proof. induction a as [|x a IH]; simpl; [reflexivity|]. rewrite IH. reflexivity. Qed.

(** A token in progress runs to the next boundary. *)
Lemma scan_run (s : string) :
  forall w0,
    exists w rest,
      s = (w ++ rest)%string /\ every word_char w = true /\ boundary rest /\
      scan (Some w0) s = (w0 ++ w)%string :: scan None rest.
Proof.
  induction s as [|c s IH]; intros w0.
  - exists EmptyString, EmptyString. simpl. rewrite append_nil_r. auto.
  - simpl. destruct (tail_char c) eqn:Hc.
    + destruct (IH (w0 ++ String c EmptyString)%string)
        as (w & rest & -> & Hw & Hb & Hs).
      exists (String c w), rest. simpl. rewrite word_char_tail, Hc, Hw, Hs.
      rewrite append_assoc. simpl. auto.
    + exists EmptyString, (String c s). simpl.
      rewrite append_nil_r, word_char_tail, Hc.
      assert (Hh : head_char c = false).
      { destruct (head_char c) eqn:E; [|reflexivity].
        apply head_is_tail in E. congruence. }
      rewrite Hh. auto.
Qed.

Lemma tokens_of_scan (n : nat) :
  forall s, String.length s <= n -> tokens_of s (scan None s).
Proof.
  induction n as [|n IH]; intros s Hn.
  - destruct s; [constructor | simpl in Hn; lia].
  - destruct s as [|c s]; [constructor|]. simpl in *.
    destruct (head_char c) eqn:Hc.
    + destruct (scan_run s (String c EmptyString))
        as (w & rest & -> & Hw & Hb & Hs).
      rewrite Hs. simpl.
      apply tokens_token; [rewrite letter_head; exact Hc | exact Hw | exact Hb |].
      apply IH. rewrite string_length_append in Hn. lia.
    + apply tokens_skip; [rewrite letter_head; exact Hc|].
      apply IH. lia.
Qed.

Lemma tokens_of_findall (text : string) :
  tokens_of text (TOKENIZER_findall text).
Proof. apply (tokens_of_scan (String.length text)). lia. Qed.

Lemma run_unique (w : string) :
  forall w' rest rest',
    every word_char w = true -> boundary rest ->
    every word_char w' = true -> boundary rest' ->
    (w ++ rest)%string = (w' ++ rest')%string ->
    w = w' /\ rest = rest'.
Proof.
  induction w as [|c w IH]; intros [|c' w'] rest rest' Hw Hb Hw' Hb' E;
    simpl in *.
  - auto.
  - subst rest. simpl in Hb. apply andb_true_iff in Hw' as [Hc _]. congruence.
  - subst rest'. simpl in Hb'. apply andb_true_iff in Hw as [Hc _]. congruence.
  - injection E as -> E.
    apply andb_true_iff in Hw as [_ Hw]. apply andb_true_iff in Hw' as [_ Hw'].
    destruct (IH w' rest rest' Hw Hb Hw' Hb' E) as [-> ->]. auto.
Qed.

(** A text has one sequence of tokens. *)
Lemma tokens_of_unique (s : string) (ts : list string) :
  tokens_of s ts -> forall ts', tokens_of s ts' -> ts = ts'.
Proof.
  induction 1 as [|c s ts Hc _ IH|c w rest ts Hc Hw Hb _ IH]; intros ts' H'.
  - inversion H'. reflexivity.
  - inversion H' as [|c' s' ts0 Hc' Hs'|c' w' rest' ts0 Hc' Hw' Hb' Hs' E];
      subst.
    + apply IH, Hs'.
    + congruence.
  - inversion H' as [|c' s' ts0 Hc' Hs' E|c' w' rest' ts0 Hc' Hw' Hb' Hs' E];
      subst.
    + congruence.
    + destruct (run_unique w w' rest rest' Hw Hb Hw' Hb') as [-> ->];
        [congruence|].
      f_equal. apply IH, Hs'.
Qed.

(** ** Frequency and first occurrence *)

Lemma frequency_occurrences (toks : list string) (t : string) :
  frequency toks t = occurrences t (map lower toks).
Proof.
  unfold frequency, occurrences.
  induction toks as [|w toks IH]; simpl; [reflexivity|].
  destruct (lowered w t) eqn:E.
  - apply lowered_iff in E. destruct (string_dec (lower w) t); [|contradiction].
    simpl. rewrite IH. reflexivity.
  - destruct (string_dec (lower w) t) as [El|_]; [|exact IH].
    apply lowered_iff in El. congruence.
Qed.

Lemma first_seen_index (toks : list string) (t : string) :
  first_seen toks t = first_index t (map lower toks).
Proof.
  induction toks as [|w toks IH]; simpl; [reflexivity|].
  destruct (lowered w t) eqn:E.
  - apply lowered_iff in E. rewrite E, String.eqb_refl. reflexivity.
  - destruct (String.eqb_spec (lower w) t) as [El|_].
    + apply lowered_iff in El. congruence.
    + rewrite IH. reflexivity.
Qed.

Lemma ranked_words (toks : list string) (a b : string) :
  ranks_before (map lower toks) a b -> ranked toks a b.
Proof.
  unfold ranked, ranks_before.
  rewrite !frequency_occurrences, !first_seen_index. auto.
Qed.

Lemma StronglySorted_weaken {A : Type} (R R' : A -> A -> Prop) (l : list A) :
  (forall a b, R a b -> R' a b) -> StronglySorted R l -> StronglySorted R' l.
Proof.
  intros HR. induction 1 as [|a l Hl IH Ha]; constructor; [exact IH|].
  eapply Forall_impl; [|exact Ha]. intros b. apply HR.
Qed.

Lemma all_stopwords (toks : list string) :
  Forall (fun w => exists t, lowered w t = true /\ In t STOPWORDS) toks ->
  Forall (fun t => In t STOPWORDS) (map lower toks).
Proof.
  induction 1 as [|w toks (t & Hl & Hs) _ IH]; simpl; constructor; [|exact IH].
  apply lowered_iff in Hl. rewrite Hl. exact Hs.
Qed.

(** C2.  Let [toks] be the tokens of [text]: its maximal runs of the shape
    [[a-zA-Z][a-zA-Z0-9\-]*], from the left.  Then [extract_keywords text k]
    returns at most [k] keywords; each is no stopword, is a lowercase token
    ([[a-z][a-z0-9\-]*]) and is the lowercase form of a token of the text;
    the keywords are in rank order, by frequency among the tokens up to case,
    descending, ties by the earlier first occurrence; the result is a top
    segment of that order (a token whose lowercase form is no stopword and is
    left out means the result holds [k] keywords, each ranking before it);
    tokens that are all stopwords up to case, the empty text among them, give
    the empty list; and ["cache cache lock lock cache"] with [k = 2] gives
    [["cache"; "lock"]]. *)
Theorem extract_keywords_spec (text : string) (toks : list string) (k : nat) :
  tokens_of text toks ->
  List.length (extract_keywords text k) <= k /\
  (forall t, In t (extract_keywords text k) ->
     ~ In t STOPWORDS /\ lowercase_token t = true /\
     exists w, In w toks /\ lowered w t = true) /\
  StronglySorted (ranked toks) (extract_keywords text k) /\
  (forall w t, In w toks -> lowered w t = true -> ~ In t STOPWORDS ->
     ~ In t (extract_keywords text k) ->
     List.length (extract_keywords text k) = k /\
     forall a, In a (extract_keywords text k) -> ranked toks a t) /\
  (Forall (fun w => exists t, lowered w t = true /\ In t STOPWORDS) toks ->
     extract_keywords text k = []) /\
  extract_keywords "" k = [] /\
  extract_keywords "cache cache lock lock cache" 2 = ["cache"; "lock"].
Proof.
  intros Htoks.
  assert (E : toks = TOKENIZER_findall text)
    by (apply (tokens_of_unique text); [exact Htoks | apply tokens_of_findall]).
  destruct (extract_keywords_ranked text k)
    as (Hlen & Hstop & Hword & Hsorted & Htop & Hex & Hall & Hnil).
  unfold words in *. rewrite <- E in *.
  split; [exact Hlen|].
  split.
  { intros t Ht. destruct (Hword t Ht) as (Hin & Hm & Hl).
    split; [apply Hstop, Ht|].
    split; [apply lowercase_token_of; assumption|].
    apply in_map_iff in Hin as (w & <- & Hw).
    exists w. split; [exact Hw | apply lowered_lower]. }
  split.
  { eapply StronglySorted_weaken; [|exact Hsorted].
    intros a b. apply ranked_words. }
  split.
  { intros w t Hw Hl Hs Hout. apply lowered_iff in Hl.
    assert (Hin : In t (map lower toks)) by (rewrite <- Hl; apply in_map, Hw).
    destruct (Htop t Hin Hs Hout) as [Hk Hr].
    split; [exact Hk|]. intros a Ha. apply ranked_words, Hr, Ha. }
  split.
  { intros H. apply Hall, all_stopwords, H. }
  split; [exact Hnil | exact Hex].
Qed.

(** On ["Cache CACHE cache The lock"] the three spellings of [cache] count
    as one keyword and [the] is dropped. *)
Lemma extract_keywords_spec_witness :
  tokens_of "Cache CACHE cache The lock"
    ["Cache"; "CACHE"; "cache"; "The"; "lock"] /\
  extract_keywords "Cache CACHE cache The lock" 5 = ["cache"; "lock"] /\
  StronglySorted (ranked ["Cache"; "CACHE"; "cache"; "The"; "lock"])
    (extract_keywords "Cache CACHE cache The lock" 5) /\
  frequency ["Cache"; "CACHE"; "cache"; "The"; "lock"] "cache" = 3.
Proof.
  assert (H : tokens_of "Cache CACHE cache The lock"
                ["Cache"; "CACHE"; "cache"; "The"; "lock"])
    by (apply (tokens_token "C" "ache" " CACHE cache The lock");
          [reflexivity | reflexivity | reflexivity |];
        apply tokens_skip; [reflexivity|];
        apply (tokens_token "C" "ACHE" " cache The lock");
          [reflexivity | reflexivity | reflexivity |];
        apply tokens_skip; [reflexivity|];
        apply (tokens_token "c" "ache" " The lock");
          [reflexivity | reflexivity | reflexivity |];
        apply tokens_skip; [reflexivity|];
        apply (tokens_token "T" "he" " lock");
          [reflexivity | reflexivity | reflexivity |];
        apply tokens_skip; [reflexivity|];
        apply (tokens_token "l" "ock" "");
          [reflexivity | reflexivity | exact I |];
        apply tokens_end).
  split; [exact H|].
  split; [reflexivity|].
  split; [|reflexivity].
  exact (proj1 (proj2 (proj2
    (extract_keywords_spec "Cache CACHE cache The lock"
       ["Cache"; "CACHE"; "cache"; "The"; "lock"] 5 H)))).
Defined.

End ExtractorSpec.
